(** * zp-prod: registration state machine, geocoding validator and message splitter

A shallow embedding of the parts of the WhatsApp registration assistant
that its specification talks about, and the properties the specification
claims of them.

The model:
- [JsString]: JavaScript strings as sequences of UTF-16 code units, with
  the string primitives the services use ([trim], [includes], [split],
  [substring]), and [Runtime], what the platform decides: the builtin
  [toLowerCase] and the keys the Firestore client accepts as document
  identifiers;
- [Whatsapp]: [splitLongMessage], [cleanPhoneNumber], [checkRateLimit]
  and [sendMessage] of the messaging service;
- [Geocoding]: [geocodeVillage] with its relevance score, boundary test
  and Firestore cache;
- [RegistrationStates] and [StateManager]: the state table and the
  per-citizen collection of state records;
- [Openai]: [processRegistrationWithFunctions], classification followed
  by extraction and validation, and [detectMessageLanguage];
- [LanguageDetector] and [KnowledgeBase]: [detectLanguage] and
  [calculateResponseConfidence];
- [CitizenService]: [processRegistrationWithFunctionCalling], the
  orchestrator, as a computation on the citizen's part of the store that
  records the store after each write.

Numbers that the JavaScript code treats as real quantities (confidences,
coordinates, hours) are rationals ([Q]); integer counters and scores are
[Z]; time is milliseconds since the epoch, one instant per message.  The
external collaborators (language model, geocoding provider) are inputs of
the model: every function that awaits one of them takes its reply as an
argument.  Firestore reads and writes of a document are taken to succeed;
a write to a document that does not exist fails as Firestore's [update]
does, and a key that the client rejects makes [doc(key)] throw.  The
messages of one citizen are handled one after the other; what two
interleaved handlers can do is shown on the state manager alone.

[Spec] restates in the specification's words what the relevance score and
the cache are compared with, [Logic], [Traffic] and [Ledger] hold the
predicates of the proofs, [Sample] the concrete runtime, answers and
conversations at which the theorems are exercised. *)

From Stdlib Require Import ZArith NArith QArith Qminmax Lia Bool.
From Stdlib Require Import Ascii String DecimalString.
From stdpp Require Import base option list strings gmap.

Set Default Proof Using "Type".
Local Open Scope Z_scope.

(** ** JavaScript strings *)

Module JsString.

(** A string is its list of UTF-16 code units; [length] is the number of
    code units, as in JavaScript. *)
Abbreviation jsstring := (list N).

Definition js (s : string) : jsstring :=
  (fun a => N_of_ascii a) <$> list_ascii_of_string s.

Definition jslen (s : jsstring) : Z := Z.of_nat (length s).

Definition jseqb (a b : jsstring) : bool := bool_decide (a = b).

(** JavaScript truthiness of a string: every string but the empty one. *)
Definition truthy (s : jsstring) : bool :=
  match s with [] => false | _ :: _ => true end.

(** Truthiness of a property that may be [undefined] or [null]. *)
Definition truthy_opt (o : option jsstring) : bool :=
  match o with Some s => truthy s | None => false end.

(** [a || b] on strings. *)
Definition or_else (a : option jsstring) (b : jsstring) : jsstring :=
  match a with
  | Some s => if truthy s then s else b
  | None => b
  end.

(** What [String.prototype.toLowerCase] does to a unit of Basic Latin or
    Latin-1: capitals move down by 32, every other unit is kept. *)
Definition lowerUnit (c : N) : N :=
  if ((65 <=? c) && (c <=? 90))%N then (c + 32)%N
  else if ((192 <=? c) && (c <=? 222) && negb (c =? 215))%N then (c + 32)%N
  else c.

(** A string of Basic Latin units. *)
Definition basicLatin (s : jsstring) : Prop := Forall (λ c, (c < 128)%N) s.

(** What the platform decides.  [toLowerCase] is the builtin
    [String.prototype.toLowerCase], over all of Unicode.  [documentId key]
    is the document that [collection.doc(key)] of the Firestore client
    names, and [None] when the client rejects the key (the empty string, a
    key that is not the path of a document) and the call throws. *)
Class Runtime := {
  toLowerCase : jsstring → jsstring;
  documentId : jsstring → option jsstring
}.

(** White space and line terminators, the set shared by [trim] and by
    the regular expression class [\s]. *)
Definition isWhitespace (c : N) : bool :=
  ((9 <=? c) && (c <=? 13) || (c =? 32) || (c =? 160) || (c =? 5760)
   || (8192 <=? c) && (c <=? 8202) || (c =? 8232) || (c =? 8233)
   || (c =? 8239) || (c =? 8287) || (c =? 12288) || (c =? 65279))%N.

Fixpoint trimStart (s : jsstring) : jsstring :=
  match s with
  | c :: s' => if isWhitespace c then trimStart s' else s
  | [] => []
  end.

Definition trim (s : jsstring) : jsstring :=
  reverse (trimStart (reverse (trimStart s))).

Fixpoint startsWith (p s : jsstring) : bool :=
  match p, s with
  | [], _ => true
  | _ :: _, [] => false
  | a :: p', b :: s' => (a =? b)%N && startsWith p' s'
  end.

(** [hay.includes(needle)] *)
Fixpoint includes (hay needle : jsstring) : bool :=
  startsWith needle hay ||
  match hay with
  | [] => false
  | _ :: hay' => includes hay' needle
  end.

(** [types.includes(t)] on an array of strings. *)
Definition arrayIncludes (l : list jsstring) (t : jsstring) : bool :=
  existsb (jseqb t) l.

(** [s.split(sep)] for a non-empty separator string: cut at every
    occurrence found scanning left to right, occurrences do not overlap.
    [skip] counts the units of a matched separator still to be dropped,
    [acc] is the piece being read, last unit first. *)
Fixpoint splitAux (sep : jsstring) (skip : nat) (acc s : jsstring)
  : list jsstring :=
  match s with
  | [] => [reverse acc]
  | c :: s' =>
      match skip with
      | S k => splitAux sep k acc s'
      | O =>
          if startsWith sep s
          then reverse acc :: splitAux sep (length sep - 1) [] s'
          else splitAux sep 0 (c :: acc) s'
      end
  end.

Definition split (sep s : jsstring) : list jsstring := splitAux sep 0 [] s.

(** Decimal rendering of a number inside a template literal. *)
Definition decimal (n : nat) : jsstring :=
  js (NilZero.string_of_uint (Nat.to_uint n)).

End JsString.

Import JsString.

(** ** The messaging service: splitting long messages *)

Module Whatsapp.

Definition MAX_LENGTH : Z := 4000.

(** The characters of the class in [/(?<=[.!?...])\s+/], as the source
    file has them: full stop, exclamation mark, question mark and the
    three units U+00E0, U+00A5, U+00A4. *)
Definition isSentenceEnd (c : N) : bool :=
  ((c =? 46) || (c =? 33) || (c =? 63) || (c =? 224) || (c =? 165)
   || (c =? 164))%N.

(** [paragraph.split(/(?<=[.!?...])\s+/)]: a match starts at a white-space
    unit that directly follows a sentence end and extends over the whole
    run of white space.  [prev] is the unit before the read position,
    [inMatch] tells that the run of a match is being consumed. *)
Fixpoint splitSentencesAux (prev : option N) (inMatch : bool)
    (acc s : jsstring) : list jsstring :=
  match s with
  | [] => [reverse acc]
  | c :: s' =>
      if inMatch then
        if isWhitespace c then splitSentencesAux (Some c) true acc s'
        else splitSentencesAux (Some c) false (c :: acc) s'
      else if isWhitespace c && from_option isSentenceEnd false prev then
        reverse acc :: splitSentencesAux (Some c) true [] s'
      else splitSentencesAux (Some c) false (c :: acc) s'
  end.

Definition splitSentences (s : jsstring) : list jsstring :=
  splitSentencesAux None false [] s.

(** The two mutable variables of the loops: [parts] and [currentPart]. *)
Definition Acc : Type := list jsstring * jsstring.

Definition push (parts : list jsstring) (p : jsstring) : list jsstring :=
  parts ++ [p].

(** [if (currentPart.length > 0) { parts.push(currentPart.trim());
    currentPart = ''; }] *)
Definition flush (a : Acc) : Acc :=
  let '(parts, currentPart) := a in
  if 0 <? jslen currentPart then (push parts (trim currentPart), [])
  else (parts, currentPart).

(** [currentPart += (currentPart.length > 0 ? sep : '') + piece] *)
Definition append (sep : jsstring) (currentPart piece : jsstring) : jsstring :=
  currentPart ++ ((if 0 <? jslen currentPart then sep else []) ++ piece).

(** Body of [for (const word of words)]. *)
Definition wordStep (a : Acc) (word : jsstring) : Acc :=
  let '(parts, currentPart) := a in
  if MAX_LENGTH <? jslen currentPart + jslen word + 1 then
    if 0 <? jslen currentPart then (push parts (trim currentPart), word)
    else (push parts (take (Z.to_nat MAX_LENGTH) word),
          drop (Z.to_nat MAX_LENGTH) word)
  else (parts, append (js " ") currentPart word).

(** Body of [for (const sentence of sentences)]. *)
Definition sentenceStep (a : Acc) (sentence : jsstring) : Acc :=
  if MAX_LENGTH <? jslen (snd a) + jslen sentence + 1 then
    let a' := flush a in
    if MAX_LENGTH <? jslen sentence
    then foldl wordStep a' (split (js " ") sentence)
    else (fst a', sentence)
  else (fst a, append (js " ") (snd a) sentence).

(** Body of [for (const paragraph of paragraphs)]. *)
Definition paragraphStep (a : Acc) (paragraph : jsstring) : Acc :=
  if MAX_LENGTH <? jslen (snd a) + jslen paragraph + 2 then
    let a' := flush a in
    if MAX_LENGTH <? jslen paragraph
    then foldl sentenceStep a' (splitSentences paragraph)
    else (fst a', paragraph)
  else (fst a, append [10; 10]%N (snd a) paragraph).

(** The marker of the part indicator, as the source file has it: the
    three units U+00F0, U+0178, U+201C. *)
Definition indicatorMark : jsstring := [240; 376; 8220]%N.

(** [`${part}\n\n<mark> (${index + 1}/${parts.length})`] *)
Definition withIndicator (total : nat) (index : nat) (part : jsstring)
  : jsstring :=
  part ++ [10; 10]%N ++ indicatorMark ++ js " (" ++ decimal (index + 1)
       ++ js "/" ++ decimal total ++ js ")".

Definition splitLongMessage (message : jsstring) : list jsstring :=
  if jslen message <=? MAX_LENGTH then [message]
  else
    let '(parts, currentPart) :=
      foldl paragraphStep ([], []) (split [10; 10]%N message) in
    let parts :=
      if 0 <? jslen currentPart then push parts (trim currentPart)
      else parts in
    if (1 <? length parts)%nat
    then imap (withIndicator (length parts)) parts
    else parts.

(** [/\D/], negated: the ASCII digits. *)
Definition isDigit (c : N) : bool := ((48 <=? c) && (c <=? 57))%N.

(** Clean phone number: remove all non-digit characters, and add the
    country code 91 to a number of ten digits that does not start with it. *)
Definition cleanPhoneNumber (phoneNumber : jsstring) : jsstring :=
  let cleaned := List.filter isDigit phoneNumber in
  if negb (startsWith (js "91") cleaned) && (jslen cleaned =? 10)
  then js "91" ++ cleaned
  else cleaned.

Definition MESSAGE_LIMIT : Z := 1000.
Definition INTERACTIVE_MESSAGE_LIMIT : Z := 100.

(** A rate-limit document of the [messageMetrics] collection. *)
Record RateLimitDoc := {
  messageCount : Z;
  resetTime : Z;
  limitedType : jsstring
}.

(** The rate-limit documents, by document identifier.  (The statistics
    documents that the logging functions write to the same collection have
    other identifiers and are left out.) *)
Abbreviation Metrics := (gmap jsstring RateLimitDoc).

Definition limitKey (messageType : jsstring) : jsstring :=
  if jseqb messageType (js "interactive") then js "interactiveRateLimit"
  else js "textRateLimit".

Definition limitOf (messageType : jsstring) : Z :=
  if jseqb messageType (js "interactive") then INTERACTIVE_MESSAGE_LIMIT
  else MESSAGE_LIMIT.

(** Check and enforce rate limits with separate limits: read the counter
    and the end of its window ([data.resetTime || resetTime] takes the
    default for a zero), start a new window of one hour when the old one has
    passed, refuse when the counter has reached the limit, and otherwise
    store the counter plus one. *)
Definition checkRateLimit (now : Z) (messageType : jsstring)
    (metrics : Metrics) : bool * Metrics :=
  let limit := limitOf messageType in
  let stored :=
    match metrics !! limitKey messageType with
    | Some data =>
        (messageCount data,
         if resetTime data =? 0 then now + 3600000 else resetTime data)
    | None => (0, now + 3600000)
    end in
  let current :=
    if stored.2 <? now then (0, now + 3600000) else stored in
  if limit <=? current.1 then (false, metrics)
  else
    (true,
     <[limitKey messageType :=
         {| messageCount := current.1 + 1; resetTime := current.2;
            limitedType := messageType |}]> metrics).

(** What [whatsappClient.post] gives for the sending number, the recipient,
    the position of the call in the loop and the text body: a thrown error
    with its message, or the response, of which the code reads the
    identifier of the first message, if any. *)
Definition Transport : Type :=
  jsstring → jsstring → nat → jsstring → jsstring + option jsstring.

Record MessageResult := {
  messageId : option jsstring;
  part : nat;
  totalParts : nat
}.

(** What [sendMessage] gives: the error it throws, or its report. *)
Inductive SendOutcome :=
| SendFailed (error : jsstring)
| SendSucceeded (messageResults : list MessageResult) (parts : nat).

(** The loop [for (let i = 0; i < messages.length; i++)] from part [i] on:
    the bodies delivered, and the results or the error that ended the loop. *)
Fixpoint postParts (post : Transport) (phoneNumberId recipient : jsstring)
    (total i : nat) (messages : list jsstring)
  : list jsstring * (jsstring + list MessageResult) :=
  match messages with
  | [] => ([], inr [])
  | messagePart :: rest =>
      match post phoneNumberId recipient i messagePart with
      | inl e => ([], inl e)
      | inr response =>
          let '(delivered, r) :=
            postParts post phoneNumberId recipient total (S i) rest in
          (messagePart :: delivered,
           match r with
           | inl e => inl e
           | inr results =>
               inr ({| messageId := response; part := i + 1;
                       totalParts := total |} :: results)
           end)
      end
  end.

Definition failedToSend (e : jsstring) : SendOutcome :=
  SendFailed (js "Failed to send WhatsApp message: " ++ e).

(** [sendMessage]: rate limit, then validation of the parameters, then one
    post per part of [splitLongMessage] to the cleaned number; every error
    is rethrown with a prefix.  The last component lists the bodies that
    were delivered. *)
Definition sendMessage (post : Transport) (now : Z)
    (phoneNumberId recipientNumber message : jsstring) (metrics : Metrics)
  : SendOutcome * Metrics * list jsstring :=
  let '(allowed, metrics) := checkRateLimit now (js "text") metrics in
  if negb allowed then
    (failedToSend (js "Rate limit exceeded"), metrics, [])
  else if negb (truthy phoneNumberId) || negb (truthy recipientNumber)
          || negb (truthy message) then
    (failedToSend (js "Missing required parameters for sending message"),
     metrics, [])
  else
    let cleanRecipient := cleanPhoneNumber recipientNumber in
    let messages := splitLongMessage message in
    match postParts post phoneNumberId cleanRecipient (length messages) 0
            messages with
    | (delivered, inl e) => (failedToSend e, metrics, delivered)
    | (delivered, inr results) =>
        (SendSucceeded results (length messages), metrics, delivered)
    end.

End Whatsapp.

(** ** The geocoding service *)

Module Geocoding.

Record Location := { lat : Q; lng : Q }.

Record Bounds := { northeast : Location; southwest : Location }.

(** Pune Zilla Panchayat boundaries (approximate). *)
Definition PUNE_ZP_BOUNDS : Bounds :=
  {| northeast := {| lat := 19.5; lng := 75.0 |};
     southwest := {| lat := 18.0; lng := 73.5 |} |}.

(** One entry of [address_components] of the provider. *)
Record AddressComponent := {
  long_name : jsstring;
  short_name : jsstring;
  types : list jsstring
}.

(** [geometry] of a provider result.  [location] is optional: reading a
    coordinate of a missing location throws. *)
Record Geometry := {
  location : option Location;
  location_type : jsstring;
  geometry_bounds : option Bounds
}.

Record ProviderResult := {
  formatted_address : jsstring;
  address_components : list AddressComponent;
  geometry : Geometry;
  place_id : jsstring
}.

(** What one [axios.get] on the geocoding API gives: a thrown error, or
    a body with a status and a list of results. *)
Inductive ProviderReply :=
| ProviderError
| ProviderResponse (status : jsstring) (results : list ProviderResult).

(** The provider, asked with the [address] and [language] parameters. *)
Definition Provider : Type := jsstring -> jsstring -> ProviderReply.

Record AdminDetails := {
  village : option jsstring;
  taluka : option jsstring;
  district : option jsstring;
  state : option jsstring;
  country : option jsstring;
  pincode : option jsstring
}.

Record Coordinates := { latitude : Q; longitude : Q }.

Record GeocodeSuccess := {
  villageName : jsstring;
  coordinates : Coordinates;
  formattedAddress : jsstring;
  placeId : jsstring;
  administrative : AdminDetails;
  bounds : option Bounds;
  locationType : jsstring;
  confidence : Z;
  geocodedAt : Z
}.

Record GeocodeFailure := {
  error : jsstring;
  failLocation : option Location;
  failAddress : option jsstring;
  message : jsstring
}.

(** The object [geocodeVillage] returns: [success: true] with the
    resolved place, or [success: false] with an error and a message. *)
Inductive GeocodeResult :=
| Success (r : GeocodeSuccess)
| Failure (f : GeocodeFailure).

Definition success (r : GeocodeResult) : bool :=
  match r with Success _ => true | Failure _ => false end.

(** A document of the [geocoding] collection. *)
Record CacheDoc := {
  cachedName : jsstring;
  result : GeocodeResult;
  cachedAt : Z
}.

Abbreviation GeoCache := (gmap jsstring CacheDoc).

Definition Qlt_bool (a b : Q) : bool := negb (Qle_bool b a).

(** Check if location is within Pune ZP boundaries. *)
Definition isLocationInPuneZP (l : Location) : bool :=
  Qle_bool (lat (southwest PUNE_ZP_BOUNDS)) (lat l)
  && Qle_bool (lat l) (lat (northeast PUNE_ZP_BOUNDS))
  && Qle_bool (lng (southwest PUNE_ZP_BOUNDS)) (lng l)
  && Qle_bool (lng l) (lng (northeast PUNE_ZP_BOUNDS)).

Section WithRuntime.

Context {runtime : Runtime}.

(** Body of [for (const component of addressComponents)] in
    [calculateRelevanceScore]. *)
Definition componentStep (searchLower : jsstring) (score : Z)
    (component : AddressComponent) : Z :=
  let longName := toLowerCase (long_name component) in
  let shortName := toLowerCase (short_name component) in
  let score :=
    if jseqb longName searchLower || jseqb shortName searchLower
    then score + 100
    else if includes longName searchLower || includes shortName searchLower
    then score + 50
    else score in
  let score :=
    if arrayIncludes (types component) (js "administrative_area_level_2")
       && includes longName (js "pune")
    then score + 30 else score in
  let score :=
    if arrayIncludes (types component) (js "administrative_area_level_1")
       && includes longName (js "maharashtra")
    then score + 20 else score in
  score.

(** The [switch] on [result.geometry.location_type]; no default case. *)
Definition locationTypeBonus (t : jsstring) : Z :=
  if jseqb t (js "ROOFTOP") then 20
  else if jseqb t (js "RANGE_INTERPOLATED") then 15
  else if jseqb t (js "GEOMETRIC_CENTER") then 10
  else if jseqb t (js "APPROXIMATE") then 5
  else 0.

(** Calculate relevance score for geocoding results. *)
Definition calculateRelevanceScore (r : ProviderResult)
    (searchTerm : jsstring) : Z :=
  let searchLower := toLowerCase searchTerm in
  let addressLower := toLowerCase (formatted_address r) in
  let score := foldl (componentStep searchLower) 0 (address_components r) in
  let score :=
    if includes addressLower searchLower then score + 25 else score in
  score + locationTypeBonus (location_type (geometry r)).

Definition emptyDetails : AdminDetails :=
  {| village := None; taluka := None; district := None; state := None;
     country := None; pincode := None |}.

(** Body of the loop of [extractAdministrativeDetails]: one assignment
    per component, chosen by the first type test that holds; a later
    component overwrites an earlier one. *)
Definition detailStep (d : AdminDetails) (component : AddressComponent)
  : AdminDetails :=
  let ty := types component in
  let name := Some (long_name component) in
  if arrayIncludes ty (js "locality") || arrayIncludes ty (js "sublocality")
  then {| village := name; taluka := taluka d; district := district d;
          state := state d; country := country d; pincode := pincode d |}
  else if arrayIncludes ty (js "administrative_area_level_3")
  then {| village := village d; taluka := name; district := district d;
          state := state d; country := country d; pincode := pincode d |}
  else if arrayIncludes ty (js "administrative_area_level_2")
  then {| village := village d; taluka := taluka d; district := name;
          state := state d; country := country d; pincode := pincode d |}
  else if arrayIncludes ty (js "administrative_area_level_1")
  then {| village := village d; taluka := taluka d; district := district d;
          state := name; country := country d; pincode := pincode d |}
  else if arrayIncludes ty (js "country")
  then {| village := village d; taluka := taluka d; district := district d;
          state := state d; country := name; pincode := pincode d |}
  else if arrayIncludes ty (js "postal_code")
  then {| village := village d; taluka := taluka d; district := district d;
          state := state d; country := country d; pincode := name |}
  else d.

Definition extractAdministrativeDetails (r : ProviderResult) : AdminDetails :=
  foldl detailStep emptyDetails (address_components r).

(** The cache key: [villageName.toLowerCase().trim()]. *)
Definition cacheKey (name : jsstring) : jsstring := trim (toLowerCase name).

(** Cache geocoding results: [set] on the document of the key.  When
    [doc(cacheKey)] throws, the [catch] logs the error and nothing is
    stored. *)
Definition cacheGeocode (now : Z) (name : jsstring) (r : GeocodeResult)
    (cache : GeoCache) : GeoCache :=
  match documentId (cacheKey name) with
  | Some id =>
      <[id := {| cachedName := name; result := r; cachedAt := now |}]> cache
  | None => cache
  end.

(** Get cached geocoding result: the stored result when the document is
    younger than 24 hours; an older document is deleted.  When
    [doc(cacheKey)] throws, the [catch] returns [null]. *)
Definition getCachedGeocode (now : Z) (name : jsstring) (cache : GeoCache)
  : option GeocodeResult * GeoCache :=
  match documentId (cacheKey name) with
  | Some id =>
      match cache !! id with
      | Some data =>
          let hoursDiff := (inject_Z (now - cachedAt data) / 3600000)%Q in
          if Qlt_bool hoursDiff 24 then (Some (result data), cache)
          else (None, delete id cache)
      | None => (None, cache)
      end
  | None => (None, cache)
  end.

(** Search queries with Pune context, in the order they are tried. *)
Definition searchQueries (name : jsstring) : list jsstring :=
  [ name ++ js ", Pune District, Maharashtra, India";
    name ++ js ", Pune, Maharashtra, India";
    name ++ js " village, Pune District, Maharashtra";
    name ++ js ", Maharashtra, India" ].

Definition isMarathi (language : jsstring) : bool := jseqb language (js "mr").

(** [bestResult] and [highestScore]. *)
Definition Best : Type := option ProviderResult * Z.

(** Body of [for (const query of searchQueries)]: a thrown provider
    error is caught and the loop continues; of an [OK] response only the
    first result is scored, and kept when it beats the highest score. *)
Definition queryStep (provider : Provider) (language name : jsstring)
    (b : Best) (query : jsstring) : Best :=
  match provider query (if isMarathi language then js "hi" else js "en") with
  | ProviderError => b
  | ProviderResponse status results =>
      if jseqb status (js "OK") then
        match results with
        | r :: _ =>
            let score := calculateRelevanceScore r name in
            if snd b <? score then (Some r, score) else b
        | [] => b
        end
      else b
  end.

Definition searchLoop (provider : Provider) (language name : jsstring)
  : Best :=
  foldl (queryStep provider language name) (None, 0) (searchQueries name).

Definition notFound (language : jsstring) : GeocodeResult :=
  Failure {|
    error := js "Village not found";
    failLocation := None;
    failAddress := None;
    message :=
      if isMarathi language
      then [2361; 2375; 32; 2327; 2366; 2357; 32; 2360; 2366; 2346; 2337;
            2354; 2375; 32; 2344; 2366; 2361; 2368; 46; 32; 2325; 2371;
            2346; 2351; 2366; 32; 2351; 2379; 2327; 2381; 2351; 32; 2327;
            2366; 2357; 32; 2344; 2366; 2357; 32; 2354; 2367; 2361; 2366;
            46]%N
      else js "Village not found. Please provide a valid village name."
  |}.

Definition outOfBoundary (language : jsstring) (l : Location)
    (address : jsstring) : GeocodeResult :=
  Failure {|
    error := js "Village not in Pune ZP";
    failLocation := Some l;
    failAddress := Some address;
    message :=
      if isMarathi language
      then [2361; 2375; 32; 2327; 2366; 2357; 32; 2346; 2369; 2339; 2375;
            32; 2332; 2367; 2354; 2381; 2361; 2366; 32; 2346; 2352; 2367;
            2359; 2342; 2375; 2330; 2381; 2351; 2366; 32; 2361; 2342; 2381;
            2342; 2368; 2340; 32; 2344; 2366; 2361; 2368; 46; 32; 2325;
            2371; 2346; 2351; 2366; 32; 2346; 2369; 2339; 2375; 32; 2332;
            2367; 2354; 2381; 2361; 2381; 2351; 2366; 2340; 2368; 2354; 32;
            2327; 2366; 2357; 32; 2344; 2366; 2357; 32; 2342; 2381; 2351;
            2366; 46]%N
      else js "This village is not within Pune Zilla Panchayat boundaries. Please provide a village name from Pune district."
  |}.

Definition serviceError (language : jsstring) : GeocodeResult :=
  Failure {|
    error := js "Geocoding service error";
    failLocation := None;
    failAddress := None;
    message :=
      if isMarathi language
      then [2327; 2366; 2357; 32; 2358; 2379; 2343; 2339; 2381; 2351; 2366;
            2340; 32; 2340; 2366; 2306; 2340; 2381; 2352; 2367; 2325; 32;
            2360; 2350; 2360; 2381; 2351; 2366; 32; 2310; 2354; 2368; 46;
            32; 2325; 2371; 2346; 2351; 2366; 32; 2346; 2369; 2344; 2381;
            2361; 2366; 32; 2346; 2381; 2352; 2351; 2340; 2381; 2344; 32;
            2325; 2352; 2366; 46]%N
      else js "Technical issue while searching village. Please try again."
  |}.

(** The object built on the success path. *)
Definition geocodeResultOf (now : Z) (name : jsstring) (best : ProviderResult)
    (l : Location) (highestScore : Z) : GeocodeSuccess :=
  {| villageName := name;
     coordinates := {| latitude := lat l; longitude := lng l |};
     formattedAddress := formatted_address best;
     placeId := place_id best;
     administrative := extractAdministrativeDetails best;
     bounds := geometry_bounds (geometry best);
     locationType := location_type (geometry best);
     confidence := highestScore;
     geocodedAt := now |}.

(** Geocode village name with validation for Pune ZP.  The third
    component of the outcome lists the provider queries the call issued. *)
Definition geocodeVillage (provider : Provider) (now : Z)
    (name language : jsstring) (cache : GeoCache)
  : GeocodeResult * GeoCache * list jsstring :=
  match getCachedGeocode now name cache with
  | (Some cachedResult, cache) => (cachedResult, cache, [])
  | (None, cache) =>
      let issued := searchQueries name in
      match searchLoop provider language name with
      | (None, _) => (notFound language, cache, issued)
      | (Some best, highestScore) =>
          match location (geometry best) with
          | None => (serviceError language, cache, issued)
          | Some l =>
              if negb (isLocationInPuneZP l)
              then (outOfBoundary language l (formatted_address best),
                    cache, issued)
              else
                let r := Success (geocodeResultOf now name best l highestScore) in
                (r, cacheGeocode now name r cache, issued)
          end
      end
  end.

End WithRuntime.

End Geocoding.

(** ** The registration states *)

Module RegistrationStates.

(** The state identifiers ['initial'], ['awaiting_name'],
    ['awaiting_village'] and ['completed']. *)
Inductive StateId := initial | awaiting_name | awaiting_village | completed.

Global Instance StateId_eq_dec : EqDecision StateId.
Proof. solve_decision. Defined.

Record RegistrationState := {
  id : StateId;
  name : jsstring;
  nextStates : list StateId;
  requiredData : list jsstring
}.

(** Simplified registration states - only Name and Village. *)
Definition REGISTRATION_STATES (s : StateId) : RegistrationState :=
  match s with
  | initial =>
      {| id := initial; name := js "Initial Contact";
         nextStates := [awaiting_name]; requiredData := [] |}
  | awaiting_name =>
      {| id := awaiting_name; name := js "Awaiting Name";
         nextStates := [awaiting_village];
         requiredData := [js "userProvidedName"] |}
  | awaiting_village =>
      {| id := awaiting_village; name := js "Awaiting Village";
         nextStates := [completed];
         requiredData := [js "village"; js "coordinates"] |}
  | completed =>
      {| id := completed; name := js "Registration Complete";
         nextStates := []; requiredData := [] |}
  end.

(** The fixed registration sequence, read off the [nextStates] lists. *)
Definition sequence : list StateId :=
  [initial; awaiting_name; awaiting_village; completed].

End RegistrationStates.

Import RegistrationStates.

(** ** The language-model service: classification and extraction *)

Module Openai.

(** Arguments of the tool call [analyze_registration_state]. *)
Record StateAnalysis := {
  current_state : StateId;
  user_intent : jsstring;
  has_required_data : bool;
  next_state : StateId;
  confidence : Q;
  reason : jsstring
}.

(** The extraction payload.  [extract_user_name] fills [full_name] and
    [confidence]; [extract_village_info] fills [village_name],
    [confidence] and [needs_geocoding]; the remaining fields are the ones
    [processRegistrationWithFunctions] adds after a successful geocoding.
    A field that the object does not have is [None]. *)
Record ExtractedData := {
  full_name : option jsstring;
  village_name : option jsstring;
  extractionConfidence : Q;
  needs_geocoding : option bool;
  geocoding : option Geocoding.GeocodeSuccess;
  coordinates : option Geocoding.Coordinates;
  validated_village : option jsstring;
  taluka : option jsstring
}.

(** What the language model answers during one message.  [analysis] is
    [None] when the completion call throws and [Some None] when the
    answer carries no tool call; an extraction is [None] in both cases
    (the extractor catches its own errors); [contextual] is the text of
    [generateContextualResponseWithFunctions], [None] for [null]. *)
Record Model := {
  analysis : option (option StateAnalysis);
  extract_user_name : option (jsstring * Q);
  extract_village_info : option (jsstring * Q * bool);
  contextual : option jsstring
}.

(** The object [processRegistrationWithFunctions] returns. *)
Record FunctionResults := {
  stateAnalysis : option StateAnalysis;
  extractedData : option ExtractedData;
  shouldTransition : bool;
  nextState : StateId;
  resultConfidence : Q;
  geocodingError : option jsstring
}.

(** Extract specific registration data based on simplified states. *)
Definition extractRegistrationData (m : Model) (currentState : StateId)
  : option ExtractedData :=
  match currentState with
  | awaiting_name =>
      (fun '(n, c) =>
         {| full_name := Some n; village_name := None;
            extractionConfidence := c; needs_geocoding := None;
            geocoding := None; coordinates := None;
            validated_village := None; taluka := None |})
      <$> extract_user_name m
  | awaiting_village =>
      (fun '(v, c, g) =>
         {| full_name := None; village_name := Some v;
            extractionConfidence := c; needs_geocoding := Some g;
            geocoding := None; coordinates := None;
            validated_village := None; taluka := None |})
      <$> extract_village_info m
  | _ => None
  end.

(** The assignments made to [extractedData] when geocoding succeeded. *)
Definition withGeocoding (d : ExtractedData) (g : Geocoding.GeocodeSuccess)
  : ExtractedData :=
  {| full_name := full_name d;
     village_name := village_name d;
     extractionConfidence :=
       Qmin (extractionConfidence d)
            (inject_Z (Geocoding.confidence g) / 100)%Q;
     needs_geocoding := needs_geocoding d;
     geocoding := Some g;
     coordinates := Some (Geocoding.coordinates g);
     validated_village :=
       Some (or_else (Geocoding.village (Geocoding.administrative g))
                     (from_option (fun x => x) [] (village_name d)));
     taluka := Geocoding.taluka (Geocoding.administrative g) |}.

(** [x || 0.0] on a number. *)
Definition or_zero (x : Q) : Q := if Qeq_bool x 0 then 0%Q else x.

(** The [return] at the end of the [try] block. *)
Definition results (sa : option StateAnalysis) (d : option ExtractedData)
    (currentState : StateId) : FunctionResults :=
  {| stateAnalysis := sa;
     extractedData := d;
     shouldTransition := from_option has_required_data false sa;
     nextState := from_option next_state currentState sa;
     resultConfidence := from_option (fun a => or_zero (confidence a)) 0%Q sa;
     geocodingError := None |}.

(** Village not found or not in Pune ZP. *)
Definition geocodingFailed (sa : option StateAnalysis)
    (currentState : StateId) (message : jsstring) : FunctionResults :=
  {| stateAnalysis := sa;
     extractedData := None;
     shouldTransition := false;
     nextState := currentState;
     resultConfidence := 0;
     geocodingError := Some message |}.

(** The [return] of the [catch] block. *)
Definition failed (currentState : StateId) : FunctionResults :=
  {| stateAnalysis := None;
     extractedData := None;
     shouldTransition := false;
     nextState := currentState;
     resultConfidence := 0;
     geocodingError := None |}.

Section WithRuntime.

Context {runtime : Runtime}.

(** Process registration with simplified function calling: analyse the
    state, extract when the analysis says the data is there, and validate
    an extracted village with the geocoding service.  The geocoding cache
    is threaded through; the last component lists the provider queries. *)
Definition processRegistrationWithFunctions (m : Model)
    (provider : Geocoding.Provider) (now : Z)
    (currentState : StateId) (language : jsstring)
    (cache : Geocoding.GeoCache)
  : FunctionResults * Geocoding.GeoCache * list jsstring :=
  match analysis m with
  | None => (failed currentState, cache, [])
  | Some sa =>
      if from_option has_required_data false sa then
        let d := extractRegistrationData m currentState in
        match currentState, d with
        | awaiting_village, Some d' =>
            if truthy_opt (village_name d') then
              match Geocoding.geocodeVillage provider now
                      (from_option (fun x => x) [] (village_name d'))
                      language cache with
              | (Geocoding.Success g, cache', issued) =>
                  (results sa (Some (withGeocoding d' g)) currentState,
                   cache', issued)
              | (Geocoding.Failure f, cache', issued) =>
                  (geocodingFailed sa currentState (Geocoding.message f),
                   cache', issued)
              end
            else (results sa d currentState, cache, [])
        | _, _ => (results sa d currentState, cache, [])
        end
      else (results sa None currentState, cache, [])
  end.

(** [detectMessageLanguage]: ['mr'] when the trimmed, lower-cased answer of
    the model contains "mr", ['en'] otherwise and when the call throws
    ([None]). *)
Definition detectMessageLanguage (answer : option jsstring) : jsstring :=
  match answer with
  | Some content =>
      if includes (toLowerCase (trim content)) (js "mr") then js "mr"
      else js "en"
  | None => js "en"
  end.

End WithRuntime.

End Openai.

(** ** The language detector *)

Module LanguageDetector.

(** What [langdetect.detect] gives: a thrown error, or the detected
    languages, best first (none for [null] or an empty array). *)
Inductive LibraryReply :=
| LibraryThrows
| Detections (langs : list jsstring).

(** Map language codes to our supported languages: Hindi is treated as
    Marathi, every other language as English. *)
Definition mapLanguageCode (code : jsstring) : jsstring :=
  if jseqb code (js "mr") || jseqb code (js "hi") then js "mr" else js "en".

(** Detect language using the library first. *)
Definition detectWithLibrary (r : LibraryReply) : option jsstring :=
  match r with
  | Detections (lang :: _) => Some (mapLanguageCode lang)
  | _ => None
  end.

Section WithRuntime.

Context {runtime : Runtime}.

(** Detect language from text using multiple methods: the library, and
    the language model when the library gives nothing. *)
Definition detectLanguage (library : LibraryReply) (answer : option jsstring)
  : jsstring :=
  match detectWithLibrary library with
  | Some l => if truthy l then l else Openai.detectMessageLanguage answer
  | None => Openai.detectMessageLanguage answer
  end.

End WithRuntime.

End LanguageDetector.

(** ** The knowledge base: confidence of a response *)

Module KnowledgeBase.

Definition negativeIndicators : list jsstring :=
  [ js "no information"; js "not found"; js "don't have";
    [2350; 2366; 2361; 2367; 2340; 2368; 32; 2344; 2366; 2361; 2368]%N;
    [2360; 2366; 2346; 2337; 2354; 2368; 32; 2344; 2366; 2361; 2368]%N;
    [2313; 2346; 2354; 2348; 2381; 2343; 32; 2344; 2366; 2361; 2368]%N ].

Section WithRuntime.

Context {runtime : Runtime}.

(** The query keywords: the words of the lower-cased query that are longer
    than two units. *)
Definition queryWords (query : jsstring) : list jsstring :=
  List.filter (λ word, 2 <? jslen word) (split (js " ") (toLowerCase query)).

(** Calculate confidence based on response quality. *)
Definition calculateResponseConfidence (response query : jsstring) : Q :=
  let lowerResponse := toLowerCase response in
  let words := queryWords query in
  let matchCount :=
    length (List.filter (λ word, includes lowerResponse word) words) in
  if existsb (λ indicator, includes lowerResponse indicator) negativeIndicators
  then 0.1%Q
  else if (matchCount =? 0)%nat then 0.2%Q
  else
    let matchRatio :=
      (inject_Z (Z.of_nat matchCount) / inject_Z (Z.of_nat (length words)))%Q in
    if Qle_bool 0.8 matchRatio then 0.9%Q
    else if Qle_bool 0.6 matchRatio then 0.7%Q
    else if Qle_bool 0.4 matchRatio then 0.5%Q
    else 0.3%Q.

End WithRuntime.

End KnowledgeBase.

(** ** The state manager: the [states] sub-collection of one citizen *)

Module StateManager.

(** The [extractedData] argument of [completeStateTransition]: the empty
    object literal or an extraction payload. *)
Inductive Snapshot := EmptyObject | Payload (d : Openai.ExtractedData).

Record Context := {
  language : option jsstring;
  sessionId : option jsstring;
  previousState : option StateId;
  contextData : option Snapshot
}.

Record Metadata := {
  metaSessionId : option jsstring;
  metaLanguage : option jsstring;
  transitionedFrom : option StateId;
  transitionTimestamp : option Z
}.

(** One entry of [functionCallResults] of a state record. *)
Record FunctionCallResult := {
  timestamp : Z;
  results : Openai.FunctionResults;
  confidence : Q;
  method : jsstring
}.

Record StateRecord := {
  stateId : StateId;
  stateName : jsstring;
  context : Context;
  createdAt : Z;
  isActive : bool;
  attempts : Z;
  lastAttemptAt : option Z;
  completedAt : option Z;
  functionCallResults : list FunctionCallResult;
  lastFunctionCallResult : option FunctionCallResult;
  extractedData : option Snapshot;
  isCompleted : bool;
  finalConfidence : option Q;
  metadata : Metadata
}.

(** The collection in creation order; the identifier of a document is
    its position.  Documents are never deleted. *)
Abbreviation States := (list StateRecord).

(** A state as the callers hold it: document identifier and data. *)
Definition StateDoc : Type := nat * StateRecord.

Definition newRecord (now : Z) (s : StateId) (c : Context) (m : Metadata)
  : StateRecord :=
  {| stateId := s;
     stateName := name (REGISTRATION_STATES s);
     context := c;
     createdAt := now;
     isActive := true;
     attempts := 0;
     lastAttemptAt := None;
     completedAt := None;
     functionCallResults := [];
     lastFunctionCallResult := None;
     extractedData := None;
     isCompleted := false;
     finalConfidence := None;
     metadata := m |}.

(** Create state record: [add] a fresh active document. *)
Definition createStateRecord (now : Z) (s : StateId)
    (lang sid : option jsstring) (states : States) : StateDoc * States :=
  let r :=
    newRecord now s
      {| language := lang; sessionId := sid; previousState := None;
         contextData := None |}
      {| metaSessionId := sid; metaLanguage := lang;
         transitionedFrom := None; transitionTimestamp := None |} in
  ((length states, r), states ++ [r]).

(** The most recently created document among those of [l], whose first
    document has identifier [i], that has [isActive == true]. *)
Fixpoint findActive (i : nat) (l : States) : option StateDoc :=
  match l with
  | [] => None
  | r :: l' =>
      match findActive (S i) l' with
      | Some d => Some d
      | None => if isActive r then Some (i, r) else None
      end
  end.

(** Get current state: [where isActive == true], newest first, limit 1. *)
Definition getCurrentState (states : States) : option StateDoc :=
  findActive 0 states.

(** The fields [updateStateWithFunctionResults] writes. *)
Definition withFunctionResults (now : Z) (fr : Openai.FunctionResults)
    (r : StateRecord) : StateRecord :=
  let entry :=
    {| timestamp := now; results := fr;
       confidence := Openai.or_zero (Openai.resultConfidence fr);
       method := js "function_calling" |} in
  {| stateId := stateId r;
     stateName := stateName r;
     context := context r;
     createdAt := createdAt r;
     isActive := isActive r;
     attempts := attempts r + 1;
     lastAttemptAt := Some now;
     completedAt := completedAt r;
     functionCallResults := functionCallResults r ++ [entry];
     lastFunctionCallResult := Some entry;
     extractedData := extractedData r;
     isCompleted := isCompleted r;
     finalConfidence := finalConfidence r;
     metadata := metadata r |}.

(** Update state with function call results.  [false] and no change when
    the document does not exist. *)
Definition updateStateWithFunctionResults (now : Z) (current : StateDoc)
    (fr : Openai.FunctionResults) (states : States) : bool * States :=
  match states !! current.1 with
  | Some _ => (true, alter (withFunctionResults now fr) current.1 states)
  | None => (false, states)
  end.

(** [extractedData.confidence || null] *)
Definition confidenceOf (s : Snapshot) : option Q :=
  match s with
  | EmptyObject => None
  | Payload d =>
      if Qeq_bool (Openai.extractionConfidence d) 0 then None
      else Some (Openai.extractionConfidence d)
  end.

(** The fields the batch writes on the current state document. *)
Definition deactivated (now : Z) (s : Snapshot) (r : StateRecord)
  : StateRecord :=
  {| stateId := stateId r;
     stateName := stateName r;
     context := context r;
     createdAt := createdAt r;
     isActive := false;
     attempts := attempts r;
     lastAttemptAt := lastAttemptAt r;
     completedAt := Some now;
     functionCallResults := functionCallResults r;
     lastFunctionCallResult := lastFunctionCallResult r;
     extractedData := Some s;
     isCompleted := true;
     finalConfidence := confidenceOf s;
     metadata := metadata r |}.

(** The document of the next state; context and metadata are spread
    from the state object the caller holds. *)
Definition nextStateData (now : Z) (current : StateRecord) (s : Snapshot)
    (next : StateId) : StateRecord :=
  newRecord now next
    {| language := language (context current);
       sessionId := sessionId (context current);
       previousState := Some (stateId current);
       contextData := Some s |}
    {| metaSessionId := metaSessionId (metadata current);
       metaLanguage := metaLanguage (metadata current);
       transitionedFrom := Some (stateId current);
       transitionTimestamp := Some now |}.

(** Complete state transition: one batch that updates the current
    document and sets the document of the next state.  (The guard
    [if (nextStateId)] holds for every state identifier.)  The batch
    fails, and nothing is written, when the current document does not
    exist. *)
Definition completeStateTransition (now : Z) (current : StateDoc)
    (s : Snapshot) (next : StateId) (states : States) : bool * States :=
  match states !! current.1 with
  | Some _ =>
      (true,
       alter (deactivated now s) current.1 states
         ++ [nextStateData now current.2 s next])
  | None => (false, states)
  end.

(** Number of documents with [isActive == true]. *)
Fixpoint activeCount (l : States) : nat :=
  match l with
  | [] => 0
  | r :: l' => ((if isActive r then 1 else 0) + activeCount l')%nat
  end.

End StateManager.

(** ** The citizen service: the registration orchestrator *)

Module CitizenService.

Import StateManager.

Record GeocodingInfo := {
  formattedAddress : jsstring;
  placeId : jsstring;
  administrative : Geocoding.AdminDetails;
  confidence : Z;
  geocodedAt : Z
}.

(** A document of the [citizens] collection. *)
Record Citizen := {
  whatsappDisplayName : option jsstring;
  isRegistered : bool;
  userProvidedName : option jsstring;
  village : option jsstring;
  coordinates : option Geocoding.Coordinates;
  latitude : option Q;
  longitude : option Q;
  taluka : option jsstring;
  district : jsstring;
  geocodingInfo : option GeocodingInfo;
  registrationCompletedAt : option Z;
  lastUpdated : option Z;
  lastActive : Z
}.

(** A document of the [functionCalls] sub-collection. *)
Record FunctionCallDoc := {
  callState : StateId;
  callResults : Openai.FunctionResults;
  callConfidence : Q;
  callTimestamp : Z
}.

(** Everything the handling of one citizen's messages reads and writes:
    the citizen document (if it exists), the sub-collections [states] and
    [functionCalls], the geocoding cache, and the list of queries sent to
    the geocoding provider so far. *)
Record World := {
  citizen : option Citizen;
  states : States;
  functionCalls : list FunctionCallDoc;
  geoCache : Geocoding.GeoCache;
  providerLog : list jsstring
}.

Definition emptyWorld : World :=
  {| citizen := None; states := []; functionCalls := []; geoCache := ∅;
     providerLog := [] |}.

Definition setCitizen (c : option Citizen) (w : World) : World :=
  {| citizen := c; states := states w; functionCalls := functionCalls w;
     geoCache := geoCache w; providerLog := providerLog w |}.

Definition setStates (s : States) (w : World) : World :=
  {| citizen := citizen w; states := s; functionCalls := functionCalls w;
     geoCache := geoCache w; providerLog := providerLog w |}.

Definition addFunctionCall (d : FunctionCallDoc) (w : World) : World :=
  {| citizen := citizen w; states := states w;
     functionCalls := functionCalls w ++ [d];
     geoCache := geoCache w; providerLog := providerLog w |}.

Definition setGeo (c : Geocoding.GeoCache) (issued : list jsstring)
    (w : World) : World :=
  {| citizen := citizen w; states := states w;
     functionCalls := functionCalls w;
     geoCache := c; providerLog := providerLog w ++ issued |}.

(** Store-passing computations that record the store after every write:
    a computation maps the store to its result, the final store and the
    successive stores its writes produced, oldest first. *)
Definition M (A : Type) : Type := World → A * World * list World.

#[global] Instance M_ret : MRet M := λ A a w, (a, w, []).

#[global] Instance M_bind : MBind M := λ A B f m w,
  let '(a, w1, t1) := m w in
  let '(b, w2, t2) := f a w1 in
  (b, w2, t1 ++ t2).

Definition get : M World := λ w, (w, w, []).

(** One write: the store it leaves is recorded. *)
Definition write (f : World → World) : M unit := λ w, (tt, f w, [f w]).

Definition final {A} (r : A * World * list World) : World := r.1.2.
Definition value {A} (r : A * World * list World) : A := r.1.1.
Definition trace {A} (r : A * World * list World) : list World := r.2.

(** What the collaborators answer while one message is handled. *)
Record Env := {
  now : Z;
  model : Openai.Model;
  provider : Geocoding.Provider
}.

(** The reply texts.  The canned messages are string templates; a reply
    is recorded as the template chosen and its arguments, or as the text
    obtained from a collaborator. *)
Inductive Reply :=
| WelcomeMessage (language : jsstring) (whatsappName : option jsstring)
| RegistrationCompleteMessage (language : jsstring)
    (name village : option jsstring)
| DefaultPromptForState (s : StateId) (language : jsstring)
| RetryPromptForState (s : StateId) (language : jsstring)
| Text (t : jsstring).

Record Outcome := {
  shouldContinue : bool;
  response : Reply;
  functionCallResults : option Openai.FunctionResults
}.

(** *** State manager calls, lifted to the store *)

Definition getCurrentState : M (option StateDoc) :=
  w ← get; mret (StateManager.getCurrentState (states w)).

Definition createStateRecord (now : Z) (s : StateId)
    (lang sid : option jsstring) : M StateDoc :=
  w ← get;
  let '(d, l) := StateManager.createStateRecord now s lang sid (states w) in
  write (setStates l);; mret d.

Definition updateStateWithFunctionResults (now : Z) (current : StateDoc)
    (fr : Openai.FunctionResults) : M bool :=
  w ← get;
  match StateManager.updateStateWithFunctionResults now current fr (states w)
  with
  | (true, l) => write (setStates l);; mret true
  | (false, _) => mret false
  end.

Definition storeFunctionCallResultInSubcollection (now : Z) (s : StateId)
    (fr : Openai.FunctionResults) : M bool :=
  write (addFunctionCall
           {| callState := s; callResults := fr;
              callConfidence := Openai.or_zero (Openai.resultConfidence fr);
              callTimestamp := now |});;
  mret true.

Definition completeStateTransition (now : Z) (current : StateDoc)
    (s : Snapshot) (next : StateId) : M bool :=
  w ← get;
  match StateManager.completeStateTransition now current s next (states w)
  with
  | (true, l) => write (setStates l);; mret true
  | (false, _) => mret false
  end.

Section WithRuntime.

Context {runtime : Runtime}.

(** [openaiService.processRegistrationWithFunctions].  The cache writes
    of the geocoding service are recorded as one write; a call that sent
    no query to the provider wrote nothing. *)
Definition processRegistrationWithFunctions (e : Env)
    (currentState : StateId) (language : jsstring)
  : M Openai.FunctionResults :=
  w ← get;
  let '(fr, cache, issued) :=
    Openai.processRegistrationWithFunctions (model e) (provider e) (now e)
      currentState language (geoCache w) in
  match issued with
  | [] => mret fr
  | _ :: _ => write (setGeo cache issued);; mret fr
  end.

(** *** Updating the citizen document *)

Definition setName (n : option jsstring) (c : Citizen) : Citizen :=
  {| whatsappDisplayName := whatsappDisplayName c;
     isRegistered := isRegistered c;
     userProvidedName := n;
     village := village c; coordinates := coordinates c;
     latitude := latitude c; longitude := longitude c;
     taluka := taluka c; district := district c;
     geocodingInfo := geocodingInfo c;
     registrationCompletedAt := registrationCompletedAt c;
     lastUpdated := lastUpdated c; lastActive := lastActive c |}.

Definition setVillage (v : option jsstring) (c : Citizen) : Citizen :=
  {| whatsappDisplayName := whatsappDisplayName c;
     isRegistered := isRegistered c;
     userProvidedName := userProvidedName c;
     village := v; coordinates := coordinates c;
     latitude := latitude c; longitude := longitude c;
     taluka := taluka c; district := district c;
     geocodingInfo := geocodingInfo c;
     registrationCompletedAt := registrationCompletedAt c;
     lastUpdated := lastUpdated c; lastActive := lastActive c |}.

Definition setCoordinates (k : Geocoding.Coordinates) (c : Citizen)
  : Citizen :=
  {| whatsappDisplayName := whatsappDisplayName c;
     isRegistered := isRegistered c;
     userProvidedName := userProvidedName c;
     village := village c; coordinates := Some k;
     latitude := Some (Geocoding.latitude k);
     longitude := Some (Geocoding.longitude k);
     taluka := taluka c; district := district c;
     geocodingInfo := geocodingInfo c;
     registrationCompletedAt := registrationCompletedAt c;
     lastUpdated := lastUpdated c; lastActive := lastActive c |}.

Definition setTaluka (t : option jsstring) (c : Citizen) : Citizen :=
  {| whatsappDisplayName := whatsappDisplayName c;
     isRegistered := isRegistered c;
     userProvidedName := userProvidedName c;
     village := village c; coordinates := coordinates c;
     latitude := latitude c; longitude := longitude c;
     taluka := t; district := district c;
     geocodingInfo := geocodingInfo c;
     registrationCompletedAt := registrationCompletedAt c;
     lastUpdated := lastUpdated c; lastActive := lastActive c |}.

Definition setGeocodingInfo (g : Geocoding.GeocodeSuccess) (c : Citizen)
  : Citizen :=
  {| whatsappDisplayName := whatsappDisplayName c;
     isRegistered := isRegistered c;
     userProvidedName := userProvidedName c;
     village := village c; coordinates := coordinates c;
     latitude := latitude c; longitude := longitude c;
     taluka := taluka c; district := district c;
     geocodingInfo :=
       Some {| formattedAddress := Geocoding.formattedAddress g;
               placeId := Geocoding.placeId g;
               administrative := Geocoding.administrative g;
               confidence := Geocoding.confidence g;
               geocodedAt := Geocoding.geocodedAt g |};
     registrationCompletedAt := registrationCompletedAt c;
     lastUpdated := lastUpdated c; lastActive := lastActive c |}.

Definition setLastUpdated (t : Z) (c : Citizen) : Citizen :=
  {| whatsappDisplayName := whatsappDisplayName c;
     isRegistered := isRegistered c;
     userProvidedName := userProvidedName c;
     village := village c; coordinates := coordinates c;
     latitude := latitude c; longitude := longitude c;
     taluka := taluka c; district := district c;
     geocodingInfo := geocodingInfo c;
     registrationCompletedAt := registrationCompletedAt c;
     lastUpdated := Some t; lastActive := lastActive c |}.

Definition setRegistered (t : Z) (c : Citizen) : Citizen :=
  {| whatsappDisplayName := whatsappDisplayName c;
     isRegistered := true;
     userProvidedName := userProvidedName c;
     village := village c; coordinates := coordinates c;
     latitude := latitude c; longitude := longitude c;
     taluka := taluka c; district := district c;
     geocodingInfo := geocodingInfo c;
     registrationCompletedAt := Some t;
     lastUpdated := lastUpdated c; lastActive := lastActive c |}.

Definition setProfile (displayName : option jsstring) (t : Z) (c : Citizen)
  : Citizen :=
  {| whatsappDisplayName := displayName;
     isRegistered := isRegistered c;
     userProvidedName := userProvidedName c;
     village := village c; coordinates := coordinates c;
     latitude := latitude c; longitude := longitude c;
     taluka := taluka c; district := district c;
     geocodingInfo := geocodingInfo c;
     registrationCompletedAt := registrationCompletedAt c;
     lastUpdated := lastUpdated c; lastActive := t |}.

(** [if (x) then f] for an optional value. *)
Definition whenSome {A} (o : option A) (f : A → Citizen → Citizen)
    (c : Citizen) : Citizen :=
  match o with Some a => f a c | None => c end.

(** The [updateData] object that [updateCitizenDataFromFunctions] builds
    from the [switch] on the state, as the change it makes to the
    document; [None] when the object has no key. *)
Definition updateData (s : StateId) (d : Openai.ExtractedData)
  : option (Citizen → Citizen) :=
  match s with
  | awaiting_name =>
      if truthy_opt (Openai.full_name d)
      then Some (setName (Openai.full_name d))
      else None
  | awaiting_village =>
      if truthy_opt (Openai.village_name d) then
        Some (λ c,
          let c :=
            setVillage
              (Some (or_else (Openai.validated_village d)
                             (default [] (Openai.village_name d)))) c in
          let c := whenSome (Openai.coordinates d) setCoordinates c in
          let c :=
            if truthy_opt (Openai.taluka d)
            then setTaluka (Openai.taluka d) c else c in
          whenSome (Openai.geocoding d) setGeocodingInfo c)
      else None
  | _ => None
  end.

(** Update citizen data with geocoding information.  An [update] of a
    document that does not exist throws; the error is caught and logged. *)
Definition updateCitizenDataFromFunctions (now : Z) (s : StateId)
    (d : Openai.ExtractedData) : M unit :=
  match updateData s d with
  | Some f =>
      w ← get;
      match citizen w with
      | Some c => write (setCitizen (Some (setLastUpdated now (f c))))
      | None => mret tt
      end
  | None => mret tt
  end.

(** [completeRegistration]: mark the citizen registered, then commit the
    ['completed'] state with an empty snapshot.  When the first update
    throws, the [catch] skips the transition. *)
Definition completeRegistration (now : Z) (current : StateDoc) : M unit :=
  w ← get;
  match citizen w with
  | Some c =>
      write (setCitizen (Some (setRegistered now c)));;
      completeStateTransition now current EmptyObject completed;;
      mret tt
  | None => mret tt
  end.

(** [a || b] on optional strings. *)
Definition firstTruthy (a b : option jsstring) : option jsstring :=
  if truthy_opt a then a else b.

(** [text || fallback] for a generated reply. *)
Definition textOr (t : option jsstring) (fallback : Reply) : Reply :=
  match t with
  | Some s => if truthy s then Text s else fallback
  | None => fallback
  end.

Definition sessionIdOf (whatsappNumber : jsstring) (now : Z) : jsstring :=
  whatsappNumber ++ js "_" ++ js (NilZero.string_of_int (Z.to_int now)).

(** The acceptance test of the orchestrator:
    [shouldTransition && extractedData && confidence > 0.7]. *)
Definition accepted (fr : Openai.FunctionResults) : bool :=
  Openai.shouldTransition fr
  && bool_decide (is_Some (Openai.extractedData fr))
  && Geocoding.Qlt_bool 0.7 (Openai.resultConfidence fr).

(** Simplified registration processing with geocoding. *)
Definition processRegistrationWithFunctionCalling (e : Env)
    (whatsappNumber language : jsstring) (citizenData : Citizen)
  : M Outcome :=
  found ← getCurrentState;
  currentState ←
    match found with
    | Some d => mret d
    | None =>
        createStateRecord (now e) awaiting_name (Some language)
          (Some (sessionIdOf whatsappNumber (now e)))
    end;
  if decide (stateId currentState.2 = initial) then
    (* Handle initial state *)
    completeStateTransition (now e) currentState EmptyObject awaiting_name;;
    mret {| shouldContinue := false;
            response :=
              WelcomeMessage language (whatsappDisplayName citizenData);
            functionCallResults := None |}
  else
    functionResults ←
      processRegistrationWithFunctions e (stateId currentState.2) language;
    if truthy_opt (Openai.geocodingError functionResults) then
      (* Village validation failed *)
      updateStateWithFunctionResults (now e) currentState functionResults;;
      mret {| shouldContinue := false;
              response :=
                Text (default [] (Openai.geocodingError functionResults));
              functionCallResults := Some functionResults |}
    else
      updateStateWithFunctionResults (now e) currentState functionResults;;
      storeFunctionCallResultInSubcollection (now e)
        (stateId currentState.2) functionResults;;
      let clarification :=
        {| shouldContinue := false;
           response :=
             textOr (Openai.contextual (model e))
               (RetryPromptForState (stateId currentState.2) language);
           functionCallResults := Some functionResults |} in
      (* Process based on function calling results *)
      if accepted functionResults then
        match Openai.extractedData functionResults with
        | Some extracted =>
            updateCitizenDataFromFunctions (now e) (stateId currentState.2)
              extracted;;
            if decide (Openai.nextState functionResults = completed) then
              (* Handle registration completion *)
              completeRegistration (now e) currentState;;
              mret {| shouldContinue := true;
                      response :=
                        RegistrationCompleteMessage language
                          (firstTruthy (userProvidedName citizenData)
                                       (whatsappDisplayName citizenData))
                          (firstTruthy (Openai.validated_village extracted)
                                       (Openai.village_name extracted));
                      functionCallResults := Some functionResults |}
            else
              (* Normal state transition *)
              completeStateTransition (now e) currentState
                (Payload extracted) (Openai.nextState functionResults);;
              mret {| shouldContinue := false;
                      response :=
                        textOr (Openai.contextual (model e))
                          (DefaultPromptForState
                             (Openai.nextState functionResults) language);
                      functionCallResults := Some functionResults |}
        | None => mret clarification (* excluded by the test *)
        end
      else
        (* user didn't provide required data or confidence too low *)
        mret clarification.

Definition newCitizen (displayName : option jsstring) (now : Z) : Citizen :=
  {| whatsappDisplayName := displayName;
     isRegistered := false;
     userProvidedName := None;
     village := None; coordinates := None;
     latitude := None; longitude := None;
     taluka := None; district := js "Pune";
     geocodingInfo := None;
     registrationCompletedAt := None;
     lastUpdated := None; lastActive := now |}.

(** Get or create citizen.  A new citizen gets the ['initial'] state. *)
Definition getOrCreateCitizen (now : Z) (whatsappNumber : jsstring)
    (displayName : option jsstring) : M Citizen :=
  w ← get;
  match citizen w with
  | Some c =>
      let c' :=
        setProfile
          (if truthy_opt displayName then displayName
           else whatsappDisplayName c) now c in
      write (setCitizen (Some c'));; mret c'
  | None =>
      let c := newCitizen displayName now in
      write (setCitizen (Some c));;
      createStateRecord now initial None
        (Some (sessionIdOf whatsappNumber now));;
      mret c
  end.

(** The part of [processMessage] of the webhook controller that drives
    the registration: load the citizen and, unless the citizen is
    registered, run the registration on the message. *)
Definition processMessage (e : Env) (whatsappNumber language : jsstring)
    (displayName : option jsstring) : M (option Outcome) :=
  citizenData ← getOrCreateCitizen (now e) whatsappNumber displayName;
  if isRegistered citizenData then mret None
  else
    o ← processRegistrationWithFunctionCalling e whatsappNumber language
          citizenData;
    mret (Some o).

End WithRuntime.

End CitizenService.

(** ** Statements of the specification, in its own words *)

Module Spec.

Import Geocoding.

Section WithRuntime.

Context {runtime : Runtime}.

Definition sumZ {A} (f : A → Z) (l : list A) : Z :=
  foldr (λ a acc, f a + acc) 0 l.

(** "case-insensitively equals", for strings of Basic Latin: unit by unit
    the same, or a capital letter [A]..[Z] and its small letter. *)
Definition sameLetter (x y : N) : Prop :=
  (x = y ∨ (65 ≤ x ≤ 90 ∧ y = x + 32) ∨ (65 ≤ y ≤ 90 ∧ x = y + 32))%N.

Definition equalsIgnoringCase (a b : jsstring) : Prop := Forall2 sameLetter a b.

(** "+100 per address component that case-insensitively equals the
    queried name, else +50 if the component contains it as a substring" *)
Definition nameBonus (query : jsstring) (c : AddressComponent) : Z :=
  let q := toLowerCase query in
  if jseqb (toLowerCase (long_name c)) q || jseqb (toLowerCase (short_name c)) q
  then 100
  else if includes (toLowerCase (long_name c)) q
          || includes (toLowerCase (short_name c)) q
  then 50
  else 0.

(** "+30 if a second-level administrative component matches the Pune
    district" *)
Definition districtBonus (c : AddressComponent) : Z :=
  if arrayIncludes (types c) (js "administrative_area_level_2")
     && includes (toLowerCase (long_name c)) (js "pune")
  then 30 else 0.

(** "+20 if a first-level administrative component matches Maharashtra" *)
Definition regionBonus (c : AddressComponent) : Z :=
  if arrayIncludes (types c) (js "administrative_area_level_1")
     && includes (toLowerCase (long_name c)) (js "maharashtra")
  then 20 else 0.

(** "+25 if the formatted address contains the query" *)
Definition addressBonus (query : jsstring) (r : ProviderResult) : Z :=
  if includes (toLowerCase (formatted_address r)) (toLowerCase query)
  then 25 else 0.

(** "a precision-tier bonus of +5 (approximate), +10 (geometric center),
    +15 (interpolated), or +20 (exact/rooftop)" *)
Definition tierBonus (r : ProviderResult) : Z :=
  let t := location_type (geometry r) in
  if jseqb t (js "APPROXIMATE") then 5
  else if jseqb t (js "GEOMETRIC_CENTER") then 10
  else if jseqb t (js "RANGE_INTERPOLATED") then 15
  else if jseqb t (js "ROOFTOP") then 20
  else 0.

(** The weighted sum of the specification. *)
Definition weightedScore (r : ProviderResult) (query : jsstring) : Z :=
  sumZ (nameBonus query) (address_components r)
  + sumZ districtBonus (address_components r)
  + sumZ regionBonus (address_components r)
  + addressBonus query r
  + tierBonus r.

(** The candidates of a lookup: the first result of every query template
    that the provider answered with status [OK], in template order. *)
Definition candidateOf (provider : Provider) (language query : jsstring)
  : list ProviderResult :=
  match provider query (if isMarathi language then js "hi" else js "en") with
  | ProviderResponse status (r :: _) =>
      if jseqb status (js "OK") then [r] else []
  | _ => []
  end.

Definition candidatesOf (provider : Provider) (language : jsstring)
    (queries : list jsstring) : list ProviderResult :=
  queries ≫= candidateOf provider language.

Definition candidates (provider : Provider) (language name : jsstring)
  : list ProviderResult :=
  candidatesOf provider language (searchQueries name).

(** Every result stored in the cache is a success within the boundary. *)
Definition inBoundary (g : GeocodeSuccess) : bool :=
  isLocationInPuneZP {| lat := latitude (coordinates g);
                        lng := longitude (coordinates g) |}.

Definition cacheWithinBoundary (cache : GeoCache) : Prop :=
  ∀ k d, cache !! k = Some d →
         ∃ g, result d = Success g ∧ inBoundary g = true.

End WithRuntime.

End Spec.

(** ** Predicates and auxiliary definitions of the proofs *)

Module Logic.

Import Geocoding StateManager CitizenService.

Section WithRuntime.

Context {runtime : Runtime}.

(** [wp m w Q T]: run from the store [w], the computation [m] ends with a
    result and a store that satisfy [Q], and every store its writes
    produce on the way satisfies [T]. *)
Definition wp {A} (m : M A) (w : World) (Q : A → World → Prop)
    (T : World → Prop) : Prop :=
  Q (value (m w)) (final (m w)) ∧ Forall T (trace (m w)).

(** The citizen document after [updateCitizenDataFromFunctions]. *)
Definition updated (now : Z) (s : StateId) (d : Openai.ExtractedData)
    (c : Citizen) : Citizen :=
  match updateData s d with
  | Some f => setLastUpdated now (f c)
  | None => c
  end.

(** The shapes of the [states] collection while a message is handled:
    the documents [l] that were there before the current one, followed by
    one active document, or by an inactive and an active one. *)
Definition tailShape (l st : States) : Prop :=
  (∃ a, st = l ++ [a] ∧ isActive a = true)
  ∨ (∃ x y, st = l ++ [x; y] ∧ isActive x = false ∧ isActive y = true).

(** What handling one message leaves, by the path taken: [c], [l] and
    [a] are the citizen document, the earlier state documents and the
    current state document before the message, [fr] is the result of
    [processRegistrationWithFunctions]. *)
Definition handled (now : Z) (c : Citizen) (l : States) (a : StateRecord)
    (calls : list FunctionCallDoc) (fr : Openai.FunctionResults)
    (o : Outcome) (wf : World) : Prop :=
  let a1 := withFunctionResults now fr a in
  if decide (stateId a = initial) then
    citizen wf = Some c
    ∧ states wf = l ++ [deactivated now EmptyObject a;
                        nextStateData now a EmptyObject awaiting_name]
  else if truthy_opt (Openai.geocodingError fr) then
    citizen wf = Some c ∧ states wf = l ++ [a1]
    ∧ functionCalls wf = calls
    ∧ o = {| shouldContinue := false;
             response := Text (default [] (Openai.geocodingError fr));
             functionCallResults := Some fr |}
  else if accepted fr then
    ∃ d, Openai.extractedData fr = Some d ∧
      if decide (Openai.nextState fr = completed) then
        citizen wf = Some (setRegistered now (updated now (stateId a) d c))
        ∧ states wf = l ++ [deactivated now EmptyObject a1;
                            nextStateData now a EmptyObject completed]
      else
        citizen wf = Some (updated now (stateId a) d c)
        ∧ states wf = l ++ [deactivated now (Payload d) a1;
                            nextStateData now a (Payload d)
                              (Openai.nextState fr)]
  else
    citizen wf = Some c ∧ states wf = l ++ [a1].

(** A store for a citizen who has not written yet. *)
Definition fresh (w : World) : Prop := citizen w = None ∧ states w = [].

(** The citizen document exists, and the [states] collection ends with
    its only active document. *)
Definition wellFormed (w : World) : Prop :=
  ∃ c l a, citizen w = Some c ∧ states w = l ++ [a] ∧ isActive a = true
           ∧ Forall (λ r, isActive r = false) l.

(** The stores at message boundaries: a fresh store, and the store any
    message leaves.  [P s e] is what is assumed of the collaborators'
    answers [e] to a message that arrives in state [s]. *)
Inductive settled (P : StateId → Env → Prop) : World → Prop :=
| settled_fresh w : fresh w → settled P w
| settled_message w e number language displayName :
    settled P w →
    (∀ d, StateManager.getCurrentState (states w) = Some d →
          P (stateId d.2) e) →
    settled P (final (processMessage e number language displayName w)).

(** The stores at any time: at a message boundary, or after one of the
    writes made while a message is handled. *)
Inductive observed (P : StateId → Env → Prop) : World → Prop :=
| observed_settled w : settled P w → observed P w
| observed_during w e number language displayName w' :
    settled P w →
    (∀ d, StateManager.getCurrentState (states w) = Some d →
          P (stateId d.2) e) →
    w' ∈ trace (processMessage e number language displayName w) →
    observed P w'.

Definition anyAnswer : StateId → Env → Prop := λ _ _, True.

(** The citizen document [c], the earlier state documents [l] and the
    current state document [a] that the registration finds when a
    message arrives in store [w]: those [getOrCreateCitizen] creates for
    a new citizen, or those of the store. *)
Definition arrives (e : Env) (number : jsstring)
    (displayName : option jsstring) (w : World) (c : Citizen) (l : States)
    (a : StateRecord) : Prop :=
  (citizen w = None ∧ states w = []
   ∧ c = newCitizen displayName (now e) ∧ l = []
   ∧ a = (StateManager.createStateRecord (now e) initial None
            (Some (sessionIdOf number (now e))) []).1.2)
  ∨ (∃ c0, citizen w = Some c0 ∧ states w = l ++ [a]
      ∧ c = setProfile (if truthy_opt displayName then displayName
                        else whatsappDisplayName c0) (now e) c0).

(** What [processMessage] leaves. *)
Definition afterMessage (e : Env) (number language : jsstring)
    (displayName : option jsstring) (w : World) (o : option Outcome)
    (wf : World) : Prop :=
  ∃ c l a,
    arrives e number displayName w c l a
    ∧ isActive a = true ∧ Forall (λ r, isActive r = false) l
    ∧ if isRegistered c then
        o = None ∧ citizen wf = Some c ∧ states wf = l ++ [a]
      else
        ∃ o' fr cache issued,
          o = Some o'
          ∧ Openai.processRegistrationWithFunctions (model e) (provider e)
              (now e) (stateId a) language (geoCache w)
            = (fr, cache, issued)
          ∧ handled (now e) c l a (functionCalls w) fr o' wf.

Definition oneActive (w : World) : Prop :=
  (activeCount (states w) ≤ 1)%nat.

(** The classifier's own verdict: it reports the required data with a
    confidence above 0.7. *)
Definition classifierAccepts (m : Openai.Model) : bool :=
  match Openai.analysis m with
  | Some (Some sa) =>
      Openai.has_required_data sa && Qlt_bool 0.7 (Openai.confidence sa)
  | _ => false
  end.

(** "nextState must be one of the fixed successor states of
    currentState": when the classifier reports the required data, the
    state it recommends is in the [nextStates] of the current state. *)
Definition followsGraph (s : StateId) (e : Env) : Prop :=
  ∀ sa, Openai.analysis (model e) = Some (Some sa) →
        Openai.has_required_data sa = true →
        Openai.next_state sa ∈ nextStates (REGISTRATION_STATES s).

(** Every extraction the model returns carries a non-empty field. *)
Definition extractsText (e : Env) : Prop :=
  (∀ n q, Openai.extract_user_name (model e) = Some (n, q) → truthy n = true)
  ∧ (∀ v q g, Openai.extract_village_info (model e) = Some (v, q, g) →
              truthy v = true).

Definition wellBehaved (s : StateId) (e : Env) : Prop :=
  followsGraph s e ∧ extractsText e.

(** The citizen document that goes with a current state. *)
Definition progress (s : StateId) (c : Citizen) : Prop :=
  match s with
  | initial | awaiting_name =>
      userProvidedName c = None ∧ village c = None ∧ isRegistered c = false
  | awaiting_village =>
      is_Some (userProvidedName c) ∧ village c = None
      ∧ isRegistered c = false
  | completed =>
      is_Some (userProvidedName c) ∧ is_Some (village c)
      ∧ isRegistered c = true
  end.

(** Position of a state in the fixed sequence. *)
Definition rank (s : StateId) : nat :=
  match s with
  | initial => 0 | awaiting_name => 1 | awaiting_village => 2
  | completed => 3
  end.

(** The documents of a collection sit at the positions of their states in
    the fixed sequence. *)
Definition ranked (l : States) : Prop :=
  (rank ∘ stateId) <$> l = seq 0 (length l).

(** The cache document that the key of a name names, if it names one. *)
Definition cachedUnder (name : jsstring) (cache : GeoCache) : option CacheDoc :=
  documentId (cacheKey name) ≫= λ id, cache !! id.

(** The update of [bestResult] and [highestScore] by one candidate. *)
Definition keep (name : jsstring) (b : Best) (r : ProviderResult) : Best :=
  if b.2 <? calculateRelevanceScore r name
  then (Some r, calculateRelevanceScore r name) else b.

End WithRuntime.

End Logic.

(** ** Concrete places, answers and conversations *)

Module Sample.

Import Geocoding StateManager CitizenService Logic Openai.

(** The runtime of the examples, which are written in Basic Latin:
    [toLowerCase] folds Basic Latin and Latin-1 and keeps every other
    unit, and a key names a document when it is a path of an odd number of
    segments, none of them empty (so not the empty key, and not a key with
    a single [/]). *)
Definition isDocumentPath (key : jsstring) : bool :=
  let segments := split (js "/") key in
  forallb truthy segments && Nat.odd (length segments).

Definition plain : Runtime :=
  {| toLowerCase := fmap lowerUnit;
     documentId := λ key, if isDocumentPath key then Some key else None |}.

#[local] Existing Instance plain.

Definition component (long short : string) (ty : list string)
  : AddressComponent :=
  {| long_name := js long; short_name := js short; types := js <$> ty |}.

Definition place (address : string) (cs : list AddressComponent)
    (l : option Location) (precision : string) : ProviderResult :=
  {| formatted_address := js address;
     address_components := cs;
     geometry := {| location := l; location_type := js precision;
                    geometry_bounds := None |};
     place_id := js "place" |}.

Definition saswad : ProviderResult :=
  place "Saswad, Maharashtra 412301, India"
    [component "Saswad" "Saswad" ["locality"; "political"];
     component "Purandar" "Purandar" ["administrative_area_level_3"; "political"];
     component "Pune" "Pune" ["administrative_area_level_2"; "political"];
     component "Maharashtra" "MH" ["administrative_area_level_1"; "political"];
     component "India" "IN" ["country"; "political"]]
    (Some {| lat := 18.3434; lng := 74.0310 |}) "APPROXIMATE".

Definition mumbai : ProviderResult :=
  place "Mumbai, Maharashtra, India"
    [component "Mumbai" "Mumbai" ["locality"; "political"];
     component "Maharashtra" "MH" ["administrative_area_level_1"; "political"]]
    (Some {| lat := 19.0760; lng := 72.8777 |}) "APPROXIMATE".

Definition nimgaon : ProviderResult :=
  place "Nimgaon, India" []
    (Some {| lat := 18.6; lng := 74.2 |}) "APPROXIMATE".

Definition answer (query : jsstring) (key : string) (r : ProviderResult)
    (otherwise : ProviderReply) : ProviderReply :=
  if startsWith (js key) query then ProviderResponse (js "OK") [r]
  else otherwise.

Definition atlas : Provider := λ query _,
  answer query "Saswad" saswad
    (answer query "Mumbai" mumbai
       (answer query "Nimgaon" nimgaon
          (ProviderResponse (js "ZERO_RESULTS") []))).

Definition unreachable : Provider := λ _ _, ProviderError.

Definition failureOf (r : GeocodeResult) : GeocodeFailure :=
  match r with
  | Failure f => f
  | Success _ =>
      {| error := []; failLocation := None; failAddress := None;
         message := [] |}
  end.

Definition number : jsstring := js "919876543210".
Definition en : jsstring := js "en".

Definition verdict (s next : StateId) (c : Q) : StateAnalysis :=
  {| current_state := s; user_intent := js "providing_info";
     has_required_data := true; next_state := next; confidence := c;
     reason := js "the message carries the data" |}.

Definition says (t : Z) (sa : option StateAnalysis)
    (name : option (jsstring * Q)) (village : option (jsstring * Q * bool))
  : Env :=
  {| now := t;
     model := {| analysis := Some sa; extract_user_name := name;
                 extract_village_info := village; contextual := None |};
     provider := atlas |}.

Definition hello : Env := says 1000 None None None.

Definition ramesh : Env :=
  says 2000 (Some (verdict awaiting_name awaiting_village 0.9))
    (Some (js "Ramesh Patil", 0.95%Q)) None.

Definition unsure : Env :=
  says 2500 (Some (verdict awaiting_village completed 0.5))
    None (Some (js "Saswad", 0.9%Q, true)).

Definition fromSaswad : Env :=
  says 3000 (Some (verdict awaiting_village completed 0.9))
    None (Some (js "Saswad", 0.9%Q, true)).

Definition fromMumbai : Env :=
  says 3000 (Some (verdict awaiting_village completed 0.9))
    None (Some (js "Mumbai", 0.9%Q, true)).

Definition fromNimgaon : Env :=
  says 3000 (Some (verdict awaiting_village completed 0.9))
    None (Some (js "Nimgaon", 0.9%Q, true)).

(** In [awaiting_name] the classifier recommends ['completed']. *)
Definition rameshDone : Env :=
  says 2000 (Some (verdict awaiting_name completed 0.9))
    (Some (js "Ramesh Patil", 0.95%Q)) None.

(** The extractor returns an empty village name. *)
Definition blank : Env :=
  says 3000 (Some (verdict awaiting_village completed 0.9))
    None (Some ([], 0.9%Q, false)).

Definition deliver (w : World) (e : Env) : World :=
  final (processMessage e number en None w).

Definition conversation (es : list Env) : World := foldl deliver emptyWorld es.

Definition citizenOf (w : World) : Citizen :=
  default (newCitizen None 0) (citizen w).

Definition earlier (w : World) : States :=
  take (length (states w) - 1) (states w).

Definition current (w : World) : StateRecord :=
  default (StateManager.createStateRecord 0 initial None None []).1.2
          (last (states w)).

(** The state-manager calls of two handlers of one citizen that
    interleave at their [await]s: both read the current state before
    either commits its transition.  (In the ['initial'] state these are
    all the calls [processRegistrationWithFunctionCalling] makes:
    [getCurrentState], then [completeStateTransition] with the empty
    object to ['awaiting_name'].) *)
Definition overlapping (t1 t2 : Z) (s1 s2 : Snapshot) (next1 next2 : StateId)
  : M (bool * bool) :=
  first ← CitizenService.getCurrentState;
  second ← CitizenService.getCurrentState;
  match first, second with
  | Some d1, Some d2 =>
      a ← CitizenService.completeStateTransition t1 d1 s1 next1;
      b ← CitizenService.completeStateTransition t2 d2 s2 next2;
      mret (a, b)
  | _, _ => mret (false, false)
  end.

(** A message of two words, the second of 4097 letters. *)
Definition longWord : jsstring := js "a " ++ replicate 4097 98%N.

End Sample.

(** ** Auxiliary definitions for the messaging service *)

Module Traffic.

Import Whatsapp.

(** Successive calls of [checkRateLimit] at the given instants. *)
Fixpoint checkRateLimits (times : list Z) (messageType : jsstring)
    (metrics : Metrics) : list bool * Metrics :=
  match times with
  | [] => ([], metrics)
  | now :: rest =>
      let '(allowed, metrics) := checkRateLimit now messageType metrics in
      let '(verdicts, metrics) := checkRateLimits rest messageType metrics in
      (allowed :: verdicts, metrics)
  end.

(** The length of the longest run of units other than the space: [run] is
    the length of the run being read, [best] the longest run read. *)
Fixpoint longestWordAux (run best : nat) (s : jsstring) : nat :=
  match s with
  | [] => run `max` best
  | c :: s' =>
      if (c =? 32)%N then longestWordAux 0 (run `max` best) s'
      else longestWordAux (S run) best s'
  end.

Definition longestWord (s : jsstring) : nat := longestWordAux 0 0 s.

(** The parts of a split message: the bodies, numbered when there are
    several. *)
Definition numbered (bodies : list jsstring) : list jsstring :=
  if (1 <? length bodies)%nat
  then imap (withIndicator (length bodies)) bodies
  else bodies.

(** [p] occurs in [s]. *)
Definition within (p s : jsstring) : Prop := ∃ a b, s = a ++ p ++ b.

Definition fits (s : jsstring) : Prop := jslen s ≤ MAX_LENGTH.

(** The invariant of the three loops of [splitLongMessage]. *)
Definition bounded (a : Acc) : Prop := Forall fits a.1 ∧ fits a.2.

(** A message of 8100 units in words of eight letters. *)
Definition chatter : jsstring := mjoin (replicate 900 (js "namaskar ")).

(** The text counter two messages short of its limit, in a window that
    ends at instant 5000. *)
Definition quota : Metrics :=
  {[ js "textRateLimit" := {| messageCount := 998; resetTime := 5000;
                              limitedType := js "text" |} ]}.

Ltac cases_N :=
  repeat match goal with
  | |- context [(?a <=? ?b)%N] => destruct (N.leb_spec a b); try lia
  | |- context [(?a =? ?b)%N] => destruct (N.eqb_spec a b); try lia
  end; cbn [andb orb negb]; try done; try lia.

Ltac listed :=
  by repeat first [apply list_elem_of_here | apply list_elem_of_further].

Ltac unlisted H :=
  repeat (apply elem_of_cons in H as [H|H]; [discriminate|]);
  by apply elem_of_nil in H.

End Traffic.

(** ** Auxiliary definitions for the orchestrator *)

Module Ledger.

Import StateManager CitizenService.

Section WithRuntime.

Context {runtime : Runtime}.

(** The document [storeFunctionCallResultInSubcollection] adds. *)
Definition callDoc (now : Z) (s : StateId) (fr : Openai.FunctionResults)
  : FunctionCallDoc :=
  {| callState := s; callResults := fr;
     callConfidence := Openai.or_zero (Openai.resultConfidence fr);
     callTimestamp := now |}.

(** The parts of the store that the state documents do not cover. *)
Definition sameLedger (w w' : World) : Prop :=
  functionCalls w' = functionCalls w ∧ geoCache w' = geoCache w
  ∧ providerLog w' = providerLog w.

(** What the registration answers and records for a message that arrives
    in store [w] with current state document [a]; [fr], [cache] and
    [issued] are the result of [processRegistrationWithFunctions]. *)
Definition answered (now : Z) (w : World) (a : StateRecord)
    (fr : Openai.FunctionResults) (cache : Geocoding.GeoCache)
    (issued : list jsstring) (o : Outcome) (wf : World) : Prop :=
  if decide (stateId a = initial) then
    shouldContinue o = false ∧ functionCallResults o = None
    ∧ sameLedger w wf
  else
    functionCallResults o = Some fr
    ∧ geoCache wf = cache
    ∧ providerLog wf = providerLog w ++ issued
    ∧ shouldContinue o
      = negb (truthy_opt (Openai.geocodingError fr)) && accepted fr
        && bool_decide (Openai.nextState fr = completed)
    ∧ functionCalls wf
      = functionCalls w
        ++ if truthy_opt (Openai.geocodingError fr) then []
           else [callDoc now (stateId a) fr].

(** What [processMessage] answers and records. *)
Definition replied (e : Env) (language : jsstring) (w : World)
    (o : option Outcome) (wf : World) : Prop :=
  let s :=
    from_option (λ d : StateDoc, stateId d.2) initial
      (StateManager.getCurrentState (states w)) in
  match o with
  | None =>
      (isRegistered <$> citizen w) = Some true ∧ sameLedger w wf
      ∧ states wf = states w
  | Some o' =>
      (isRegistered <$> citizen w) ≠ Some true
      ∧ ∃ a fr cache issued,
          stateId a = s
          ∧ Openai.processRegistrationWithFunctions (model e) (provider e)
              (now e) s language (geoCache w) = (fr, cache, issued)
          ∧ answered (now e) w a fr cache issued o' wf
  end.

(** The citizen is registered exactly when the current state is
    [completed]. *)
Definition consistent (w : World) : Prop :=
  ∃ c l a, citizen w = Some c ∧ states w = l ++ [a] ∧ isActive a = true
           ∧ Forall (λ r, isActive r = false) l
           ∧ (isRegistered c = true ↔ stateId a = completed).

End WithRuntime.

End Ledger.

Import Whatsapp Geocoding Spec StateManager CitizenService Logic Sample.

(** * Properties *)

Section Claims.

Context {runtime : Runtime}.

(** ** Splitting long messages *)

Lemma splitLongMessage_short (m : jsstring) :
  jslen m ≤ MAX_LENGTH → splitLongMessage m = [m].
Proof.
  intros H. unfold splitLongMessage.
  destruct (Z.leb_spec (jslen m) MAX_LENGTH); [done | lia].
Qed.

(** Claim C10: a message of at most 4000 units comes back unsplit (see
    [splitLongMessage_short]), but the parts of a longer message are not all
    within the 4096 units of WhatsApp.  The two-word message
    [Sample.longWord] has 4099 units; its second word, of 4097 letters, is
    assigned to [currentPart] whole, pushed untrimmed and unsplit, and with
    its part indicator it makes a part of 4108 units. *)
Theorem splitLongMessage_overlong_part :
  jslen longWord = 4099
  ∧ jslen <$> splitLongMessage longWord = [12; 4108]
  ∧ Exists (λ part, 4096 < jslen part) (splitLongMessage longWord).
Proof.
  assert (jslen <$> splitLongMessage longWord = [12; 4108]) as H
    by (vm_compute; reflexivity).
  split; [vm_compute; reflexivity|]. split; [done|].
  apply Exists_exists.
  destruct (splitLongMessage longWord) as [|p1 [|p2 [|p3 rest]]];
    simplify_eq/=.
  exists p2. split; [apply list_elem_of_further, list_elem_of_here|lia].
Qed.

(** ** The relevance score *)

Lemma componentStep_sum q score c :
  componentStep (toLowerCase q) score c
  = score + nameBonus q c + districtBonus c + regionBonus c.
Proof.
  unfold componentStep, nameBonus, districtBonus, regionBonus.
  repeat case_match; lia.
Qed.

Lemma foldl_componentStep q l score :
  foldl (componentStep (toLowerCase q)) score l
  = score + sumZ (nameBonus q) l + sumZ districtBonus l + sumZ regionBonus l.
Proof.
  revert score. induction l as [|c l IH]; intros score; simpl; [lia|].
  rewrite IH, componentStep_sum. lia.
Qed.

Lemma locationTypeBonus_tier r :
  locationTypeBonus (location_type (geometry r)) = tierBonus r.
Proof.
  unfold locationTypeBonus, tierBonus, jseqb.
  repeat case_bool_decide; try reflexivity;
    repeat match goal with H : _ = js _ |- _ => rewrite H in * end;
    try discriminate.
Qed.

Lemma calculateRelevanceScore_weighted r q :
  calculateRelevanceScore r q = weightedScore r q.
Proof.
  unfold calculateRelevanceScore, weightedScore, addressBonus.
  rewrite foldl_componentStep, locationTypeBonus_tier.
  case_match; lia.
Qed.

Lemma queryStep_keep provider language name b q :
  queryStep provider language name b q
  = foldl (keep name) b (candidateOf provider language q).
Proof.
  unfold queryStep, candidateOf.
  destruct (provider q _) as [|status [|r rs]]; simpl; try done.
  - by destruct (jseqb status _).
  - destruct (jseqb status _); simpl; [|done]. reflexivity.
Qed.

Lemma foldl_queryStep provider language name qs b :
  foldl (queryStep provider language name) b qs
  = foldl (keep name) b (candidatesOf provider language qs).
Proof.
  revert b. induction qs as [|q qs IH]; intros b; [done|].
  unfold candidatesOf. simpl. rewrite foldl_app, <- queryStep_keep. apply IH.
Qed.

Lemma searchLoop_candidates provider language name :
  searchLoop provider language name
  = foldl (keep name) (None, 0) (candidates provider language name).
Proof. apply foldl_queryStep. Qed.

Lemma foldl_keep name l b h :
  let out := foldl (keep name) (b, h) l in
  h ≤ out.2
  ∧ Forall (λ c, calculateRelevanceScore c name ≤ out.2) l
  ∧ (out = (b, h)
     ∨ ∃ r, out.1 = Some r ∧ r ∈ l ∧ out.2 = calculateRelevanceScore r name).
Proof.
  revert b h. induction l as [|c l IH]; intros b h; simpl.
  - split; [lia|]. split; [constructor|]. by left.
  - destruct (Z.ltb_spec h (calculateRelevanceScore c name)) as [Hlt|Hge].
    + assert (keep name (b, h) c = (Some c, calculateRelevanceScore c name))
        as -> by (unfold keep; simpl; case_match; [done|lia]).
      destruct (IH (Some c) (calculateRelevanceScore c name))
        as (Hle & Hall & Hcase).
      split; [lia|]. split; [constructor; [lia|done]|].
      right. destruct Hcase as [Heq | (r & ? & ? & ?)].
      * exists c. rewrite Heq. simpl. split; [done|]. split; [left|done].
      * exists r. split; [done|]. split; [by right|done].
    + assert (keep name (b, h) c = (b, h))
        as -> by (unfold keep; simpl; case_match; [lia|done]).
      destruct (IH b h) as (Hle & Hall & Hcase).
      split; [lia|]. split; [constructor; [lia|done]|].
      destruct Hcase as [Heq | (r & ? & ? & ?)]; [by left|].
      right. exists r. split; [done|]. split; [by right|done].
Qed.

Lemma lowerUnit_sameLetter x y :
  (x < 128)%N → (y < 128)%N → lowerUnit x = lowerUnit y ↔ sameLetter x y.
Proof.
  intros Hx Hy. unfold sameLetter, lowerUnit.
  destruct (N.leb_spec 65 x), (N.leb_spec x 90), (N.leb_spec 192 x),
    (N.leb_spec 65 y), (N.leb_spec y 90), (N.leb_spec 192 y);
    cbn [andb]; lia.
Qed.

Lemma fold_equalsIgnoringCase a b :
  basicLatin a → basicLatin b →
  lowerUnit <$> a = lowerUnit <$> b ↔ equalsIgnoringCase a b.
Proof.
  unfold basicLatin, equalsIgnoringCase. intros Ha. revert b.
  induction Ha as [|x a Hx Ha IH]; intros [|y b] Hb.
  - split; [constructor|done].
  - split; [done|]. by intros ?%Forall2_nil_cons_inv.
  - split; [done|]. by intros ?%Forall2_cons_nil_inv.
  - apply Forall_cons in Hb as [Hy Hb]. cbn [fmap list_fmap].
    rewrite Forall2_cons, <- (IH b Hb), <- (lowerUnit_sameLetter x y Hx Hy).
    split; [by intros [= -> ->]|by intros [-> ->]].
Qed.

Lemma geocodeVillage_best provider now name language cache cache0 :
  getCachedGeocode now name cache = (None, cache0) →
  let all := candidates provider language name in
  let score c := calculateRelevanceScore c name in
  let out := (geocodeVillage provider now name language cache).1.1 in
  (Forall (λ c, score c ≤ 0) all ∧ out = notFound language)
  ∨ ∃ best,
      best ∈ all ∧ Forall (λ c, score c ≤ score best) all
      ∧ match location (geometry best) with
        | None => out = serviceError language
        | Some l =>
            if isLocationInPuneZP l
            then out = Success (geocodeResultOf now name best l (score best))
            else out = outOfBoundary language l (formatted_address best)
        end.
Proof.
  intros Hmiss all score. unfold geocodeVillage. rewrite Hmiss.
  rewrite searchLoop_candidates. fold all.
  destruct (foldl_keep name all None 0) as (Hle & Hall & Hcase).
  destruct (foldl (keep name) (None, 0) all) as [[best|] highest];
    cbn [fst snd] in *.
  - right. destruct Hcase as [?|(r & [= <-] & Hin & ->)]; [done|].
    exists best. split; [done|]. split; [done|].
    destruct (location (geometry best)) as [l|]; [|done].
    by destruct (isLocationInPuneZP l).
  - left. destruct Hcase as [[= ->]|(r & ? & _)]; done.
Qed.

(** Claim C9: [calculateRelevanceScore] is the weighted sum of the
    specification ([Spec.weightedScore]: every bonus counted once per
    matching component, plus the address bonus and the precision bonus); the
    search loop of [geocodeVillage] keeps a candidate with the highest score
    among the candidates of all query templates, and keeps none only when no
    candidate scores above zero; and the outcome of a [geocodeVillage] that
    is not answered from the cache is built from that candidate: a success
    carries its score, address, place, coordinates and administrative
    details, and a failure other than ['Village not found'] is about it.
    On a runtime whose [toLowerCase] folds Basic Latin unit by unit, a
    component of Basic Latin earns the 100 points exactly when its long or
    short name equals the query up to the case of the letters [A]..[Z]. *)
Theorem relevance_score_and_best_candidate :
  (∀ r query, calculateRelevanceScore r query = weightedScore r query)
  ∧ (∀ provider language name,
       let all := candidates provider language name in
       match searchLoop provider language name with
       | (Some best, highest) =>
           best ∈ all ∧ highest = calculateRelevanceScore best name
           ∧ Forall (λ c, calculateRelevanceScore c name
                           ≤ calculateRelevanceScore best name) all
       | (None, highest) =>
           highest = 0 ∧ Forall (λ c, calculateRelevanceScore c name ≤ 0) all
       end)
  ∧ (∀ provider now name language cache,
       let all := candidates provider language name in
       let score c := calculateRelevanceScore c name in
       let out := geocodeVillage provider now name language cache in
       match getCachedGeocode now name cache with
       | (Some cached, _) => out.1.1 = cached ∧ out.2 = []
       | (None, _) =>
           match out.1.1 with
           | Success g =>
               ∃ best l,
                 best ∈ all ∧ Forall (λ c, score c ≤ score best) all
                 ∧ location (geometry best) = Some l
                 ∧ Geocoding.confidence g = score best
                 ∧ Geocoding.formattedAddress g = formatted_address best
                 ∧ Geocoding.placeId g = place_id best
                 ∧ Geocoding.coordinates g
                   = {| Geocoding.latitude := lat l;
                        Geocoding.longitude := lng l |}
                 ∧ Geocoding.administrative g
                   = extractAdministrativeDetails best
           | Failure f =>
               (Forall (λ c, score c ≤ 0) all
                ∧ error f = js "Village not found")
               ∨ ∃ best,
                   best ∈ all ∧ Forall (λ c, score c ≤ score best) all
                   ∧ failLocation f = location (geometry best)
                   ∧ (failAddress f = Some (formatted_address best)
                      ∨ location (geometry best) = None)
           end
       end)
  ∧ (∀ query c,
       (∀ s, basicLatin s → toLowerCase s = lowerUnit <$> s) →
       basicLatin query → basicLatin (long_name c) →
       basicLatin (short_name c) →
       nameBonus query c = 100
       ↔ equalsIgnoringCase (long_name c) query
         ∨ equalsIgnoringCase (short_name c) query).
Proof.
  split; [apply calculateRelevanceScore_weighted|]. split; [|split].
  - intros provider language name all.
    rewrite searchLoop_candidates. fold all.
    destruct (foldl_keep name all None 0) as (Hle & Hall & Hcase).
    destruct (foldl (keep name) (None, 0) all) as [[best|] highest]; simpl in *.
    + destruct Hcase as [?|(r & [= <-] & ? & ->)]; [done|]. done.
    + destruct Hcase as [[= ->]|(r & ? & _)]; done.
  - intros provider now name language cache all score out.
    destruct (getCachedGeocode now name cache) as [[cached|] cache0] eqn:Hc.
    { subst out. unfold geocodeVillage. by rewrite Hc. }
    destruct (geocodeVillage_best provider now name language cache cache0 Hc)
      as [[Hall Hout]|(best & Hin & Hmax & Hout)]; fold out in Hout.
    { rewrite Hout. left. done. }
    destruct (location (geometry best)) as [l|] eqn:Hl.
    + destruct (isLocationInPuneZP l); rewrite Hout.
      * exists best, l. by rewrite Hl.
      * right. exists best. rewrite Hl. split_and!; try done. by left.
    + rewrite Hout. right. exists best. rewrite Hl. split_and!; try done.
      by right.
  - intros query c Hfold Hq Hl Hs. unfold nameBonus.
    rewrite (Hfold _ Hq), (Hfold _ Hl), (Hfold _ Hs).
    rewrite <- !fold_equalsIgnoringCase by done.
    unfold jseqb.
    destruct (bool_decide_reflect (lowerUnit <$> long_name c = lowerUnit <$> query)),
      (bool_decide_reflect (lowerUnit <$> short_name c = lowerUnit <$> query));
      cbn [orb]; [tauto..|].
    split; [|tauto]. by case_match.
Qed.

(** ** The geocoding cache and the boundary *)

Lemma younger_than_24h (d : Z) :
  Qlt_bool (inject_Z d / 3600000) 24 = true ↔ d < 86400000.
Proof.
  unfold Qlt_bool. rewrite negb_true_iff, <- not_true_iff_false, Qle_bool_iff.
  unfold Qle, Qdiv, Qmult, Qinv, inject_Z. simpl. lia.
Qed.

Lemma getCachedGeocode_hit now name cache id d :
  documentId (cacheKey name) = Some id →
  cache !! id = Some d → now - cachedAt d < 86400000 →
  getCachedGeocode now name cache = (Some (result d), cache).
Proof.
  intros Hid Hd Hy. unfold getCachedGeocode. rewrite Hid, Hd.
  apply younger_than_24h in Hy. by rewrite Hy.
Qed.

Lemma getCachedGeocode_expired now name cache id d :
  documentId (cacheKey name) = Some id →
  cache !! id = Some d → 86400000 ≤ now - cachedAt d →
  getCachedGeocode now name cache = (None, delete id cache).
Proof.
  intros Hid Hd Hy. unfold getCachedGeocode. rewrite Hid, Hd.
  destruct (Qlt_bool _ 24) eqn:E; [|done].
  apply younger_than_24h in E. lia.
Qed.

Lemma getCachedGeocode_rejected now name cache :
  documentId (cacheKey name) = None →
  getCachedGeocode now name cache = (None, cache).
Proof. intros Hid. unfold getCachedGeocode. by rewrite Hid. Qed.

Lemma getCachedGeocode_absent now name cache id :
  documentId (cacheKey name) = Some id → cache !! id = None →
  getCachedGeocode now name cache = (None, cache).
Proof. intros Hid Hd. unfold getCachedGeocode. by rewrite Hid, Hd. Qed.

Lemma getCachedGeocode_miss now name cache cache' :
  getCachedGeocode now name cache = (None, cache') →
  cachedUnder name cache' = None
  ∧ (∀ k d, cache' !! k = Some d → cache !! k = Some d).
Proof.
  unfold getCachedGeocode, cachedUnder.
  destruct (documentId (cacheKey name)) as [id|]; [|by intros [= <-]].
  cbn [mbind option_bind].
  destruct (cache !! id) as [d|] eqn:Hd.
  - destruct (Qlt_bool _ 24); intros [= <-].
    split; [apply lookup_delete_eq|].
    intros k d' Hk. apply lookup_delete_Some in Hk. tauto.
  - intros [= <-]. done.
Qed.

Lemma getCachedGeocode_replay now name cache r cache' :
  getCachedGeocode now name cache = (Some r, cache') →
  cache' = cache
  ∧ ∃ id d, documentId (cacheKey name) = Some id ∧ cache !! id = Some d
            ∧ result d = r ∧ now - cachedAt d < 86400000.
Proof.
  unfold getCachedGeocode.
  destruct (documentId (cacheKey name)) as [id|]; [|done].
  destruct (cache !! id) as [d|] eqn:Hd; [|done].
  destruct (Qlt_bool _ 24) eqn:E; [|done].
  intros [= <- <-]. split; [done|]. exists id, d.
  by apply younger_than_24h in E.
Qed.

(** The test of the code is the rectangle of the specification. *)
Lemma isLocationInPuneZP_rectangle l :
  isLocationInPuneZP l = true
  ↔ (18 <= lat l ∧ lat l <= 19.5 ∧ 73.5 <= lng l ∧ lng l <= 75)%Q.
Proof.
  unfold isLocationInPuneZP. rewrite !andb_true_iff, !Qle_bool_iff.
  cbn [PUNE_ZP_BOUNDS southwest northeast lat lng].
  assert (18.0 == 18)%Q as -> by reflexivity.
  assert (75.0 == 75)%Q as -> by reflexivity.
  tauto.
Qed.

(** Claim C4: when the lookup is not answered from the cache and the
    coordinates of the best candidate lie outside the rectangle of latitude
    18.0 to 19.5 and longitude 73.5 to 75.0, [geocodeVillage] returns the
    failure ['Village not in Pune ZP'] with the coordinates, the address of
    the candidate and the message in the language of the call, never a
    success; it has queried the four templates and writes nothing: the cache
    is the one the lookup left, without a document for the name. *)
Theorem out_of_boundary_is_failure provider now name language cache cache' best
    highest l :
  getCachedGeocode now name cache = (None, cache') →
  searchLoop provider language name = (Some best, highest) →
  location (geometry best) = Some l →
  ¬ (18 <= lat l ∧ lat l <= 19.5 ∧ 73.5 <= lng l ∧ lng l <= 75)%Q →
  let out := geocodeVillage provider now name language cache in
  out.1.1
  = Failure {|
      error := js "Village not in Pune ZP";
      failLocation := Some l;
      failAddress := Some (formatted_address best);
      message :=
        if bool_decide (language = js "mr")
        then [2361; 2375; 32; 2327; 2366; 2357; 32; 2346; 2369; 2339; 2375;
              32; 2332; 2367; 2354; 2381; 2361; 2366; 32; 2346; 2352; 2367;
              2359; 2342; 2375; 2330; 2381; 2351; 2366; 32; 2361; 2342; 2381;
              2342; 2368; 2340; 32; 2344; 2366; 2361; 2368; 46; 32; 2325;
              2371; 2346; 2351; 2366; 32; 2346; 2369; 2339; 2375; 32; 2332;
              2367; 2354; 2381; 2361; 2381; 2351; 2366; 2340; 2368; 2354; 32;
              2327; 2366; 2357; 32; 2344; 2366; 2357; 32; 2342; 2381; 2351;
              2366; 46]%N
        else js "This village is not within Pune Zilla Panchayat boundaries. Please provide a village name from Pune district."
    |}
  ∧ success out.1.1 = false
  ∧ out.2 = searchQueries name
  ∧ out.1.2 = cache'
  ∧ cachedUnder name out.1.2 = None
  ∧ out.1.2 ⊆ cache.
Proof.
  intros Hmiss Hbest Hloc Hout. unfold geocodeVillage.
  rewrite Hmiss, Hbest, Hloc.
  rewrite <- isLocationInPuneZP_rectangle in Hout.
  apply not_true_is_false in Hout. rewrite Hout. cbn [negb fst snd].
  apply getCachedGeocode_miss in Hmiss as [? ?].
  split_and!; try done. by apply map_subseteq_spec.
Qed.

Lemma geocodeVillage_on_miss provider now name language cache cache0 :
  getCachedGeocode now name cache = (None, cache0) →
  let out := geocodeVillage provider now name language cache in
  out.2 = searchQueries name
  ∧ match out.1.1 with
    | Success _ => out.1.2 = cacheGeocode now name out.1.1 cache0
    | Failure _ => out.1.2 = cache0
    end.
Proof.
  intros Hmiss. unfold geocodeVillage. rewrite Hmiss.
  destruct (searchLoop provider language name) as [[best|] highest]; [|done].
  destruct (location (geometry best)) as [l|]; [|done].
  by destruct (isLocationInPuneZP l).
Qed.

(** Claim C7, as amended: only successes are cached, and only under a key
    that names a document.  When a call at [t1] that was not answered from
    the cache succeeds and the key of the name is accepted as a document
    id, a second call at [t2] for a name with the same lower-cased, trimmed
    key returns the identical outcome without a provider query if less than
    24 hours have passed since [t1], and otherwise the lookup deletes the
    document instead of returning it.  When the first call fails, or the
    key is rejected, nothing is cached and the second call queries the
    provider again. *)
Theorem cached_success_is_replayed provider1 provider2 t1 t2 name name'
    language1 language2 cache cache0 first cache1 issued :
  getCachedGeocode t1 name cache = (None, cache0) →
  geocodeVillage provider1 t1 name language1 cache = (first, cache1, issued) →
  cacheKey name' = cacheKey name →
  match first, documentId (cacheKey name) with
  | Success _, Some id =>
      cache1
      = <[id := {| cachedName := name; result := first; cachedAt := t1 |}]>
          cache0
      ∧ if decide (t2 - t1 < 86400000)
        then geocodeVillage provider2 t2 name' language2 cache1
             = (first, cache1, [])
        else getCachedGeocode t2 name' cache1 = (None, delete id cache1)
  | _, _ =>
      cache1 = cache0
      ∧ (geocodeVillage provider2 t2 name' language2 cache1).2
        = searchQueries name'
  end.
Proof.
  intros Hmiss Hfirst Hkey.
  pose proof (geocodeVillage_on_miss provider1 t1 name language1 cache cache0
                Hmiss) as [_ Hout].
  rewrite Hfirst in Hout. cbn [fst snd] in Hout.
  assert (∀ c, cachedUnder name' c = cachedUnder name c) as Hunder.
  { intros c. unfold cachedUnder. by rewrite Hkey. }
  assert (cachedUnder name' cache0 = None →
          (geocodeVillage provider2 t2 name' language2 cache0).2
          = searchQueries name') as Hagain.
  { intros Hnone.
    apply (geocodeVillage_on_miss provider2 t2 name' language2 cache0 cache0).
    unfold getCachedGeocode. unfold cachedUnder in Hnone.
    destruct (documentId (cacheKey name')); [|done].
    cbn [mbind option_bind] in Hnone. by rewrite Hnone. }
  apply getCachedGeocode_miss in Hmiss as [Hnone _].
  rewrite <- Hunder in Hnone.
  destruct first as [r|f].
  - unfold cacheGeocode in Hout.
    destruct (documentId (cacheKey name)) as [id|] eqn:Hid.
    + split; [done|].
      assert (documentId (cacheKey name') = Some id) as Hid'
        by (by rewrite Hkey).
      assert (cache1 !! id
              = Some {| cachedName := name; result := Success r;
                        cachedAt := t1 |}) as Hdoc.
      { rewrite Hout. apply lookup_insert_eq. }
      case_decide as Hage.
      * unfold geocodeVillage.
        by rewrite (getCachedGeocode_hit _ _ _ _ _ Hid' Hdoc Hage).
      * apply (getCachedGeocode_expired _ _ _ _ _ Hid' Hdoc).
        cbn [cachedAt]. lia.
    + split; [done|]. subst cache1. by apply Hagain.
  - assert (cache1 = cache0
            ∧ (geocodeVillage provider2 t2 name' language2 cache1).2
              = searchQueries name') as Hgoal.
    { split; [done|]. subst cache1. by apply Hagain. }
    by destruct (documentId (cacheKey name)).
Qed.

(** Claim C8, as amended: a provider error on a query template is
    swallowed and the loop goes on with the next template; when the
    templates are exhausted without any candidate the outcome is the
    failure ['Village not found'] with its localized message (not
    ['Geocoding service error'], which is returned only from the outer
    [catch]). *)
Theorem exhausted_templates_give_not_found provider now name language cache
    cache' :
  getCachedGeocode now name cache = (None, cache') →
  candidates provider language name = [] →
  geocodeVillage provider now name language cache
  = (notFound language, cache', searchQueries name)
  ∧ (∀ b q qs,
       match provider q (if isMarathi language then js "hi" else js "en") with
       | ProviderError =>
           foldl (queryStep provider language name) b (q :: qs)
           = foldl (queryStep provider language name) b qs
       | ProviderResponse _ _ => True
       end).
Proof.
  intros Hmiss Hnone. split.
  - unfold geocodeVillage.
    by rewrite Hmiss, searchLoop_candidates, Hnone.
  - intros b q qs. simpl. unfold queryStep at 2.
    by destruct (provider q _).
Qed.

(** ** Rules for computations on the store *)

Lemma findActive_snoc i l a :
  isActive a = true → findActive i (l ++ [a]) = Some ((i + length l)%nat, a).
Proof.
  intros Ha. revert i. induction l as [|r l IH]; intros i; simpl.
  - rewrite Ha. f_equal. f_equal. lia.
  - rewrite IH. f_equal. f_equal. lia.
Qed.

Lemma getCurrentState_snoc l a :
  isActive a = true → StateManager.getCurrentState (l ++ [a]) = Some (length l, a).
Proof. intros Ha. unfold StateManager.getCurrentState. by rewrite findActive_snoc. Qed.

Lemma alter_snoc {A} (f : A → A) (l : list A) (a : A) :
  alter f (length l) (l ++ [a]) = l ++ [f a].
Proof.
  replace (length l) with (length l + 0)%nat by lia.
  by rewrite alter_app_r.
Qed.

Lemma lookup_snoc {A} (l : list A) (a : A) : (l ++ [a]) !! length l = Some a.
Proof. by apply list_lookup_middle. Qed.

Section Rules.

Context {A B : Type}.

Implicit Types (Q : A → World → Prop) (T : World → Prop).

Lemma wp_ret (a : A) w Q T : Q a w → wp (mret a) w Q T.
Proof. intros H. split; [done|constructor]. Qed.

Lemma wp_bind (m : M A) (f : A → M B) w (R : B → World → Prop) T :
  wp m w (λ a w1, wp (f a) w1 R T) T → wp (m ≫= f) w R T.
Proof.
  unfold wp, mbind, M_bind, value, final, trace.
  destruct (m w) as [[a w1] t1]. simpl.
  destruct (f a w1) as [[b w2] t2]. simpl.
  intros [[HQ HT2] HT1]. split; [done|]. by apply Forall_app.
Qed.

Lemma wp_mono (m : M A) w Q Q' T :
  wp m w Q T → (∀ a w', Q a w' → Q' a w') → wp m w Q' T.
Proof. intros [HQ HT] H. split; [by apply H|done]. Qed.

End Rules.

Lemma wp_get w (Q : World → World → Prop) T : Q w w → wp get w Q T.
Proof. intros H. split; [done|constructor]. Qed.

Lemma wp_write f w (Q : unit → World → Prop) (T : World → Prop) :
  T (f w) → Q tt (f w) → wp (write f) w Q T.
Proof. intros HT HQ. split; [done|]. by repeat constructor. Qed.

Lemma wp_getCurrentState w l a (Q : option StateDoc → World → Prop) T :
  states w = l ++ [a] → isActive a = true →
  Q (Some (length l, a)) w → wp getCurrentState w Q T.
Proof.
  intros Hs Ha HQ. unfold getCurrentState. apply wp_bind, wp_get, wp_ret.
  by rewrite Hs, getCurrentState_snoc.
Qed.

Lemma wp_updateState now l x fr a w (Q : bool → World → Prop) T :
  states w = l ++ [a] →
  let w' := setStates (l ++ [withFunctionResults now fr a]) w in
  T w' → Q true w' →
  wp (updateStateWithFunctionResults now (length l, x) fr) w Q T.
Proof.
  intros Hs w' HT HQ. unfold updateStateWithFunctionResults.
  apply wp_bind, wp_get.
  unfold StateManager.updateStateWithFunctionResults. simpl.
  rewrite Hs, lookup_snoc, alter_snoc.
  apply wp_bind, wp_write; [done|]. by apply wp_ret.
Qed.

Lemma wp_completeTransition now l x s next a w (Q : bool → World → Prop) T :
  states w = l ++ [a] →
  let w' := setStates (l ++ [deactivated now s a; nextStateData now x s next]) w in
  T w' → Q true w' →
  wp (completeStateTransition now (length l, x) s next) w Q T.
Proof.
  intros Hs w' HT HQ. unfold completeStateTransition.
  apply wp_bind, wp_get.
  unfold StateManager.completeStateTransition. simpl.
  rewrite Hs, lookup_snoc, alter_snoc, <- app_assoc. simpl.
  apply wp_bind, wp_write; [done|]. by apply wp_ret.
Qed.

Lemma wp_updateCitizen now s d c w (Q : unit → World → Prop) (T : World → Prop) :
  citizen w = Some c →
  (∀ w', citizen w' = Some (updated now s d c) → states w' = states w →
         T w' ∧ Q tt w') →
  wp (updateCitizenDataFromFunctions now s d) w Q T.
Proof.
  intros Hc H. unfold updateCitizenDataFromFunctions.
  unfold updated in H.
  destruct (updateData s d) as [f|].
  - apply wp_bind, wp_get. rewrite Hc. by apply wp_write; apply H.
  - by apply wp_ret, H.
Qed.

Lemma wp_completeRegistration now l x a c w (Q : unit → World → Prop)
    (T : World → Prop) :
  citizen w = Some c → states w = l ++ [a] →
  let w1 := setCitizen (Some (setRegistered now c)) w in
  let w2 :=
    setStates (l ++ [deactivated now EmptyObject a;
                     nextStateData now x EmptyObject completed]) w1 in
  T w1 → T w2 → Q tt w2 →
  wp (completeRegistration now (length l, x)) w Q T.
Proof.
  intros Hc Hs w1 w2 HT1 HT2 HQ. unfold completeRegistration.
  apply wp_bind, wp_get. rewrite Hc.
  apply wp_bind, wp_write; [done|].
  apply wp_bind, (wp_completeTransition _ _ _ _ _ a); [done|done|].
  by apply wp_ret.
Qed.

Lemma tailShape_one l a : isActive a = true → tailShape l (l ++ [a]).
Proof. intros. left. eauto. Qed.

Lemma tailShape_two l x y :
  isActive x = false → isActive y = true → tailShape l (l ++ [x; y]).
Proof. intros. right. eauto 6. Qed.

Lemma handler_wp e number language cd w c l a fr cache issued :
  citizen w = Some c → states w = l ++ [a] → isActive a = true →
  Openai.processRegistrationWithFunctions (model e) (provider e) (now e)
    (stateId a) language (geoCache w) = (fr, cache, issued) →
  wp (processRegistrationWithFunctionCalling e number language cd) w
     (handled (now e) c l a (functionCalls w) fr)
     (λ w', tailShape l (states w')).
Proof.
  intros Hc Hs Ha Hfr. unfold processRegistrationWithFunctionCalling, handled.
  apply wp_bind, (wp_getCurrentState _ l a); [done..|].
  apply wp_bind, wp_ret. simpl.
  destruct (decide (stateId a = initial)) as [Hi|Hi].
  { apply wp_bind, (wp_completeTransition _ _ _ _ _ a); [done| |].
    - by apply tailShape_two.
    - by apply wp_ret. }
  apply wp_bind. unfold processRegistrationWithFunctions.
  apply wp_bind, wp_get. rewrite Hfr.
  set (w1 := match issued with [] => w | _ => setGeo cache issued w end).
  assert (citizen w1 = Some c ∧ states w1 = l ++ [a]
          ∧ functionCalls w1 = functionCalls w) as (Hc1 & Hs1 & Hf1).
  { subst w1. by destruct issued. }
  apply (wp_mono _ _ (λ r w', r = fr ∧ w' = w1)).
  { subst w1. destruct issued.
    - by apply wp_ret.
    - apply wp_bind, wp_write; [|by apply wp_ret].
      simpl. rewrite Hs. by apply tailShape_one. }
  intros ? ? [-> ->].
  destruct (truthy_opt (Openai.geocodingError fr)).
  { apply wp_bind, (wp_updateState _ _ _ _ a); [done| |].
    - by apply tailShape_one.
    - by apply wp_ret. }
  apply wp_bind, (wp_updateState _ _ _ _ a); [done|by apply tailShape_one|].
  apply wp_bind, wp_bind, wp_write; [by apply tailShape_one|].
  apply wp_ret.
  destruct (accepted fr) eqn:Hacc; [|by apply wp_ret].
  destruct (Openai.extractedData fr) as [d|] eqn:Hd.
  2:{ unfold accepted in Hacc. rewrite Hd in Hacc.
      rewrite andb_true_iff, andb_true_iff, bool_decide_eq_true in Hacc.
      destruct Hacc as [[_ []] _]. done. }
  apply wp_bind, (wp_updateCitizen _ _ _ c); [done|].
  simpl. intros w' Hc' Hs'. split; [rewrite Hs'; by apply tailShape_one|].
  destruct (decide (Openai.nextState fr = completed)).
  - apply wp_bind,
      (wp_completeRegistration _ _ _ (withFunctionResults (now e) fr a)
         (updated (now e) (stateId a) d c)); [done|done| | |].
    + simpl. rewrite Hs'. by apply tailShape_one.
    + by apply tailShape_two.
    + apply wp_ret. eauto.
  - apply wp_bind,
      (wp_completeTransition _ _ _ _ _ (withFunctionResults (now e) fr a));
      [done|by apply tailShape_two|].
    apply wp_ret. eauto.
Qed.

Lemma or_zero_above c :
  Qlt_bool 0.7 (Openai.or_zero c) = true → Qlt_bool 0.7 c = true.
Proof. unfold Openai.or_zero. by destruct (Qeq_bool c 0). Qed.

(** What an accepted result says about the answers of the model. *)
Lemma accepted_inv m provider now s language cache fr cache' issued :
  Openai.processRegistrationWithFunctions m provider now s language cache
  = (fr, cache', issued) →
  accepted fr = true →
  ∃ sa d0,
    Openai.analysis m = Some (Some sa)
    ∧ Openai.has_required_data sa = true
    ∧ Qlt_bool 0.7 (Openai.confidence sa) = true
    ∧ Openai.nextState fr = Openai.next_state sa
    ∧ Openai.extractRegistrationData m s = Some d0
    ∧ (Openai.extractedData fr = Some d0
       ∨ ∃ g, s = awaiting_village
              ∧ truthy_opt (Openai.village_name d0) = true
              ∧ Openai.extractedData fr = Some (Openai.withGeocoding d0 g)).
Proof.
  unfold Openai.processRegistrationWithFunctions, accepted.
  destruct (Openai.analysis m) as [[sa|]|]; simpl;
    [|intros [= <- _ _]; simpl; done..].
  destruct (Openai.has_required_data sa) eqn:Hreq;
    [|intros [= <- _ _]; simpl; rewrite Hreq; done].
  intros Hfr Hacc.
  assert (∀ d, fr = Openai.results (Some sa) d s →
               ∃ d0, d = Some d0 ∧ Qlt_bool 0.7 (Openai.confidence sa) = true
                     ∧ Openai.nextState fr = Openai.next_state sa) as Hres.
  { intros d ->. simpl in Hacc. rewrite Hreq in Hacc. simpl in Hacc.
    apply andb_true_iff in Hacc as [Hd Hconf].
    apply bool_decide_eq_true in Hd as [d0 ->].
    exists d0. by apply or_zero_above in Hconf. }
  destruct (Openai.extractRegistrationData m s) as [d0|] eqn:Hd0.
  2:{ assert (fr = Openai.results (Some sa) None s) as Heq
        by (by destruct s; injection Hfr as <-).
      by destruct (Hres _ Heq) as (? & ? & _). }
  exists sa, d0. 
  destruct (decide (s = awaiting_village)) as [->|Hs].
  - destruct (truthy_opt (Openai.village_name d0)) eqn:Hv.
    + destruct (geocodeVillage _ _ _ _ _) as [[[g|f] c1] i1].
      * injection Hfr as <- _ _.
        destruct (Hres _ eq_refl) as (? & _ & ? & ?).
        repeat split; try done. right. by exists g.
      * injection Hfr as <- _ _. done.
    + injection Hfr as <- _ _.
      destruct (Hres _ eq_refl) as (? & [= <-] & ? & ?).
      repeat split; try done. by left.
  - assert (fr = Openai.results (Some sa) (Some d0) s) as Heq
      by (destruct s; simpl in Hfr; try done; by injection Hfr as <-).
    destruct (Hres _ Heq) as (? & [= <-] & ? & ?).
    repeat split; try done. left. by rewrite Heq.
Qed.

(** What the result of [processRegistrationWithFunctions] says about the
    answers of the model: the acceptance test of the orchestrator holds
    exactly when the classifier accepts and the result carries a payload;
    a geocoding error comes without a payload; a payload is the extraction
    of the model, with its confidence clamped by the geocoding score when
    the village was geocoded. *)
Lemma process_inv m provider now s language cache fr cache' issued :
  Openai.processRegistrationWithFunctions m provider now s language cache
  = (fr, cache', issued) →
  accepted fr
  = classifierAccepts m && bool_decide (is_Some (Openai.extractedData fr))
  ∧ (is_Some (Openai.geocodingError fr) → Openai.extractedData fr = None)
  ∧ match Openai.extractedData fr with
    | Some d =>
        ∃ d0, Openai.extractRegistrationData m s = Some d0
              ∧ match Openai.geocoding d with
                | Some g =>
                    Openai.extractionConfidence d
                    = Qmin (Openai.extractionConfidence d0)
                           (inject_Z (Geocoding.confidence g) / 100)
                | None => d = d0
                end
    | None => True
    end.
Proof.
  unfold Openai.processRegistrationWithFunctions, accepted, classifierAccepts.
  destruct (Openai.analysis m) as [[sa|]|]; cbn [from_option];
    [|intros [= <- _ _]; cbn; split_and!; [done|by intros [? [=]]|done]..].
  assert (∀ d,
    Openai.shouldTransition (Openai.results (Some sa) d s)
    && bool_decide (is_Some (Openai.extractedData (Openai.results (Some sa) d s)))
    && Qlt_bool 0.7 (Openai.resultConfidence (Openai.results (Some sa) d s))
    = Openai.has_required_data sa && Qlt_bool 0.7 (Openai.confidence sa)
      && bool_decide (is_Some d)) as Hres.
  { intros d. cbn. unfold Openai.or_zero.
    destruct (Qeq_bool (Openai.confidence sa) 0) eqn:E.
    - apply Qeq_bool_eq in E.
      assert (Qlt_bool 0.7 (Openai.confidence sa) = false) as ->.
      { unfold Qlt_bool. apply negb_false_iff, Qle_bool_iff. rewrite E. done. }
      assert (Qlt_bool 0.7 0 = false) as -> by done.
      by rewrite !andb_false_r.
    - by destruct (Openai.has_required_data sa), (Qlt_bool _ _),
        (bool_decide _). }
  assert (∀ d, Openai.extractRegistrationData m s = d →
    match d with
    | Some d1 =>
        ∃ d0, Openai.extractRegistrationData m s = Some d0
              ∧ match Openai.geocoding d1 with
                | Some g =>
                    Openai.extractionConfidence d1
                    = Qmin (Openai.extractionConfidence d0)
                           (inject_Z (Geocoding.confidence g) / 100)
                | None => d1 = d0
                end
    | None => True
    end) as Hplain.
  { intros [d1|] Hd; [|done]. exists d1. split; [done|].
    assert (Openai.geocoding d1 = None) as ->; [|done].
    destruct s; cbn in Hd; try done.
    - destruct (Openai.extract_user_name m) as [[? ?]|]; by simplify_eq/=.
    - destruct (Openai.extract_village_info m) as [[[? ?] ?]|];
        by simplify_eq/=. }
  destruct (Openai.has_required_data sa) eqn:Hreq.
  2:{ intros [= <- _ _]. rewrite Hres, ?Hreq. cbn.
      split_and!; [done|by intros [? [=]]|done]. }
  destruct (Openai.extractRegistrationData m s) as [d0|] eqn:Hd0.
  2:{ intros Hfr.
      assert (fr = Openai.results (Some sa) None s) as ->
        by (by destruct s; injection Hfr as <-).
      rewrite Hres, ?Hreq. cbn. split_and!; [done|by intros [? [=]]|done]. }
  destruct (decide (s = awaiting_village)) as [->|Hs].
  - destruct (truthy_opt (Openai.village_name d0)) eqn:Hv.
    + destruct (geocodeVillage _ _ _ _ _) as [[[g|f] c1] i1].
      * intros [= <- _ _]. rewrite Hres, ?Hreq.
        split_and!; [done|by intros [? [=]]|]. cbn. by exists d0.
      * intros [= <- _ _]. cbn. rewrite !andb_false_r.
        split_and!; done.
    + intros [= <- _ _]. rewrite Hres, ?Hreq.
      split_and!; [done|by intros [? [=]]|]. by apply (Hplain (Some d0)).
  - intros Hfr.
    assert (fr = Openai.results (Some sa) (Some d0) s) as ->
      by (destruct s; cbn in Hfr; try done; by injection Hfr as <-).
    rewrite Hres, ?Hreq.
    split_and!; [done|by intros [? [=]]|]. by apply (Hplain (Some d0)).
Qed.

Lemma wp_weaken {A} (m : M A) w Q (T T' : World → Prop) :
  wp m w Q T → (∀ w', T w' → T' w') → wp m w Q T'.
Proof. intros [HQ HT] H. split; [done|]. eapply Forall_impl; eauto. Qed.

Lemma activeCount_app l l' :
  activeCount (l ++ l') = (activeCount l + activeCount l')%nat.
Proof. induction l as [|r l IH]; simpl; [done|]. rewrite IH. lia. Qed.

Lemma activeCount_inactive l :
  Forall (λ r, isActive r = false) l → activeCount l = 0%nat.
Proof. induction 1 as [|r l Hr _ IH]; simpl; [done|]. by rewrite Hr, IH. Qed.

Lemma tailShape_oneActive l st :
  Forall (λ r, isActive r = false) l → tailShape l st →
  (activeCount st ≤ 1)%nat.
Proof.
  intros Hl [(a & -> & Ha)|(x & y & -> & Hx & Hy)];
    rewrite activeCount_app, (activeCount_inactive l Hl); simpl.
  - rewrite Ha. lia.
  - rewrite Hx, Hy. lia.
Qed.

Lemma wp_createStateRecord now s lang sid w (Q : StateDoc → World → Prop) T :
  let d := (StateManager.createStateRecord now s lang sid (states w)).1 in
  let w' := setStates (states w ++ [d.2]) w in
  T w' → Q d w' → wp (createStateRecord now s lang sid) w Q T.
Proof.
  intros d w' HT HQ. unfold createStateRecord.
  apply wp_bind, wp_get. simpl.
  apply wp_bind, wp_write; [done|]. by apply wp_ret.
Qed.

Lemma message_wp e number language displayName w :
  fresh w ∨ wellFormed w →
  wp (processMessage e number language displayName) w
     (afterMessage e number language displayName w) oneActive.
Proof.
  intros Hw. unfold processMessage, afterMessage.
  apply wp_bind. unfold getOrCreateCitizen. apply wp_bind, wp_get.
  destruct Hw as [[Hc Hs]|(c0 & l & a & Hc & Hs & Ha & Hl)]; rewrite Hc.
  - apply wp_bind, wp_write; [unfold oneActive; simpl; rewrite Hs; simpl; lia|].
    apply wp_bind, wp_createStateRecord; simpl.
    { unfold oneActive. simpl. rewrite Hs. simpl. lia. }
    apply wp_ret. simpl. rewrite Hs. simpl.
    apply wp_bind.
    destruct (Openai.processRegistrationWithFunctions (model e) (provider e)
      (now e) initial language (geoCache w)) as [[fr cache] issued] eqn:Hfr.
    eapply wp_weaken; [eapply wp_mono|].
    + eapply (handler_wp e number language _ _ _ [] _ fr cache issued);
        simpl; try done.
    + simpl. intros o wf Hh. apply wp_ret.
      eexists _, [], _. split; [left; by repeat split|].
      split; [done|]. split; [constructor|]. simpl.
      by exists o, fr, cache, issued.
    + simpl. intros w' Hshape.
      by apply (tailShape_oneActive []); [constructor|].
  - set (c := setProfile _ (now e) c0).
    apply wp_bind, wp_write.
    { unfold oneActive. simpl. rewrite Hs.
      apply (tailShape_oneActive l); [done|]. by apply tailShape_one. }
    apply wp_ret.
    destruct (isRegistered c) eqn:Hreg.
    + apply wp_ret. exists c, l, a. split; [right; by exists c0|].
      split; [done|]. split; [done|]. by rewrite Hreg.
    + apply wp_bind.
      destruct (Openai.processRegistrationWithFunctions (model e) (provider e)
        (now e) (stateId a) language (geoCache w)) as [[fr cache] issued] eqn:Hfr.
      eapply wp_weaken; [eapply wp_mono|].
      * eapply (handler_wp e number language _ _ c l a fr cache issued);
          simpl; try done.
      * simpl. intros o wf Hh. apply wp_ret.
        exists c, l, a. split; [right; by exists c0|].
        split; [done|]. split; [done|]. rewrite Hreg.
        by exists o, fr, cache, issued.
      * simpl. intros w' Hshape. by apply (tailShape_oneActive l).
Qed.

(** The outcomes of [handled], as a case analysis: the message either
    leaves the current document in place (with one more recorded result), or
    commits a transition to [next]. *)
Lemma handled_cases now c l a calls fr o wf :
  handled now c l a calls fr o wf →
  (∃ c' a', citizen wf = Some c' ∧ states wf = l ++ [a']
            ∧ stateId a' = stateId a ∧ isActive a' = isActive a
            ∧ stateId a ≠ initial
            ∧ c' = c)
  ∨ (∃ c' x next s,
       citizen wf = Some c'
       ∧ states wf = l ++ [x; nextStateData now a s next]
       ∧ stateId x = stateId a ∧ isActive x = false
       ∧ ((stateId a = initial ∧ next = awaiting_name ∧ c' = c)
          ∨ (stateId a ≠ initial ∧ accepted fr = true
             ∧ next = Openai.nextState fr
             ∧ ∃ d, Openai.extractedData fr = Some d
                ∧ c' = (if decide (next = completed)
                        then setRegistered now (updated now (stateId a) d c)
                        else updated now (stateId a) d c)))).
Proof.
  unfold handled.
  destruct (decide (stateId a = initial)) as [Hi|Hi].
  { intros [Hc Hs]. right. exists c, (deactivated now EmptyObject a),
      awaiting_name, EmptyObject. split_and!; try done. by left. }
  destruct (truthy_opt (Openai.geocodingError fr)).
  { intros (Hc & Hs & _). left. by eexists c, _. }
  destruct (accepted fr) eqn:Hacc.
  2:{ intros (Hc & Hs). left. by eexists c, _. }
  intros (d & Hd & H). right.
  destruct (decide (Openai.nextState fr = completed)) as [Hn|Hn];
    destruct H as [Hc Hs].
  - eexists _, _, completed, EmptyObject. split_and!; try done.
    right. split_and!; try done. exists d. split; [done|].
    by rewrite decide_True.
  - eexists _, _, (Openai.nextState fr), (Payload d). split_and!; try done.
    right. split_and!; try done. exists d. split; [done|].
    by rewrite decide_False.
Qed.

Lemma afterMessage_wellFormed e number language displayName w o wf :
  afterMessage e number language displayName w o wf → wellFormed wf.
Proof.
  intros (c & l & a & _ & Ha & Hl & H).
  destruct (isRegistered c).
  { destruct H as (_ & Hc & Hs). by exists c, l, a. }
  destruct H as (o' & fr & cache & issued & _ & _ & H).
  apply handled_cases in H
    as [(c' & a' & Hc & Hs & _ & Ha' & _)|(c' & x & next & s & Hc & Hs & _ & Hx & _)].
  - exists c', l, a'. by rewrite Ha'.
  - exists c', (l ++ [x]), (nextStateData (now e) a s next).
    rewrite <- app_assoc. split_and!; try done.
    apply Forall_app. split; [done|]. by constructor.
Qed.

Lemma settled_inv P w : settled P w → fresh w ∨ wellFormed w.
Proof.
  induction 1 as [w Hw|w e number language dn _ IH _]; [by left|right].
  destruct (message_wp e number language dn w IH) as [HQ _].
  by apply afterMessage_wellFormed in HQ.
Qed.

Lemma observed_oneActive P w : observed P w → oneActive w.
Proof.
  intros [? Hw|w0 e number language dn ? Hw _ Hin].
  - apply settled_inv in Hw as [[_ Hs]|(c & l & a & _ & Hs & Ha & Hl)];
      unfold oneActive; rewrite Hs; simpl; [lia|].
    apply (tailShape_oneActive l); [done|]. by apply tailShape_one.
  - apply settled_inv in Hw.
    destruct (message_wp e number language dn w0 Hw) as [_ HT].
    by rewrite Forall_forall in HT; apply HT.
Qed.

Lemma findActive_Some i l d :
  findActive i l = Some d →
  (i ≤ d.1)%nat ∧ l !! (d.1 - i)%nat = Some d.2 ∧ isActive d.2 = true.
Proof.
  revert i. induction l as [|r l IH]; intros i; simpl; [done|].
  destruct (findActive (S i) l) as [d'|] eqn:Hd'.
  - intros [= ->]. apply IH in Hd' as (Hle & Hl & Ha).
    split; [lia|]. split; [|done].
    by replace (d.1 - i)%nat with (S (d.1 - S i)) by lia.
  - destruct (isActive r) eqn:Hr; [|done]. intros [= <-]. simpl.
    by rewrite Nat.sub_diag.
Qed.

Lemma getCurrentState_Some l d :
  StateManager.getCurrentState l = Some d →
  l !! d.1 = Some d.2 ∧ isActive d.2 = true.
Proof.
  intros H. apply findActive_Some in H as (_ & Hl & Ha).
  by rewrite Nat.sub_0_r in Hl.
Qed.

Lemma activeCount_alter f l i r :
  l !! i = Some r → isActive r = true → isActive (f r) = false →
  S (activeCount (alter f i l)) = activeCount l.
Proof.
  revert i. induction l as [|x l IH]; intros [|i]; simpl; try done.
  - intros [= ->] Hr Hf. by rewrite Hr, Hf.
  - intros Hl Hr Hf. specialize (IH i Hl Hr Hf).
    change (alter f i l) with (list_alter f i l) in IH.
    destruct (isActive x); lia.
Qed.

Lemma tailShape_exactlyOne l st :
  Forall (λ r, isActive r = false) l → tailShape l st →
  activeCount st = 1%nat.
Proof.
  intros Hl [(a & -> & Ha)|(x & y & -> & Hx & Hy)];
    rewrite activeCount_app, (activeCount_inactive l Hl); simpl.
  - by rewrite Ha.
  - by rewrite Hx, Hy.
Qed.

Lemma message_writes e number language displayName w :
  fresh w ∨ wellFormed w →
  wp (processMessage e number language displayName) w (λ _ _, True)
     (λ w', if decide (states w' = []) then is_Some (citizen w')
            else activeCount (states w') = 1%nat).
Proof.
  intros Hw. unfold processMessage.
  apply wp_bind. unfold getOrCreateCitizen. apply wp_bind, wp_get.
  destruct Hw as [[Hc Hs]|(c0 & l & a & Hc & Hs & Ha & Hl)]; rewrite Hc.
  - apply wp_bind, wp_write; [simpl; rewrite Hs; by rewrite decide_True|].
    apply wp_bind, wp_createStateRecord; simpl.
    { rewrite Hs. simpl. done. }
    apply wp_ret. simpl. rewrite Hs. simpl.
    apply wp_bind.
    destruct (Openai.processRegistrationWithFunctions (model e) (provider e)
      (now e) initial language (geoCache w)) as [[fr cache] issued] eqn:Hfr.
    eapply wp_weaken; [eapply wp_mono|].
    + eapply (handler_wp e number language _ _ _ [] _ fr cache issued);
        simpl; try done.
    + simpl. intros o wf Hh. by apply wp_ret.
    + simpl. intros w' Hshape.
      pose proof (tailShape_exactlyOne [] _ ltac:(constructor) Hshape) as H1.
      destruct (decide (states w' = [])) as [Hn|]; [|done].
      rewrite Hn in H1. done.
  - set (c := setProfile _ (now e) c0).
    assert (Hone : ∀ w', tailShape l (states w') →
              if decide (states w' = []) then is_Some (citizen w')
              else activeCount (states w') = 1%nat).
    { intros w' Hshape.
      pose proof (tailShape_exactlyOne l _ Hl Hshape) as H1.
      destruct (decide (states w' = [])) as [Hn|]; [|done].
      rewrite Hn in H1. done. }
    apply wp_bind, wp_write.
    { apply Hone. simpl. rewrite Hs. by apply tailShape_one. }
    apply wp_ret.
    destruct (isRegistered c) eqn:Hreg; [by apply wp_ret|].
    apply wp_bind.
    destruct (Openai.processRegistrationWithFunctions (model e) (provider e)
      (now e) (stateId a) language (geoCache w)) as [[fr cache] issued] eqn:Hfr.
    eapply wp_weaken; [eapply wp_mono|].
    + eapply (handler_wp e number language _ _ c l a fr cache issued);
        simpl; try done.
    + simpl. intros o wf Hh. by apply wp_ret.
    + simpl. exact Hone.
Qed.
(** The state documents that a message leaves: those of a new citizen, or
    the earlier documents [l] followed by what has become of the current
    document [a]. *)
Lemma message_states e number language displayName w :
  fresh w ∨ wellFormed w →
  let out := processMessage e number language displayName w in
  if decide (states w = []) then
    let a :=
      (StateManager.createStateRecord (now e) initial None
         (Some (sessionIdOf number (now e))) []).1.2 in
    states (final out)
    = [deactivated (now e) EmptyObject a;
       nextStateData (now e) a EmptyObject awaiting_name]
  else
    ∃ l a,
      states w = l ++ [a] ∧ isActive a = true
      ∧ Forall (λ r, isActive r = false) l
      ∧ let fr :=
          (Openai.processRegistrationWithFunctions (model e) (provider e)
             (now e) (stateId a) language (geoCache w)).1.1 in
        let a1 := withFunctionResults (now e) fr a in
        states (final out)
        = l ++
          if default false (isRegistered <$> citizen w) then [a]
          else if decide (stateId a = initial) then
            [deactivated (now e) EmptyObject a;
             nextStateData (now e) a EmptyObject awaiting_name]
          else
            match (if accepted fr then Openai.extractedData fr else None) with
            | Some d =>
                let snapshot :=
                  if decide (Openai.nextState fr = completed)
                  then EmptyObject else Payload d in
                [deactivated (now e) snapshot a1;
                 nextStateData (now e) a snapshot (Openai.nextState fr)]
            | None => [a1]
            end.
Proof.
  intros Hw out.
  destruct (message_wp e number language displayName w Hw) as [H _].
  fold out in H. destruct H as (c & l & a & Harr & Ha & Hl & H).
  destruct Harr as [(Hc & Hs & -> & -> & ->)|(c0 & Hc & Hs & ->)].
  - rewrite decide_True by done. cbn zeta.
    cbn [newCitizen isRegistered] in H.
    destruct H as (o' & fr & cache & issued & _ & _ & H).
    unfold handled in H. rewrite decide_True in H by done.
    by destruct H as [_ ->].
  - rewrite decide_False by (rewrite Hs; by destruct l).
    exists l, a. split; [done|]. split; [done|]. split; [done|].
    rewrite Hc. cbn [fmap option_fmap option_map default].
    assert (isRegistered
              (setProfile (if truthy_opt displayName then displayName
                           else whatsappDisplayName c0) (now e) c0)
            = isRegistered c0) as Hreg by done.
    rewrite Hreg in H. cbn zeta.
    destruct (isRegistered c0); [by destruct H as (_ & _ & ->)|].
    destruct H as (o' & fr & cache & issued & _ & Hfr & H).
    rewrite Hfr. cbn [fst].
    destruct (process_inv _ _ _ _ _ _ _ _ _ Hfr) as (Hacc & Hge & _).
    unfold handled in H.
    destruct (decide (stateId a = initial)); [by destruct H as [_ ->]|].
    destruct (truthy_opt (Openai.geocodingError fr)) eqn:Hg.
    { assert (accepted fr = false) as ->.
      { rewrite Hacc, Hge; [by rewrite andb_false_r|].
        destruct (Openai.geocodingError fr); [by eexists|done]. }
      by destruct H as (_ & -> & _). }
    destruct (accepted fr); [|by destruct H as [_ ->]].
    destruct H as (d & -> & H).
    destruct (decide (Openai.nextState fr = completed)) as [Hn|Hn];
      destruct H as [_ ->]; [by rewrite Hn|done].
Qed.

(** Claim C5, as amended: while the messages of a citizen are handled one
    after the other, at most one state document is active at every message
    boundary and after every single write in between, and once there is a
    state document exactly one is.  A commit is one batch write: it
    deactivates the stored current document, stamps it with the
    [extractedData] argument of the commit (the extraction payload on a
    normal transition, the empty object on the commits from ['initial'] and
    to ['completed']) and adds the active document of the next state. *)
Theorem one_active_state_at_all_times w e number language displayName :
  settled anyAnswer w →
  let out := processMessage e number language displayName w in
  oneActive w ∧ oneActive (final out)
  ∧ Forall (λ w', states w' = [] ∨ activeCount (states w') = 1%nat)
      (trace out)
  ∧ (if decide (states w = []) then
       let a :=
         (StateManager.createStateRecord (now e) initial None
            (Some (sessionIdOf number (now e))) []).1.2 in
       states (final out)
       = [deactivated (now e) EmptyObject a;
          nextStateData (now e) a EmptyObject awaiting_name]
     else
       ∃ l a,
         states w = l ++ [a] ∧ isActive a = true
         ∧ Forall (λ r, isActive r = false) l
         ∧ let fr :=
             (Openai.processRegistrationWithFunctions (model e) (provider e)
                (now e) (stateId a) language (geoCache w)).1.1 in
           let a1 := withFunctionResults (now e) fr a in
           states (final out)
           = l ++
             if default false (isRegistered <$> citizen w) then [a]
             else if decide (stateId a = initial) then
               [deactivated (now e) EmptyObject a;
                nextStateData (now e) a EmptyObject awaiting_name]
             else
               match (if accepted fr then Openai.extractedData fr
                      else None) with
               | Some d =>
                   let snapshot :=
                     if decide (Openai.nextState fr = completed)
                     then EmptyObject else Payload d in
                   [deactivated (now e) snapshot a1;
                    nextStateData (now e) a snapshot (Openai.nextState fr)]
               | None => [a1]
               end)
  ∧ (∀ now s next r a,
       isActive (deactivated now s r) = false
       ∧ extractedData (deactivated now s r) = Some s
       ∧ completedAt (deactivated now s r) = Some now
       ∧ stateId (deactivated now s r) = stateId r
       ∧ isActive (nextStateData now a s next) = true
       ∧ stateId (nextStateData now a s next) = next).
Proof.
  intros Hw out.
  pose proof (settled_inv _ _ Hw) as Hshape.
  split; [apply observed_oneActive with anyAnswer; by constructor|].
  split.
  { apply observed_oneActive with anyAnswer. constructor.
    by apply settled_message. }
  split.
  { destruct (message_writes e number language displayName w Hshape)
      as [_ Ht].
    eapply Forall_impl; [exact Ht|]. intros w' Hw'. cbn beta in Hw'.
    destruct (decide (states w' = [])); [by left|by right]. }
  split; [exact (message_states e number language displayName w Hshape)|].
  done.
Qed.

(** *** The committed sequence *)

Lemma ranked_snoc_inv l a :
  ranked (l ++ [a]) → ranked l ∧ rank (stateId a) = length l.
Proof.
  unfold ranked. rewrite fmap_app, length_app, seq_app. simpl.
  intros H. apply app_inj_1 in H as [H1 H2]; [|by rewrite length_fmap, length_seq].
  split; [done|]. by injection H2.
Qed.

Lemma ranked_snoc l a :
  ranked l → rank (stateId a) = length l → ranked (l ++ [a]).
Proof.
  unfold ranked. rewrite fmap_app, length_app, seq_app. simpl.
  by intros -> ->.
Qed.

Lemma successor_rank s next :
  next ∈ nextStates (REGISTRATION_STATES s) → rank next = S (rank s).
Proof.
  destruct s; simpl; intros H;
    repeat (apply elem_of_cons in H as [->|H]); try done;
    by apply elem_of_nil in H.
Qed.

Lemma ranked_prefix l : ranked l → stateId <$> l `prefix_of` sequence.
Proof.
  unfold ranked, sequence.
  destruct l as [|a [|b [|c [|d [|x l]]]]]; simpl;
    intros H; simplify_eq;
    repeat match goal with
      | r : StateRecord |- _ => destruct r as [[] ?]; simplify_eq/=
      end.
  - by exists [initial; awaiting_name; awaiting_village; completed].
  - by exists [awaiting_name; awaiting_village; completed].
  - by exists [awaiting_village; completed].
  - by exists [completed].
  - by exists [].
Qed.

Lemma settled_ranked w : settled followsGraph w → ranked (states w).
Proof.
  induction 1 as [w [_ Hs]|w e number language dn Hw IH HP]; [by rewrite Hs|].
  apply settled_inv in Hw.
  destruct (message_wp e number language dn w Hw) as [HQ _].
  destruct HQ as (c & l & a & Harr & Ha & Hl & H).
  assert (ranked (l ++ [a])) as Hr.
  { destruct Harr as [(_ & _ & _ & -> & ->)|(c0 & _ & Hs & _)]; [done|].
    by rewrite <- Hs. }
  destruct (isRegistered c).
  { destruct H as (_ & _ & ->). done. }
  destruct H as (o' & fr & cache & issued & _ & Hfr & H).
  apply ranked_snoc_inv in Hr as [Hrl Hra].
  apply handled_cases in H
    as [(c' & a' & _ & -> & Hid & _)
       |(c' & x & next & s & _ & -> & Hx & _ & Hnext)].
  - apply ranked_snoc; [done|]. by rewrite Hid.
  - change (l ++ [x; nextStateData (now e) a s next])
      with (l ++ [x] ++ [nextStateData (now e) a s next]).
    rewrite app_assoc. apply ranked_snoc.
    { apply ranked_snoc; [done|]. by rewrite Hx. }
    rewrite length_app. simpl. rewrite <- Hra, Nat.add_1_r.
    destruct Hnext as [(Hi & -> & _)|(Hi & Hacc & -> & _)].
    + by rewrite Hi.
    + destruct (accepted_inv _ _ _ _ _ _ _ _ _ Hfr Hacc)
        as (sa & d0 & Hsa & Hreq & _ & -> & _).
      apply successor_rank.
      destruct Harr as [(_ & _ & _ & _ & ->)|(c0 & _ & Hs & _)]; [done|].
      specialize (HP (length l, a)). rewrite Hs in HP.
      by apply (HP (getCurrentState_snoc l a Ha) sa).
Qed.

(** Claim C2, as amended: the orchestrator commits ['awaiting_name'] from
    ['initial'], commits the state the classifier recommends when it accepts
    the result of a message in a later state, and commits nothing otherwise;
    it does not check the recommendation against [nextStates].  Provided the
    classifier recommends a state of [nextStates] of the current state
    whenever it reports the required data, the committed state identifiers
    are an initial segment of the fixed sequence: no skip, no step back. *)
Theorem committed_states_follow_sequence w e number language displayName :
  settled anyAnswer w →
  let out := processMessage e number language displayName w in
  let s :=
    from_option (λ d : StateDoc, stateId d.2) initial
      (StateManager.getCurrentState (states w)) in
  let fr :=
    (Openai.processRegistrationWithFunctions (model e) (provider e) (now e)
       s language (geoCache w)).1.1 in
  stateId <$> states (final out)
  = (stateId <$> states w)
    ++ (if decide (states w = []) then [initial; awaiting_name]
        else if default false (isRegistered <$> citizen w) then []
        else if decide (s = initial) then [awaiting_name]
        else
          match Openai.analysis (model e) with
          | Some (Some sa) =>
              if classifierAccepts (model e)
                 && bool_decide (is_Some (Openai.extractedData fr))
              then [Openai.next_state sa] else []
          | _ => []
          end)
  ∧ (settled followsGraph w → stateId <$> states w `prefix_of` sequence).
Proof.
  intros Hw out s fr. split; [|by intros ?%settled_ranked%ranked_prefix].
  apply settled_inv in Hw.
  pose proof (message_states e number language displayName w Hw) as H.
  fold out in H. cbn zeta in H.
  destruct (decide (states w = [])) as [Hs|Hs]; [by rewrite H, Hs|].
  destruct H as (l & a & Hl & Ha & _ & H).
  assert (s = stateId a) as Hcur.
  { unfold s. by rewrite Hl, getCurrentState_snoc. }
  rewrite <- Hcur in H. fold fr in H. rewrite H, Hl, !fmap_app.
  rewrite <- app_assoc. f_equal.
  destruct (default false (isRegistered <$> citizen w)); [done|].
  destruct (decide (s = initial)) as [Hi|Hi]; [done|].
  destruct (Openai.processRegistrationWithFunctions (model e) (provider e)
    (now e) s language (geoCache w)) as [[fr' cache] issued] eqn:Hfr.
  cbn [fst] in fr. subst fr.
  destruct (process_inv _ _ _ _ _ _ _ _ _ Hfr) as (Hacc & _ & _).
  rewrite <- Hacc.
  destruct (accepted fr') eqn:Hyes.
  - destruct (accepted_inv _ _ _ _ _ _ _ _ _ Hfr Hyes)
      as (sa & d0 & -> & _ & _ & <- & _ & Hd).
    assert (∃ d, Openai.extractedData fr' = Some d) as [d ->]
      by (destruct Hd as [?|(? & _ & _ & ?)]; by eexists).
    by destruct (decide (Openai.nextState fr' = completed)).
  - cbn [fmap list_fmap stateId withFunctionResults].
    by destruct (Openai.analysis (model e)) as [[?|]|].
Qed.

(** *** Registration and the two fields *)

Lemma extract_name_inv m d0 :
  Openai.extractRegistrationData m awaiting_name = Some d0 →
  ∃ n q, Openai.extract_user_name m = Some (n, q)
         ∧ Openai.full_name d0 = Some n.
Proof.
  simpl. destruct (Openai.extract_user_name m) as [[n q]|]; [|done].
  intros [= <-]. by exists n, q.
Qed.

Lemma extract_village_inv m d0 :
  Openai.extractRegistrationData m awaiting_village = Some d0 →
  ∃ v q g, Openai.extract_village_info m = Some (v, q, g)
           ∧ Openai.village_name d0 = Some v.
Proof.
  simpl. destruct (Openai.extract_village_info m) as [[[v q] g]|]; [|done].
  intros [= <-]. by exists v, q, g.
Qed.

Lemma updated_name now d c n :
  Openai.full_name d = Some n → truthy n = true →
  let c' := updated now awaiting_name d c in
  userProvidedName c' = Some n ∧ village c' = village c
  ∧ isRegistered c' = isRegistered c.
Proof. intros Hn Ht. unfold updated. simpl. rewrite Hn. simpl. by rewrite Ht. Qed.

Lemma updated_village now d c v :
  Openai.village_name d = Some v → truthy v = true →
  let c' := updated now awaiting_village d c in
  userProvidedName c' = userProvidedName c ∧ is_Some (village c')
  ∧ isRegistered c' = isRegistered c.
Proof.
  intros Hv Ht. unfold updated. simpl. rewrite Hv. simpl. rewrite Ht.
  unfold whenSome.
  destruct (Openai.coordinates d), (truthy_opt (Openai.taluka d)),
    (Openai.geocoding d); simpl; eauto.
Qed.

Lemma settled_progress w :
  settled wellBehaved w →
  fresh w
  ∨ ∃ c l a, citizen w = Some c ∧ states w = l ++ [a] ∧ isActive a = true
             ∧ progress (stateId a) c.
Proof.
  induction 1 as [w Hw|w e number language dn Hw IH HP]; [by left|right].
  pose proof (settled_inv _ _ Hw) as Hinv.
  destruct (message_wp e number language dn w Hinv) as [HQ _].
  destruct HQ as (c & l & a & Harr & Ha & Hl & H).
  assert (progress (stateId a) c
          ∧ (stateId a ≠ initial → wellBehaved (stateId a) e)) as [Hp Hwb].
  { destruct Harr as [(Hc & _ & -> & _ & ->)|(c0 & Hc & Hs & ->)]; [done|].
    destruct IH as [[Hc' _]|(c1 & l1 & a1 & Hc1 & Hs1 & Ha1 & Hp1)];
      [congruence|].
    rewrite Hs in Hs1. apply app_inj_tail in Hs1 as [_ ->].
    split; [|intros _;
             by apply (HP (length l, a1)); rewrite Hs, getCurrentState_snoc].
    rewrite Hc in Hc1. injection Hc1 as ->. by destruct (stateId a1). }
  destruct (isRegistered c) eqn:Hreg.
  { destruct H as (_ & Hcf & Hsf). by exists c, l, a. }
  destruct H as (o' & fr & cache & issued & _ & Hfr & H).
  apply handled_cases in H
    as [(c' & a' & Hcf & Hsf & Hid & Hact & _ & ->)
       |(c' & x & next & s & Hcf & Hsf & Hx & _ & Hnext)].
  { exists c, l, a'. by rewrite Hid, Hact. }
  exists c', (l ++ [x]), (nextStateData (now e) a s next).
  rewrite <- app_assoc. split_and!; try done. simpl.
  destruct Hnext as [(Hi & -> & ->)|(Hi & Hacc & -> & d & Hd & ->)].
  { by rewrite Hi in Hp. }
  destruct (Hwb Hi) as [Hgraph [Hname Hvillage]].
  destruct (accepted_inv _ _ _ _ _ _ _ _ _ Hfr Hacc)
    as (sa & d0 & Hsa & Hreq & _ & Hnx & Hd0 & Hfrom).
  specialize (Hgraph sa Hsa Hreq). rewrite <- Hnx in Hgraph.
  destruct (stateId a) eqn:Hstate; simpl in Hgraph;
    repeat (apply elem_of_cons in Hgraph as [Hgraph|Hgraph]);
    try (by apply elem_of_nil in Hgraph); try done; rewrite Hgraph; simpl.
  - apply extract_name_inv in Hd0 as (n & q & Hn & Hfull).
    destruct Hfrom as [Hsame|(g & ? & _)]; [|done].
    rewrite Hd in Hsame. injection Hsame as ->.
    destruct (updated_name (now e) d0 c n Hfull (Hname _ _ Hn))
      as (Hu & Hv & Hr).
    destruct Hp as (_ & Hpv & Hpr).
    rewrite Hu, Hv, Hr. split_and!; eauto.
  - apply extract_village_inv in Hd0 as (v & q & g0 & Hv & Hvn).
    assert (Openai.village_name d = Some v) as Hdv.
    { destruct Hfrom as [Hsame|(g & _ & _ & Hwith)].
      - rewrite Hd in Hsame. by injection Hsame as ->.
      - rewrite Hd in Hwith. by injection Hwith as ->. }
    destruct (updated_village (now e) d c v Hdv (Hvillage _ _ _ Hv))
      as (Hu & Hvil & Hr).
    destruct Hp as (Hpn & _ & _).
    simpl. rewrite Hu. split_and!; eauto.
Qed.

(** Claim C3, as amended: provided the classifier follows the state graph
    and every extraction carries a non-empty field, at every message
    boundary the citizen is registered if and only if the user-provided
    name and the village are both set. *)
Theorem registered_iff_name_and_village w c :
  settled wellBehaved w → citizen w = Some c →
  isRegistered c = true
  ↔ is_Some (userProvidedName c) ∧ is_Some (village c).
Proof.
  intros Hw Hc.
  apply settled_progress in Hw as [[Hnone _]|(c' & l & a & Hc' & _ & _ & Hp)];
    [congruence|].
  rewrite Hc in Hc'. injection Hc' as <-.
  destruct (stateId a); simpl in Hp; destruct Hp as (Hn & Hv & Hr);
    rewrite Hr; split; try done; intros [[? Hn'] [? Hv']]; congruence.
Qed.

(** *** The acceptance test *)

Lemma updated_fields now s d c :
  let c' := updated now s d c in
  userProvidedName c'
  = (if bool_decide (s = awaiting_name) && truthy_opt (Openai.full_name d)
     then Openai.full_name d else userProvidedName c)
  ∧ village c'
    = (if bool_decide (s = awaiting_village)
          && truthy_opt (Openai.village_name d)
       then Some (or_else (Openai.validated_village d)
                          (default [] (Openai.village_name d)))
       else village c)
  ∧ isRegistered c' = isRegistered c.
Proof.
  unfold updated, updateData.
  destruct s; cbn [bool_decide decide_rel andb]; try done.
  - rewrite bool_decide_eq_true_2 by done. cbn [andb].
    rewrite bool_decide_eq_false_2 by done. cbn [andb].
    by destruct (truthy_opt (Openai.full_name d)).
  - rewrite bool_decide_eq_false_2 by done. cbn [andb].
    rewrite bool_decide_eq_true_2 by done. cbn [andb].
    destruct (truthy_opt (Openai.village_name d)); [|done].
    unfold whenSome.
    by destruct (Openai.coordinates d), (truthy_opt (Openai.taluka d)),
      (Openai.geocoding d).
Qed.

(** Claim C1, as amended: the acceptance test compares the classifier's
    own confidence, not the clamped one.  In a non-initial state the
    extraction is merged into the citizen document and the recommended
    state committed exactly when the classifier reported the required data
    with a confidence strictly above 0.7 and the result carries an
    extraction payload; otherwise the message changes neither the citizen
    document nor the sequence of states.  The payload of a geocoded village
    carries the minimum of the extractor's confidence and the geocoding
    score over 100; it is recorded with the result in the state document,
    and it is not what the test compares. *)
Theorem merge_needs_classifier_confidence e number language citizenData w c l a
    fr cache issued :
  citizen w = Some c → states w = l ++ [a] → isActive a = true →
  stateId a ≠ initial →
  Openai.processRegistrationWithFunctions (model e) (provider e) (now e)
    (stateId a) language (geoCache w) = (fr, cache, issued) →
  let out := processRegistrationWithFunctionCalling e number language
               citizenData w in
  (if classifierAccepts (model e)
      && bool_decide (is_Some (Openai.extractedData fr))
   then
     ∃ d c',
       Openai.extractedData fr = Some d
       ∧ citizen (final out) = Some c'
       ∧ userProvidedName c'
         = (if bool_decide (stateId a = awaiting_name)
               && truthy_opt (Openai.full_name d)
            then Openai.full_name d else userProvidedName c)
       ∧ village c'
         = (if bool_decide (stateId a = awaiting_village)
               && truthy_opt (Openai.village_name d)
            then Some (or_else (Openai.validated_village d)
                               (default [] (Openai.village_name d)))
            else village c)
       ∧ isRegistered c'
         = bool_decide (Openai.nextState fr = completed) || isRegistered c
       ∧ stateId <$> states (final out)
         = (stateId <$> states w) ++ [Openai.nextState fr]
   else
     citizen (final out) = citizen w
     ∧ stateId <$> states (final out) = stateId <$> states w
     ∧ isActive <$> states (final out) = isActive <$> states w)
  ∧ match Openai.extractedData fr with
    | Some d =>
        ∃ d0, Openai.extractRegistrationData (model e) (stateId a) = Some d0
              ∧ match Openai.geocoding d with
                | Some g =>
                    Openai.extractionConfidence d
                    = Qmin (Openai.extractionConfidence d0)
                           (inject_Z (Geocoding.confidence g) / 100)
                | None => d = d0
                end
    | None => True
    end
  ∧ ∃ x, states (final out) !! length l = Some x
         ∧ (StateManager.results <$> last (StateManager.functionCallResults x))
           = Some fr.
Proof.
  intros Hc Hs Ha Hi Hfr out.
  destruct (handler_wp e number language citizenData w c l a fr cache issued
              Hc Hs Ha Hfr) as [H _].
  fold out in H. unfold handled in H.
  rewrite decide_False in H by done.
  destruct (process_inv _ _ _ _ _ _ _ _ _ Hfr) as (Hacc & Hge & Hclamp).
  rewrite <- Hacc.
  assert (∀ x : StateRecord,
            StateManager.results
              <$> last (StateManager.functionCallResults
                          (withFunctionResults (now e) fr x)) = Some fr)
    as Hlast.
  { intros x. cbn [withFunctionResults StateManager.functionCallResults].
    by rewrite last_snoc. }
  split; [|split; [exact Hclamp|]].
  - destruct (truthy_opt (Openai.geocodingError fr)) eqn:Hg.
    { assert (accepted fr = false) as Hno.
      { rewrite Hacc, Hge; [by rewrite andb_false_r|].
        destruct (Openai.geocodingError fr); [by eexists|done]. }
      rewrite Hno. destruct H as (Hcf & Hsf & _).
      rewrite Hcf, Hsf, Hc, Hs. by rewrite !fmap_app. }
    destruct (accepted fr) eqn:Hyes.
    2:{ destruct H as [Hcf Hsf]. rewrite Hcf, Hsf, Hc, Hs.
        by rewrite !fmap_app. }
    destruct H as (d & Hd & H).
    destruct (updated_fields (now e) (stateId a) d c) as (Hn & Hv & Hr).
    exists d.
    destruct (decide (Openai.nextState fr = completed)) as [Hnext|Hnext];
      destruct H as [Hcf Hsf]; eexists; rewrite Hcf, Hsf, Hs.
    + rewrite (bool_decide_eq_true_2 (Openai.nextState fr = completed))
        by done.
      split_and!; try done. rewrite !fmap_app, Hnext, <- app_assoc. done.
    + rewrite (bool_decide_eq_false_2 (Openai.nextState fr = completed))
        by done.
      split_and!; try done. by rewrite !fmap_app, <- app_assoc.
  - assert (∃ t, states (final out)
                 = l ++ withFunctionResults (now e) fr a :: t
                 ∨ ∃ s, states (final out)
                        = l ++ deactivated (now e) s
                                 (withFunctionResults (now e) fr a) :: t)
      as (t & Hsf).
    { destruct (truthy_opt (Openai.geocodingError fr)).
      { destruct H as (_ & Hsf & _). exists []. by left. }
      destruct (accepted fr).
      2:{ destruct H as [_ Hsf]. exists []. by left. }
      destruct H as (d & _ & H).
      destruct (decide (Openai.nextState fr = completed));
        destruct H as [_ Hsf]; eexists; right; by eexists. }
    destruct Hsf as [Hsf|[s Hsf]]; rewrite Hsf;
      (eexists; split; [by apply list_lookup_middle|]);
      [apply Hlast|]. cbn [deactivated StateManager.functionCallResults].
    apply Hlast.
Qed.

(** *** Geocoding failures *)

Lemma failure_message_truthy provider now name language cache f cache' issued :
  cacheWithinBoundary cache →
  geocodeVillage provider now name language cache = (Failure f, cache', issued) →
  truthy (message f) = true.
Proof.
  intros Hinv. unfold geocodeVillage.
  destruct (getCachedGeocode now name cache) as [[cached|] c1] eqn:Hc.
  - intros [= -> _ _].
    apply getCachedGeocode_replay in Hc as (_ & id & d & _ & Hd & Hr & _).
    destruct (Hinv _ _ Hd) as (g & Hg & _). congruence.
  - destruct (searchLoop provider language name) as [[best|] highest].
    2:{ intros [= <- _ _]. simpl. by destruct (isMarathi language). }
    destruct (location (geometry best)) as [l|].
    2:{ intros [= <- _ _]. simpl. by destruct (isMarathi language). }
    destruct (isLocationInPuneZP l); simpl; [done|].
    intros [= <- _ _]. simpl. by destruct (isMarathi language).
Qed.

(** Claim C6, as amended: when the geocoding of the extracted village
    fails in ['awaiting_village'], the reply is the validator's message
    verbatim, the citizen document is unchanged, the current state stays
    current and no state is added, and the failure is recorded on the
    current state document: its result is appended to
    [functionCallResults] and its [attempts] counter grows by one.  The
    cache is taken to hold what [geocodeVillage] writes to it, successes
    within the boundary. *)
Theorem geocoding_failure_reprompts e number language citizenData w c l a sa
    v q g f cache' issued :
  citizen w = Some c → states w = l ++ [a] → isActive a = true →
  stateId a = awaiting_village →
  cacheWithinBoundary (geoCache w) →
  Openai.analysis (model e) = Some (Some sa) →
  Openai.has_required_data sa = true →
  Openai.extract_village_info (model e) = Some (v, q, g) →
  truthy v = true →
  geocodeVillage (provider e) (now e) v language (geoCache w)
  = (Failure f, cache', issued) →
  let out := processRegistrationWithFunctionCalling e number language
               citizenData w in
  let fr := Openai.geocodingFailed (Some sa) awaiting_village (message f) in
  let a' := withFunctionResults (now e) fr a in
  value out = {| shouldContinue := false; response := Text (message f);
                 functionCallResults := Some fr |}
  ∧ citizen (final out) = citizen w
  ∧ states (final out) = l ++ [a']
  ∧ stateId a' = awaiting_village ∧ isActive a' = true
  ∧ last (StateManager.functionCallResults a')
    = Some {| timestamp := now e; results := fr;
              StateManager.confidence := 0;
              method := js "function_calling" |}
  ∧ functionCalls (final out) = functionCalls w
  ∧ attempts a' = attempts a + 1.
Proof.
  intros Hc Hs Ha Hid Hcache Hsa Hreq Hv Ht Hgeo out fr a'.
  assert (Openai.processRegistrationWithFunctions (model e) (provider e)
            (now e) (stateId a) language (geoCache w) = (fr, cache', issued))
    as Hfr.
  { unfold Openai.processRegistrationWithFunctions.
    rewrite Hsa, Hid. simpl. rewrite Hreq, Hv. simpl. rewrite Ht.
    by rewrite Hgeo. }
  destruct (handler_wp e number language citizenData w c l a fr cache' issued
              Hc Hs Ha Hfr) as [H _].
  fold out in H. unfold handled in H.
  rewrite decide_False in H by (by rewrite Hid).
  pose proof (failure_message_truthy _ _ _ _ _ _ _ _ Hcache Hgeo) as Htm.
  simpl in H. rewrite Htm in H.
  destruct H as (Hcf & Hsf & Hff & Ho).
  split_and!; try done.
  - congruence.
  - simpl. by rewrite last_snoc.
Qed.

End Claims.

(** * Further properties of the code *)

Import LanguageDetector KnowledgeBase Traffic Ledger.

Section Further.

Context {runtime : Runtime}.

(** ** The messaging service: numbers, rate limits and delivery *)

Lemma filter_isDigit_id l : Forall (λ c, isDigit c = true) l → List.filter isDigit l = l.
Proof.
  induction 1 as [|c l Hc _ IH]; simpl; [done|]. by rewrite Hc, IH.
Qed.

Lemma Forall_filter_isDigit l : Forall (λ c, isDigit c = true) (List.filter isDigit l).
Proof.
  induction l as [|c l IH]; simpl; [constructor|].
  destruct (isDigit c) eqn:E; [by constructor|done].
Qed.

(** Property X1: [cleanPhoneNumber] returns digits only and is idempotent.
    A result of exactly ten digits starts with 91: the country code is added
    to every other ten-digit number, so a ten-digit number that happens to
    begin with 91 is the only one left without it. *)
Theorem cleanPhoneNumber_digits_idempotent (phoneNumber : jsstring) :
  Forall (λ c, isDigit c = true) (cleanPhoneNumber phoneNumber)
  ∧ cleanPhoneNumber (cleanPhoneNumber phoneNumber) = cleanPhoneNumber phoneNumber
  ∧ (if (jslen (cleanPhoneNumber phoneNumber) =? 10)
     then startsWith (js "91") (cleanPhoneNumber phoneNumber) = true
     else True).
Proof.
  pose proof (Forall_filter_isDigit phoneNumber) as Hd.
  unfold cleanPhoneNumber.
  set (c := List.filter isDigit phoneNumber) in *.
  destruct (negb (startsWith (js "91") c) && (jslen c =? 10)) eqn:E.
  - apply andb_true_iff in E as [_ E%Z.eqb_eq].
    assert (Hd' : Forall (λ c, isDigit c = true) (js "91" ++ c)).
    { apply Forall_app; split; [|done]. repeat constructor. }
    assert (Hl : (jslen (js "91" ++ c) =? 10) = false).
    { apply Z.eqb_neq. unfold jslen in *. rewrite length_app. simpl. lia. }
    split_and!; [done| |].
    + rewrite (filter_isDigit_id _ Hd'). by rewrite Hl, andb_false_r.
    + by rewrite Hl.
  - split_and!; [done| |].
    + rewrite (filter_isDigit_id _ Hd). fold c. by rewrite E.
    + destruct (jslen c =? 10); [|done].
      rewrite andb_true_r in E. by apply negb_false_iff in E.
Qed.

Lemma limitOf_pos ty : 0 < limitOf ty.
Proof. unfold limitOf. by case_match. Qed.

Lemma checkRateLimit_other_keys now ty metrics k :
  k ≠ limitKey ty → (checkRateLimit now ty metrics).2 !! k = metrics !! k.
Proof.
  intros Hk. unfold checkRateLimit.
  destruct (limitOf ty <=? _); cbn [snd]; [done|]. by rewrite lookup_insert_ne.
Qed.

Lemma delete_frame {A} (m m' : gmap jsstring A) (i : jsstring) :
  (∀ k, k ≠ i → m' !! k = m !! k) → delete i m' = delete i m.
Proof.
  intros H. apply map_eq. intros k. destruct (decide (k = i)) as [->|Hk].
  - by rewrite !lookup_delete_eq.
  - rewrite !lookup_delete_ne by done. by apply H.
Qed.

(** Property X2: [checkRateLimit] reads and writes the one document of its
    message type.  A refusal writes nothing; after an allowed call the stored
    counter is at most the limit and the stored window has not ended. *)
Theorem checkRateLimit_frame now messageType metrics :
  let out := checkRateLimit now messageType metrics in
  delete (limitKey messageType) out.2 = delete (limitKey messageType) metrics
  ∧ (if out.1
     then ∃ d, out.2 !! limitKey messageType = Some d
               ∧ messageCount d ≤ limitOf messageType ∧ now ≤ resetTime d
     else out.2 = metrics).
Proof.
  cbn zeta. split.
  { apply delete_frame. intros k Hk. by apply checkRateLimit_other_keys. }
  unfold checkRateLimit.
  set (stored := match metrics !! limitKey messageType with
                 | Some data => _ | None => _ end).
  set (current := if stored.2 <? now then _ else stored).
  assert (Hc : now ≤ current.2).
  { unfold current. destruct (Z.ltb_spec stored.2 now); simpl; lia. }
  destruct (Z.leb_spec (limitOf messageType) current.1); simpl; [done|].
  eexists. rewrite lookup_insert_eq. split; [done|]. simpl. lia.
Qed.

Lemma checkRateLimit_within now ty metrics d :
  metrics !! limitKey ty = Some d → resetTime d ≠ 0 → now ≤ resetTime d →
  checkRateLimit now ty metrics
  = if limitOf ty <=? messageCount d then (false, metrics)
    else (true, <[limitKey ty := {| messageCount := messageCount d + 1;
                                    resetTime := resetTime d;
                                    limitedType := ty |}]> metrics).
Proof.
  intros Hd Hr Hn. unfold checkRateLimit. rewrite Hd.
  destruct (Z.eqb_spec (resetTime d) 0); [done|]. simpl.
  destruct (Z.ltb_spec (resetTime d) now); [lia|]. done.
Qed.

Lemma checkRateLimits_within r times ty :
  r ≠ 0 → Forall (λ now, now ≤ r) times →
  ∀ metrics d,
  metrics !! limitKey ty = Some d → resetTime d = r →
  messageCount d ≤ limitOf ty →
  let allowed := (length times `min` Z.to_nat (limitOf ty - messageCount d))%nat in
  let out := checkRateLimits times ty metrics in
  out.1 = replicate allowed true ++ replicate (length times - allowed) false
  ∧ (messageCount <$> out.2 !! limitKey ty)
    = Some (messageCount d + Z.of_nat allowed).
Proof.
  intros Hr Ht.
  induction Ht as [|now times Hnow Ht IH]; intros metrics d Hd Hrd Hle.
  - simpl. rewrite Hd. simpl. split; [done|]. f_equal. lia.
  - cbn [checkRateLimits]. rewrite (checkRateLimit_within _ _ _ d) by (done || lia).
    destruct (Z.leb_spec (limitOf ty) (messageCount d)) as [Hfull|Hroom].
    + destruct (IH metrics d Hd Hrd Hle) as [IH1 IH2].
      destruct (checkRateLimits times ty metrics) as [vs m'].
      cbn [fst snd] in *.
      replace (Z.to_nat (limitOf ty - messageCount d)) with 0%nat in * by lia.
      rewrite Nat.min_0_r in *. cbn [replicate app length] in *.
      rewrite Nat.sub_0_r in *. split; [|done]. by rewrite IH1.
    + set (d' := {| messageCount := messageCount d + 1; resetTime := resetTime d;
                    limitedType := ty |}).
      destruct (IH (<[limitKey ty := d']> metrics) d') as [IH1 IH2];
        [by rewrite lookup_insert_eq|done|simpl; lia|].
      destruct (checkRateLimits times ty _) as [vs m'].
      cbn [fst snd] in *. simpl messageCount in *.
      replace (Z.to_nat (limitOf ty - messageCount d))
        with (S (Z.to_nat (limitOf ty - (messageCount d + 1)))) by lia.
      cbn [length]. rewrite <- Nat.succ_min_distr. cbn [replicate app].
      split; [by rewrite IH1|]. rewrite IH2. f_equal. lia.
Qed.

(** Property X3: within one window the limit is a budget.  Of the calls
    made at instants not after the stored end of the window, exactly the
    first [limit - count] are allowed and the later ones are refused, and the
    counter ends at its old value plus the number of allowed calls. *)
Theorem rate_limit_window times messageType metrics d :
  metrics !! limitKey messageType = Some d →
  resetTime d ≠ 0 →
  Forall (λ now, now ≤ resetTime d) times →
  messageCount d ≤ limitOf messageType →
  let allowed :=
    (length times `min` Z.to_nat (limitOf messageType - messageCount d))%nat in
  let out := checkRateLimits times messageType metrics in
  out.1 = replicate allowed true ++ replicate (length times - allowed) false
  ∧ (messageCount <$> out.2 !! limitKey messageType)
    = Some (messageCount d + Z.of_nat allowed).
Proof.
  intros Hd Hr Ht Hle. by apply (checkRateLimits_within (resetTime d)).
Qed.

Lemma rate_limit_window_witness :
  (checkRateLimits [1000; 2000; 3000; 4000] (js "text") quota).1
  = [true; true; false; false].
Proof.
  refine (proj1 (rate_limit_window [1000; 2000; 3000; 4000] (js "text") quota
            {| messageCount := 998; resetTime := 5000; limitedType := js "text" |}
            _ _ _ _)).
  - reflexivity.
  - done.
  - repeat constructor; done.
  - vm_compute. congruence.
Defined.

Lemma checkRateLimit_refused now ty metrics :
  (checkRateLimit now ty metrics).1 = false →
  (checkRateLimit now ty metrics).2 = metrics.
Proof. unfold checkRateLimit. by destruct (limitOf ty <=? _). Qed.

(** Property X4: once the stored window has ended (or when there is no
    document yet) the next call is allowed whatever the counter was, and
    starts a window of one hour with the counter at one. *)
Theorem rate_limit_new_window now messageType metrics :
  match metrics !! limitKey messageType with
  | Some d => resetTime d ≠ 0 ∧ resetTime d < now
  | None => True
  end →
  checkRateLimit now messageType metrics
  = (true, <[limitKey messageType :=
               {| messageCount := 1; resetTime := now + 3600000;
                  limitedType := messageType |}]> metrics).
Proof.
  intros H. unfold checkRateLimit.
  pose proof (limitOf_pos messageType) as Hpos.
  destruct (metrics !! limitKey messageType) as [d|].
  - destruct H as [Hr Hlt]. destruct (Z.eqb_spec (resetTime d) 0); [done|].
    cbn [fst snd]. destruct (Z.ltb_spec (resetTime d) now); [|lia].
    cbn [fst snd]. destruct (Z.leb_spec (limitOf messageType) 0); [lia|]. done.
  - cbn [fst snd]. destruct (Z.ltb_spec (now + 3600000) now); [lia|].
    cbn [fst snd]. destruct (Z.leb_spec (limitOf messageType) 0); [lia|]. done.
Qed.

Lemma rate_limit_new_window_witness :
  checkRateLimit 6000 (js "text") quota
  = (true, <[limitKey (js "text") :=
               {| messageCount := 1; resetTime := 6000 + 3600000;
                  limitedType := js "text" |}]> quota).
Proof.
  apply (rate_limit_new_window 6000 (js "text") quota).
  vm_compute. split; [congruence|reflexivity].
Defined.

Lemma checkRateLimit_verdict (now : Z) (ty : jsstring) (m m' : Metrics) :
  m !! limitKey ty = m' !! limitKey ty →
  (checkRateLimit now ty m).1 = (checkRateLimit now ty m').1.
Proof.
  intros H. unfold checkRateLimit. rewrite H.
  by destruct (limitOf ty <=? _).
Qed.

(** Property X5: the budgets of two message types with different
    documents are separate: a call for one type changes neither the verdict
    nor the document of the other. *)
Theorem rate_limit_budgets_are_separate now now' messageType other metrics :
  limitKey other ≠ limitKey messageType →
  (checkRateLimit now messageType (checkRateLimit now' other metrics).2).1
  = (checkRateLimit now messageType metrics).1
  ∧ (checkRateLimit now' other metrics).2 !! limitKey messageType
    = metrics !! limitKey messageType.
Proof.
  intros Hk.
  assert (H : (checkRateLimit now' other metrics).2 !! limitKey messageType
              = metrics !! limitKey messageType)
    by (by apply checkRateLimit_other_keys).
  split; [|done]. by apply checkRateLimit_verdict.
Qed.

Lemma rate_limit_budgets_are_separate_witness :
  (checkRateLimit 2000 (js "text")
     (checkRateLimit 1000 (js "interactive") quota).2).1
  = (checkRateLimit 2000 (js "text") quota).1
  ∧ (checkRateLimit 1000 (js "interactive") quota).2 !! limitKey (js "text")
    = quota !! limitKey (js "text").
Proof.
  apply (rate_limit_budgets_are_separate 2000 1000 (js "text")
           (js "interactive") quota).
  vm_compute. congruence.
Defined.

Lemma postParts_spec post pid to total messages i :
  let out := postParts post pid to total i messages in
  out.1 `prefix_of` messages
  ∧ match out.2 with
    | inr results =>
        out.1 = messages
        ∧ part <$> results = seq (i + 1) (length messages)
        ∧ Forall (λ r, totalParts r = total) results
        ∧ Forall2 (λ r k, post pid to k.1 k.2 = inr (messageId r)) results
            (imap (λ j m, ((i + j)%nat, m)) messages)
    | inl e =>
        ∃ body, messages !! length out.1 = Some body
                ∧ post pid to (i + length out.1)%nat body = inl e
    end.
Proof.
  revert i. induction messages as [|m ms IH]; intros i; cbn [postParts].
  - simpl. split; [done|]. split_and!; [done|done|constructor|constructor].
  - destruct (post pid to i m) as [e|response] eqn:Hp; cbn [fst snd].
    + split; [apply prefix_nil|]. exists m. split; [done|].
      simpl. by rewrite Nat.add_0_r.
    + specialize (IH (S i)).
      destruct (postParts post pid to total (S i) ms) as [delivered r].
      cbn [fst snd] in *. destruct IH as [IH1 IH2].
      split; [by apply prefix_cons|].
      destruct r as [e|results].
      * destruct IH2 as (body & Hb & He). exists body. split; [done|].
        cbn [length]. by replace (i + S (length delivered))%nat
          with (S i + length delivered)%nat by lia.
      * destruct IH2 as (-> & Hparts & Htot & Hposts).
        split_and!; [done| | |].
        -- cbn [fmap list_fmap length seq]. simpl part. f_equal.
           by replace (S (i + 1)) with (S i + 1)%nat by lia.
        -- by constructor.
        -- cbn [imap]. constructor.
           ++ simpl. by rewrite Nat.add_0_r.
           ++ erewrite imap_ext; [exact Hposts|].
              intros j x _. simpl. f_equal. lia.
Qed.

(** Property X6: [sendMessage] posts the parts of [splitLongMessage] in
    order and stops at the first failure: the bodies delivered are always a
    prefix of the parts; it reports success only when all of them were
    delivered, to the cleaned number, and then numbers the results from one;
    of the rate-limit documents it can change the text counter only. *)
Theorem sendMessage_delivers_parts_in_order post now phoneNumberId
    recipientNumber message metrics :
  let out := sendMessage post now phoneNumberId recipientNumber message metrics in
  let messages := splitLongMessage message in
  out.2 `prefix_of` messages
  ∧ delete (js "textRateLimit") out.1.2 = delete (js "textRateLimit") metrics
  ∧ match out.1.1 with
    | SendSucceeded results parts =>
        out.2 = messages ∧ parts = length messages
        ∧ part <$> results = seq 1 parts
        ∧ Forall2 (λ r k, post phoneNumberId (cleanPhoneNumber recipientNumber)
                            k.1 k.2 = inr (messageId r))
            results (imap (λ j m, (j, m)) messages)
    | SendFailed _ => True
    end.
Proof.
  unfold sendMessage.
  assert (Hf : delete (js "textRateLimit") (checkRateLimit now (js "text") metrics).2
               = delete (js "textRateLimit") metrics).
  { apply delete_frame. intros k Hk. by apply checkRateLimit_other_keys. }
  destruct (checkRateLimit now (js "text") metrics) as [allowed m'].
  cbn [fst snd] in Hf.
  destruct allowed; cbn [negb].
  - destruct (negb (truthy phoneNumberId) || negb (truthy recipientNumber)
              || negb (truthy message)); cbn [fst snd].
    + split; [apply prefix_nil|]. split; [apply Hf|done].
    + pose proof (postParts_spec post phoneNumberId
                    (cleanPhoneNumber recipientNumber)
                    (length (splitLongMessage message))
                    (splitLongMessage message) 0) as Hp.
      destruct (postParts _ _ _ _ _ _) as [delivered [e|results]];
        cbn [fst snd] in *.
      * split; [apply Hp|]. split; [apply Hf|done].
      * destruct Hp as (Hpre & -> & Hparts & _ & Hposts).
        split; [done|]. split; [apply Hf|]. split_and!; done.
  - cbn [fst snd]. split; [apply prefix_nil|]. split; [apply Hf|done].
Qed.

Lemma split_spaces n : split (js " ") (replicate n 32%N) = replicate (S n) [].
Proof.
  unfold split. change (js " ") with [32%N].
  induction n as [|n IH]; [done|].
  change (splitAux [32%N] 0 [] (replicate (S n) 32%N))
    with ([] :: splitAux [32%N] 0 [] (replicate n 32%N)).
  by rewrite IH.
Qed.

Lemma splitAux_no_match n acc :
  splitAux [10; 10]%N 0 acc (replicate n 32%N)
  = [reverse acc ++ replicate n 32%N].
Proof.
  revert acc. induction n as [|n IH]; intros acc.
  - simpl. by rewrite app_nil_r.
  - change (splitAux [10; 10]%N 0 acc (replicate (S n) 32%N))
      with (splitAux [10; 10]%N 0 (32%N :: acc) (replicate n 32%N)).
    rewrite IH. by rewrite reverse_cons, <- app_assoc.
Qed.

Lemma splitSentencesAux_spaces n prev acc :
  from_option isSentenceEnd false prev = false →
  splitSentencesAux prev false acc (replicate n 32%N)
  = [reverse acc ++ replicate n 32%N].
Proof.
  revert prev acc. induction n as [|n IH]; intros prev acc Hp.
  - simpl. by rewrite app_nil_r.
  - cbn [replicate splitSentencesAux]. rewrite Hp, andb_false_r.
    rewrite IH by done. by rewrite reverse_cons, <- app_assoc.
Qed.

Lemma foldl_wordStep_empty k parts :
  foldl wordStep (parts, []) (replicate k []) = (parts, []).
Proof. induction k as [|k IH]; [done|]. cbn [replicate foldl]. exact IH. Qed.

Lemma paragraphStep_empty_long parts p :
  MAX_LENGTH < jslen p →
  paragraphStep (parts, []) p
  = foldl sentenceStep (parts, []) (splitSentences p).
Proof.
  intros Hp. unfold paragraphStep. cbn [fst snd flush].
  change (jslen []) with 0.
  destruct (Z.ltb_spec MAX_LENGTH (0 + jslen p + 2)); [|lia].
  cbn [Z.ltb Z.compare fst snd].
  destruct (Z.ltb_spec MAX_LENGTH (jslen p)); [done|lia].
Qed.

Lemma sentenceStep_empty_long parts s :
  MAX_LENGTH < jslen s →
  sentenceStep (parts, []) s = foldl wordStep (parts, []) (split (js " ") s).
Proof.
  intros Hp. unfold sentenceStep. cbn [fst snd flush].
  change (jslen []) with 0.
  destruct (Z.ltb_spec MAX_LENGTH (0 + jslen s + 1)); [|lia].
  cbn [Z.ltb Z.compare fst snd].
  destruct (Z.ltb_spec MAX_LENGTH (jslen s)); [done|lia].
Qed.

Lemma splitLongMessage_spaces_lemma n :
  (4000 < n)%nat → splitLongMessage (replicate n 32%N) = [].
Proof.
  intros Hn. unfold splitLongMessage.
  assert (Hlen : MAX_LENGTH < jslen (replicate n 32%N)).
  { unfold jslen, MAX_LENGTH. rewrite length_replicate. lia. }
  destruct (Z.leb_spec (jslen (replicate n 32%N)) MAX_LENGTH); [lia|].
  change (split [10; 10]%N (replicate n 32%N))
    with (splitAux [10; 10]%N 0 [] (replicate n 32%N)).
  rewrite splitAux_no_match.
  change (reverse [] ++ replicate n 32%N) with (replicate n 32%N).
  cbn [foldl]. rewrite paragraphStep_empty_long by done.
  unfold splitSentences. rewrite splitSentencesAux_spaces by done.
  change (reverse [] ++ replicate n 32%N) with (replicate n 32%N).
  cbn [foldl]. rewrite sentenceStep_empty_long by done.
  rewrite split_spaces, foldl_wordStep_empty. done.
Qed.

Lemma within_refl s : within s s.
Proof. exists [], []. by rewrite app_nil_r. Qed.

Lemma within_trans p q s : within p q → within q s → within p s.
Proof.
  intros (a & b & ->) (a' & b' & ->). exists (a' ++ a), (b ++ b').
  by rewrite <- !app_assoc.
Qed.

Lemma within_cons p c s : within p s → within p (c :: s).
Proof. intros (a & b & ->). by exists (c :: a), b. Qed.

Lemma within_app_r p a s : within p s → within p (a ++ s).
Proof. intros (x & b & ->). exists (a ++ x), b. by rewrite <- app_assoc. Qed.

Lemma within_prefix p s : within p (p ++ s).
Proof. by exists [], s. Qed.

Lemma splitAux_infix sep s : ∀ skip acc,
  (skip ≠ 0%nat → acc = []) →
  Forall (λ p, within p (reverse acc ++ s)) (splitAux sep skip acc s).
Proof.
  induction s as [|c s IH]; intros skip acc Hskip; cbn [splitAux].
  - constructor; [|constructor]. rewrite app_nil_r. apply within_refl.
  - destruct skip as [|k].
    + destruct (startsWith sep (c :: s)).
      * constructor; [apply within_prefix|].
        eapply Forall_impl; [apply (IH _ []); done|].
        intros p Hp. simpl in Hp. apply within_app_r. by apply within_cons.
      * eapply Forall_impl; [apply (IH 0%nat (c :: acc)); done|].
        intros p Hp. simpl in Hp. by rewrite reverse_cons, <- app_assoc in Hp.
    + rewrite (Hskip ltac:(done)). 
      eapply Forall_impl; [apply (IH k []); done|].
      intros p Hp. simpl in *. by apply within_cons.
Qed.

Lemma split_infix sep s : Forall (λ p, within p s) (split sep s).
Proof. apply (splitAux_infix sep s 0 []). done. Qed.

Lemma splitSentencesAux_infix s : ∀ prev inMatch acc,
  (inMatch = true → acc = []) →
  Forall (λ p, within p (reverse acc ++ s)) (splitSentencesAux prev inMatch acc s).
Proof.
  induction s as [|c s IH]; intros prev inMatch acc Hm; cbn [splitSentencesAux].
  - constructor; [|constructor]. rewrite app_nil_r. apply within_refl.
  - assert (Hgrow : Forall (λ p, within p (reverse acc ++ c :: s))
                      (splitSentencesAux (Some c) false (c :: acc) s)).
    { eapply Forall_impl; [apply (IH _ false (c :: acc)); done|].
      intros p Hp. simpl in Hp. by rewrite reverse_cons, <- app_assoc in Hp. }
    destruct inMatch.
    + destruct (isWhitespace c); [|done].
      rewrite (Hm eq_refl).
      eapply Forall_impl; [apply (IH _ true []); done|].
      intros p Hp. simpl in *. by apply within_cons.
    + destruct (isWhitespace c && from_option isSentenceEnd false prev); [|done].
      constructor; [apply within_prefix|].
      eapply Forall_impl; [apply (IH _ true []); done|].
      intros p Hp. simpl in Hp. apply within_app_r. by apply within_cons.
Qed.

Lemma splitSentences_infix s : Forall (λ p, within p s) (splitSentences s).
Proof. apply (splitSentencesAux_infix s None false []). done. Qed.

Lemma splitAux_space_free s : ∀ acc,
  Forall (λ c, c ≠ 32%N) acc →
  Forall (Forall (λ c, c ≠ 32%N)) (splitAux [32%N] 0 acc s).
Proof.
  induction s as [|c s IH]; intros acc Hacc; cbn [splitAux].
  - constructor; [|constructor]. by apply Forall_reverse.
  - cbn [startsWith]. rewrite andb_true_r.
    destruct (N.eqb_spec 32 c) as [Hc|Hc].
    + subst c. constructor; [by apply Forall_reverse|]. apply IH. constructor.
    + apply IH. constructor; [congruence|done].
Qed.

Lemma longestWordAux_ge run best s :
  (run `max` best ≤ longestWordAux run best s)%nat.
Proof.
  revert run best. induction s as [|c s IH]; intros run best; cbn [longestWordAux].
  - done.
  - destruct (c =? 32)%N.
    + specialize (IH 0%nat (run `max` best)%nat). lia.
    + specialize (IH (S run) best). lia.
Qed.

Lemma longestWordAux_mono s : ∀ run best run' best',
  (run ≤ run')%nat → (best ≤ best')%nat →
  (longestWordAux run best s ≤ longestWordAux run' best' s)%nat.
Proof.
  induction s as [|c s IH]; intros run best run' best' H1 H2; cbn [longestWordAux].
  - lia.
  - destruct (c =? 32)%N; apply IH; lia.
Qed.

Lemma longestWordAux_word w : ∀ run best b,
  Forall (λ c, c ≠ 32%N) w →
  (run + length w ≤ longestWordAux run best (w ++ b))%nat.
Proof.
  induction w as [|c w IH]; intros run best b Hw; cbn [app longestWordAux length].
  - pose proof (longestWordAux_ge run best b). lia.
  - inversion_clear Hw as [|? ? Hc Hw'].
    destruct (N.eqb_spec c 32); [done|].
    specialize (IH (S run) best b Hw'). lia.
Qed.

Lemma longestWordAux_skip a : ∀ run best t,
  (longestWord t ≤ longestWordAux run best (a ++ t))%nat.
Proof.
  induction a as [|c a IH]; intros run best t; cbn [app longestWordAux].
  - apply longestWordAux_mono; lia.
  - destruct (c =? 32)%N; apply IH.
Qed.

Lemma longestWord_infix w s :
  within w s → Forall (λ c, c ≠ 32%N) w → (length w ≤ longestWord s)%nat.
Proof.
  intros (a & b & ->) Hw.
  etrans; [|apply longestWordAux_skip].
  pose proof (longestWordAux_word w 0 0 b Hw). unfold longestWord. lia.
Qed.

Lemma words_within message :
  Forall (λ paragraph,
    Forall (λ sentence,
      Forall (λ word, (length word ≤ longestWord message)%nat)
        (split (js " ") sentence))
      (splitSentences paragraph))
    (split [10; 10]%N message).
Proof.
  eapply Forall_impl; [apply split_infix|]. intros p Hp. simpl in Hp.
  eapply Forall_impl; [apply splitSentences_infix|]. intros s Hs. simpl in Hs.
  pose proof (split_infix (js " ") s) as Hi.
  pose proof (splitAux_space_free s [] ltac:(constructor)) as Hf.
  change (splitAux [32%N] 0 [] s) with (split (js " ") s) in Hf.
  rewrite Forall_forall in Hi, Hf. apply Forall_forall. intros w Hw.
  apply longestWord_infix; [|by apply Hf].
  eapply within_trans; [by apply Hi|]. by eapply within_trans.
Qed.

Lemma length_trimStart s : (length (trimStart s) ≤ length s)%nat.
Proof.
  induction s as [|c s IH]; cbn [trimStart]; [done|].
  destruct (isWhitespace c); cbn [length]; lia.
Qed.

Lemma jslen_trim s : jslen (trim s) ≤ jslen s.
Proof.
  unfold jslen, trim. rewrite length_reverse.
  pose proof (length_trimStart (reverse (trimStart s))) as H1.
  rewrite length_reverse in H1. pose proof (length_trimStart s). lia.
Qed.

Lemma bounded_flush a : bounded a → bounded (flush a).
Proof.
  destruct a as [parts cur]. intros [Hp Hc]. cbn [fst snd] in *. unfold flush.
  destruct (0 <? jslen cur); [|done].
  split; [|done]. apply Forall_app. split; [done|].
  constructor; [|constructor]. unfold fits in *. pose proof (jslen_trim cur). lia.
Qed.

Lemma flush_empty a : ((flush a).2 = []).
Proof.
  destruct a as [parts cur]. unfold flush. 
  destruct (Z.ltb_spec 0 (jslen cur)); [done|].
  destruct cur; [done|]. unfold jslen in *. simpl in *. lia.
Qed.

Lemma jslen_append sep cur piece :
  jslen (append sep cur piece) ≤ jslen cur + jslen sep + jslen piece.
Proof.
  unfold append, jslen. rewrite !length_app.
  destruct (0 <? Z.of_nat (length cur)); simpl; lia.
Qed.

Lemma bounded_wordStep a word : bounded a → fits word → bounded (wordStep a word).
Proof.
  destruct a as [parts cur]. intros [Hp Hc] Hw. cbn [fst snd] in *.
  unfold wordStep.
  destruct (Z.ltb_spec MAX_LENGTH (jslen cur + jslen word + 1)).
  - destruct (0 <? jslen cur).
    + split; [|done]. apply Forall_app. split; [done|].
      constructor; [|constructor]. unfold fits in *. pose proof (jslen_trim cur). lia.
    + split.
      * apply Forall_app. split; [done|]. constructor; [|constructor].
        unfold fits, jslen. rewrite length_take. unfold MAX_LENGTH. lia.
      * unfold fits, jslen in *. cbn [snd]. rewrite length_drop. lia.
  - split; [done|]. unfold fits in *. cbn [snd].
    pose proof (jslen_append (js " ") cur word) as Ha.
    change (jslen (js " ")) with 1 in Ha. lia.
Qed.

Lemma bounded_words words : ∀ a,
  bounded a → Forall fits words → bounded (foldl wordStep a words).
Proof.
  induction words as [|w ws IH]; intros a Ha Hw; [done|].
  inversion_clear Hw. cbn [foldl]. apply IH; [|done]. by apply bounded_wordStep.
Qed.

Lemma bounded_sentenceStep a sentence :
  bounded a → Forall fits (split (js " ") sentence) →
  bounded (sentenceStep a sentence).
Proof.
  intros Ha Hw. unfold sentenceStep.
  destruct (Z.ltb_spec MAX_LENGTH (jslen a.2 + jslen sentence + 1)).
  - destruct (Z.ltb_spec MAX_LENGTH (jslen sentence)).
    + apply bounded_words; [by apply bounded_flush|done].
    + split; [apply (bounded_flush a Ha)|done].
  - split; [apply Ha|]. unfold fits in *. cbn [snd].
    pose proof (jslen_append (js " ") a.2 sentence) as Hj.
    change (jslen (js " ")) with 1 in Hj. lia.
Qed.

Lemma bounded_sentences sentences : ∀ a,
  bounded a → Forall (λ s, Forall fits (split (js " ") s)) sentences →
  bounded (foldl sentenceStep a sentences).
Proof.
  induction sentences as [|s ss IH]; intros a Ha Hs; [done|].
  inversion_clear Hs. cbn [foldl]. apply IH; [|done]. by apply bounded_sentenceStep.
Qed.

Lemma bounded_paragraphStep a paragraph :
  bounded a →
  Forall (λ s, Forall fits (split (js " ") s)) (splitSentences paragraph) →
  bounded (paragraphStep a paragraph).
Proof.
  intros Ha Hw. unfold paragraphStep.
  destruct (Z.ltb_spec MAX_LENGTH (jslen a.2 + jslen paragraph + 2)).
  - destruct (Z.ltb_spec MAX_LENGTH (jslen paragraph)).
    + apply bounded_sentences; [by apply bounded_flush|done].
    + split; [apply (bounded_flush a Ha)|done].
  - split; [apply Ha|]. unfold fits in *. cbn [snd].
    pose proof (jslen_append [10; 10]%N a.2 paragraph) as Hj.
    change (jslen [10; 10]%N) with 2 in Hj. lia.
Qed.

Lemma bounded_paragraphs paragraphs : ∀ a,
  bounded a →
  Forall (λ p, Forall (λ s, Forall fits (split (js " ") s)) (splitSentences p))
    paragraphs →
  bounded (foldl paragraphStep a paragraphs).
Proof.
  induction paragraphs as [|p ps IH]; intros a Ha Hs; [done|].
  inversion_clear Hs. cbn [foldl]. apply IH; [|done]. by apply bounded_paragraphStep.
Qed.

(** Property X7: when no run of units other than the space is longer
    than 4000, every part of [splitLongMessage] is a body of at most 4000
    units, followed by the part indicator when there are several parts. *)
Theorem splitLongMessage_parts_fit (message : jsstring) :
  Z.of_nat (longestWord message) ≤ MAX_LENGTH →
  ∃ bodies,
    Forall (λ body, jslen body ≤ MAX_LENGTH) bodies
    ∧ splitLongMessage message = numbered bodies.
Proof.
  intros Hlong. unfold splitLongMessage.
  destruct (Z.leb_spec (jslen message) MAX_LENGTH) as [Hshort|_].
  { exists [message]. split; [by constructor|done]. }
  assert (Hb : bounded (foldl paragraphStep ([], []) (split [10; 10]%N message))).
  { apply bounded_paragraphs; [by split; [constructor|]|].
    eapply Forall_impl; [apply words_within|]. intros p Hp. simpl in Hp.
    eapply Forall_impl; [exact Hp|]. intros s Hs. simpl in Hs.
    eapply Forall_impl; [exact Hs|]. intros w Hw. simpl in Hw.
    unfold fits, jslen, MAX_LENGTH in *. lia. }
  destruct (foldl paragraphStep _ _) as [parts cur]. destruct Hb as [Hp Hc].
  cbn [fst snd] in *.
  eexists. split; [|reflexivity].
  destruct (0 <? jslen cur); [|done].
  apply Forall_app. split; [done|]. constructor; [|constructor].
  pose proof (jslen_trim cur). unfold fits in *. lia.
Qed.

Lemma splitLongMessage_parts_fit_witness :
  (4000 < jslen chatter)
  ∧ ∃ bodies,
      Forall (λ body, jslen body ≤ MAX_LENGTH) bodies
      ∧ splitLongMessage chatter = numbered bodies.
Proof.
  split; [by vm_compute|].
  apply (splitLongMessage_parts_fit chatter). by vm_compute.
Defined.

Lemma checkRateLimit_allowed_changes now ty metrics :
  (checkRateLimit now ty metrics).1 = true →
  (checkRateLimit now ty metrics).2 !! limitKey ty ≠ metrics !! limitKey ty.
Proof.
  unfold checkRateLimit.
  set (stored := match metrics !! limitKey ty with
                 | Some data => _ | None => _ end).
  set (current := if stored.2 <? now then _ else stored).
  destruct (Z.leb_spec (limitOf ty) current.1); cbn [fst snd]; [done|].
  intros _. rewrite lookup_insert_eq.
  destruct (metrics !! limitKey ty) as [d|] eqn:Hd; [|done].
  intros [= Heq]. apply (f_equal messageCount) in Heq as Hm.
  apply (f_equal resetTime) in Heq as Hr. cbn [messageCount resetTime] in Hm, Hr.
  subst current stored. cbn [fst snd] in *.
  destruct (Z.eqb_spec (resetTime d) 0);
    destruct (Z.ltb_spec (now + 3600000) now);
    destruct (Z.ltb_spec (resetTime d) now); cbn [fst snd] in *; lia.
Qed.

(** Property X8: the rate limit is checked, and the counter
    incremented, before the parameters are validated: a call with an empty
    sender, recipient or message posts nothing and still uses up one message
    of the hourly budget. *)
Theorem sendMessage_missing_parameter_spends_budget post now phoneNumberId
    recipientNumber message metrics :
  truthy phoneNumberId && truthy recipientNumber && truthy message = false →
  (checkRateLimit now (js "text") metrics).1 = true →
  let out := sendMessage post now phoneNumberId recipientNumber message metrics in
  out.1.1 = failedToSend (js "Missing required parameters for sending message")
  ∧ out.2 = []
  ∧ out.1.2 = (checkRateLimit now (js "text") metrics).2
  ∧ out.1.2 !! js "textRateLimit" ≠ metrics !! js "textRateLimit".
Proof.
  intros Hmiss Hok.
  pose proof (checkRateLimit_allowed_changes _ _ _ Hok) as Hch.
  unfold sendMessage.
  destruct (checkRateLimit now (js "text") metrics) as [allowed m'].
  cbn [fst snd] in *. subst allowed. cbn [negb].
  replace (negb (truthy phoneNumberId) || negb (truthy recipientNumber)
           || negb (truthy message)) with true.
  - done.
  - symmetry. rewrite <- !negb_andb. by rewrite Hmiss.
Qed.

Lemma sendMessage_missing_parameter_spends_budget_witness :
  let out := sendMessage (λ _ _ _ _, inr None) 1000 (js "100200300") number []
               quota in
  out.2 = []
  ∧ messageCount <$> out.1.2 !! js "textRateLimit" = Some 999.
Proof.
  pose proof (sendMessage_missing_parameter_spends_budget
                (λ _ _ _ _, inr None) 1000 (js "100200300") number [] quota
                eq_refl eq_refl) as (_ & Hd & Hm & _).
  split; [exact Hd|]. rewrite Hm. reflexivity.
Defined.

(** Property X9: a message of more than 4000 spaces is split into no
    part at all, so [sendMessage] posts nothing and reports success with zero
    parts. *)
Theorem sendMessage_blank_message_reported_sent n post now phoneNumberId
    recipientNumber metrics :
  (4000 < n)%nat →
  truthy phoneNumberId = true → truthy recipientNumber = true →
  (checkRateLimit now (js "text") metrics).1 = true →
  let blanks := replicate n 32%N in
  let out := sendMessage post now phoneNumberId recipientNumber blanks metrics in
  splitLongMessage blanks = []
  ∧ out.1.1 = SendSucceeded [] 0
  ∧ out.2 = [].
Proof.
  intros Hn Hp Hr Hok. cbn zeta.
  pose proof (splitLongMessage_spaces_lemma n Hn) as Hs.
  split; [done|]. unfold sendMessage.
  destruct (checkRateLimit now (js "text") metrics) as [allowed m'].
  cbn [fst snd] in *. subst allowed. cbn [negb].
  rewrite Hp, Hr. rewrite Hs.
  destruct n as [|n']; [lia|]. done.
Qed.

Lemma sendMessage_blank_message_reported_sent_witness :
  let out := sendMessage (λ _ _ _ _, inl (js "unreachable")) 1000
               (js "100200300") number (replicate 4001 32%N) quota in
  out.1.1 = SendSucceeded [] 0 ∧ out.2 = [].
Proof.
  refine (proj2 (sendMessage_blank_message_reported_sent 4001
                   (λ _ _ _ _, inl (js "unreachable")) 1000 (js "100200300")
                   number quota _ _ _ _)).
  - lia.
  - reflexivity.
  - reflexivity.
  - reflexivity.
Defined.

(** ** Language detection and the confidence of a response *)

(** Property X11: [detectLanguage] answers 'mr' or 'en' and nothing
    else.  When the library detects a language, its first detection decides
    (Marathi and Hindi give 'mr') and the model is not consulted; otherwise
    the answer is 'mr' exactly when the model's reply contains "mr". *)
Theorem detectLanguage_supported library answer :
  let language := detectLanguage library answer in
  (language = js "mr" ∨ language = js "en")
  ∧ match library with
    | Detections (code :: _) =>
        language = (if bool_decide (code = js "mr" ∨ code = js "hi")
                    then js "mr" else js "en")
    | _ =>
        language = js "mr"
        ↔ ∃ content, answer = Some content
                     ∧ includes (toLowerCase (trim content)) (js "mr") = true
    end.
Proof.
  assert (Hm : ∀ a, let l := Openai.detectMessageLanguage a in
            (l = js "mr" ∨ l = js "en")
            ∧ (l = js "mr" ↔ ∃ content, a = Some content
                  ∧ includes (toLowerCase (trim content)) (js "mr") = true)).
  { intros [content|]; cbn.
    - destruct (includes _ _) eqn:E.
      + split; [by left|]. split; [by eexists|done].
      + split; [by right|]. split; [done|]. intros (c & [= <-] & Hc). congruence.
    - split; [by right|]. split; [done|]. by intros (c & [=] & _). }
  assert (Hc : ∀ code, mapLanguageCode code
             = if bool_decide (code = js "mr" ∨ code = js "hi")
               then js "mr" else js "en").
  { intros code. unfold mapLanguageCode, jseqb.
    destruct (decide (code = js "mr")) as [->|Hmr]; [done|].
    destruct (decide (code = js "hi")) as [->|Hhi]; [done|].
    rewrite !bool_decide_eq_false_2; [done| |done|done]. by intros [|]. }
  unfold detectLanguage.
  destruct library as [|[|code rest]]; cbn [detectWithLibrary]; try apply Hm.
  rewrite Hc. case_bool_decide; simpl; (split; [auto|done]).
Qed.

Lemma Qdiv_same (n : nat) : (0 < n)%nat →
  (inject_Z (Z.of_nat n) / inject_Z (Z.of_nat n) == 1)%Q.
Proof.
  intros Hn. apply Qmult_inv_r. unfold Qeq. simpl. lia.
Qed.

Lemma Qle_bool_ratio (a : Z) (b : positive) (m n : Z) :
  0 < n →
  Qle_bool (a # b) (inject_Z m / inject_Z n) = true ↔ a * n ≤ m * Z.pos b.
Proof.
  intros Hn. rewrite Qle_bool_iff. destruct n as [|p|p]; try lia.
  unfold Qle, Qdiv, Qmult, Qinv, inject_Z. simpl. lia.
Qed.

Lemma length_filter_le {A} (f : A → bool) l :
  (length (List.filter f l) ≤ length l)%nat.
Proof. induction l as [|x l IH]; simpl; [done|]. destruct (f x); simpl; lia. Qed.

(** Property X12: [calculateResponseConfidence] takes one of six values,
    and the lowest one, 0.1, exactly when the response contains a negative
    indicator, however many keywords it matches. *)
Theorem calculateResponseConfidence_levels response query :
  let confidence := calculateResponseConfidence response query in
  confidence ∈ [0.1; 0.2; 0.3; 0.5; 0.7; 0.9]%Q
  ∧ (confidence = 0.1%Q
     ↔ Exists (λ indicator, includes (toLowerCase response) indicator = true)
         negativeIndicators).
Proof.
  cbn zeta. unfold calculateResponseConfidence.
  set (lr := toLowerCase response). set (ws := queryWords query).
  set (found := List.filter (λ word, includes lr word) ws).
  destruct (existsb _ negativeIndicators) eqn:Hneg.
  - split; [listed|]. split; [|done]. intros _. apply Exists_exists.
    apply existsb_exists in Hneg as (x & Hx & Hi). exists x.
    split; [by apply list_elem_of_In|done].
  - assert (Hnone : ¬ Exists (λ indicator, includes lr indicator = true)
                      negativeIndicators).
    { intros (x & Hx & Hi)%Exists_exists.
      assert (existsb (λ i, includes lr i) negativeIndicators = true); [|congruence].
      apply existsb_exists. exists x. split; [by apply list_elem_of_In|done]. }
    assert (Hcases : (if (length found =? 0)%nat then 0.2%Q
                      else if Qle_bool 0.8 (inject_Z (Z.of_nat (length found))
                                            / inject_Z (Z.of_nat (length ws)))
                      then 0.9%Q
                      else if Qle_bool 0.6 (inject_Z (Z.of_nat (length found))
                                            / inject_Z (Z.of_nat (length ws)))
                      then 0.7%Q
                      else if Qle_bool 0.4 (inject_Z (Z.of_nat (length found))
                                            / inject_Z (Z.of_nat (length ws)))
                      then 0.5%Q else 0.3%Q)
                     ∈ [0.2; 0.3; 0.5; 0.7; 0.9]%Q).
    { repeat case_match; listed. }
    split; [by apply list_elem_of_further|].
    split; [|by intros ?%Hnone]. intros Heq. rewrite Heq in Hcases.
    unlisted Hcases.
Qed.

(** Property X13: for a response without negative indicator the
    confidence is 0.2 exactly when no keyword of the query is found, and 0.9
    exactly when at least four fifths of the keywords are found.  (A query
    without keywords gives 0.2; the ratio is never taken of zero
    keywords.) *)
Theorem calculateResponseConfidence_keywords response query :
  Forall (λ indicator, includes (toLowerCase response) indicator = false)
    negativeIndicators →
  let confidence := calculateResponseConfidence response query in
  let found :=
    List.filter (λ word, includes (toLowerCase response) word)
      (queryWords query) in
  (confidence = 0.2%Q ↔ found = [])
  ∧ (confidence = 0.9%Q
     ↔ found ≠ [] ∧ (4 * length (queryWords query) ≤ 5 * length found)%nat).
Proof.
  intros Hall. cbn zeta. unfold calculateResponseConfidence.
  set (lr := toLowerCase response) in *. set (ws := queryWords query).
  set (found := List.filter (λ word, includes lr word) ws).
  replace (existsb _ negativeIndicators) with false.
  2:{ symmetry. apply not_true_is_false. intros (x & Hx & Hi)%existsb_exists.
      rewrite Forall_forall in Hall. apply list_elem_of_In in Hx.
      specialize (Hall x Hx). simpl in Hall. congruence. }
  pose proof (length_filter_le (λ word, includes lr word) ws) as Hle.
  fold found in Hle.
  destruct (Nat.eqb_spec (length found) 0) as [H0|H0].
  - apply length_zero_iff_nil in H0. split; [done|].
    split; [discriminate|]. by intros [? _].
  - assert (Hne : found ≠ []) by (by intros Heq; rewrite Heq in H0).
    set (ratio := (inject_Z (Z.of_nat (length found))
                   / inject_Z (Z.of_nat (length ws)))%Q).
    pose proof (Qle_bool_ratio 8 10 (Z.of_nat (length found))
                  (Z.of_nat (length ws)) ltac:(lia)) as H8.
    fold ratio in H8. change (8 # 10) with 0.8%Q in H8.
    split.
    + split; [|done]. repeat case_match; discriminate.
    + destruct (Qle_bool 0.8 ratio) eqn:E.
      * split; [|done]. intros _. split; [done|]. 
        destruct H8 as [H8 _]. specialize (H8 eq_refl). lia.
      * split.
        -- repeat case_match; discriminate.
        -- intros [_ Hr]. destruct H8 as [_ H8].
           assert (false = true) by (apply H8; lia). congruence.
Qed.

(** ** Geocoding: cache keys, scores and administrative details *)

Lemma lowerUnit_cases c :
  (lowerUnit c = c ∧ ¬ (65 ≤ c ≤ 90) ∧ ¬ (192 ≤ c ≤ 222 ∧ c ≠ 215))%N
  ∨ (lowerUnit c = c + 32 ∧ (65 ≤ c ≤ 90 ∨ 192 ≤ c ≤ 222))%N.
Proof.
  unfold lowerUnit.
  destruct ((65 <=? c) && (c <=? 90))%N eqn:E1.
  - right. split; [done|].
    apply andb_true_iff in E1 as [?%N.leb_le ?%N.leb_le]. lia.
  - destruct ((192 <=? c) && (c <=? 222) && negb (c =? 215))%N eqn:E2.
    + right. split; [done|].
      apply andb_true_iff in E2 as [E2 _].
      apply andb_true_iff in E2 as [?%N.leb_le ?%N.leb_le]. lia.
    + left. split; [done|]. split; intros H.
      * assert ((65 <=? c) && (c <=? 90) = true)%N; [|congruence].
        apply andb_true_iff; split; apply N.leb_le; lia.
      * assert ((192 <=? c) && (c <=? 222) && negb (c =? 215) = true)%N;
          [|congruence].
        rewrite !andb_true_iff, negb_true_iff, N.eqb_neq, !N.leb_le. lia.
Qed.

Lemma lowerUnit_idem c : lowerUnit (lowerUnit c) = lowerUnit c.
Proof.
  destruct (lowerUnit_cases c) as [(E & _)|(E & Hc)]; [by rewrite !E|].
  rewrite E.
  destruct (lowerUnit_cases (c + 32)) as [(E' & _)|(_ & Hc')]; [done|lia].
Qed.

Lemma isWhitespace_lowerUnit c : isWhitespace (lowerUnit c) = isWhitespace c.
Proof.
  destruct (lowerUnit_cases c) as [(E & _)|(E & Hc)]; rewrite E; [done|].
  unfold isWhitespace. cases_N.
Qed.

Lemma fold_idem (s : jsstring) :
  lowerUnit <$> (lowerUnit <$> s) = lowerUnit <$> s.
Proof.
  rewrite <- list_fmap_compose. apply list_fmap_ext.
  intros _ c _. apply lowerUnit_idem.
Qed.

Lemma basicLatin_fold s : basicLatin s → basicLatin (lowerUnit <$> s).
Proof.
  unfold basicLatin. rewrite Forall_fmap. intros Hs.
  eapply Forall_impl; [exact Hs|]. intros c Hc. unfold compose.
  cbn beta in Hc. destruct (lowerUnit_cases c) as [(E & _)|(E & Hr)]; rewrite E; lia.
Qed.

Lemma basicLatin_trimStart s : basicLatin s → basicLatin (trimStart s).
Proof.
  unfold basicLatin. induction 1 as [|c s Hc Hs IH]; [done|]. cbn.
  destruct (isWhitespace c); [done|by constructor].
Qed.

Lemma basicLatin_trim s : basicLatin s → basicLatin (trim s).
Proof.
  intros Hs. unfold trim, basicLatin. apply Forall_reverse.
  apply basicLatin_trimStart. apply Forall_reverse.
  by apply basicLatin_trimStart.
Qed.

Lemma trimStart_fold (s : jsstring) :
  trimStart (lowerUnit <$> s) = lowerUnit <$> trimStart s.
Proof.
  induction s as [|c s IH]; [done|]. cbn. rewrite isWhitespace_lowerUnit.
  destruct (isWhitespace c); [exact IH|done].
Qed.

Lemma trim_fold (s : jsstring) : trim (lowerUnit <$> s) = lowerUnit <$> trim s.
Proof.
  unfold trim. by rewrite trimStart_fold, <- fmap_reverse, trimStart_fold,
    fmap_reverse.
Qed.

Lemma trimStart_split s :
  ∃ w, s = w ++ trimStart s ∧ Forall (λ c, isWhitespace c = true) w.
Proof.
  induction s as [|c s (w & IH & Hw)]; [by exists []|]. cbn.
  destruct (isWhitespace c) eqn:E.
  - exists (c :: w). split; [by rewrite IH at 1|by constructor].
  - by exists [].
Qed.

Lemma trimStart_clean s :
  match s with [] => True | c :: _ => isWhitespace c = false end →
  trimStart s = s.
Proof. destruct s as [|c s]; [done|]. cbn. by intros ->. Qed.

Lemma trimStart_head s :
  match trimStart s with [] => True | c :: _ => isWhitespace c = false end.
Proof.
  induction s as [|c s IH]; [done|]. cbn. destruct (isWhitespace c) eqn:E; [done|].
  done.
Qed.

Lemma trimStart_idem s : trimStart (trimStart s) = trimStart s.
Proof. apply trimStart_clean, trimStart_head. Qed.

Lemma trim_idem s : trim (trim s) = trim s.
Proof.
  unfold trim. set (t := trimStart s). set (u := trimStart (reverse t)).
  assert (Hru : trimStart (reverse u) = reverse u).
  { apply trimStart_clean.
    destruct (trimStart_split (reverse t)) as (w & Hw & _). fold u in Hw.
    apply (f_equal reverse) in Hw. rewrite reverse_involutive, reverse_app in Hw.
    pose proof (trimStart_head s) as Ht. fold t in Ht. rewrite Hw in Ht.
    destruct (reverse u); [done|]. exact Ht. }
  rewrite Hru, reverse_involutive. unfold u. by rewrite trimStart_idem.
Qed.

Lemma cacheKey_fold name :
  (∀ s, basicLatin s → toLowerCase s = lowerUnit <$> s) →
  basicLatin name →
  cacheKey name = lowerUnit <$> trim name ∧ basicLatin (cacheKey name).
Proof.
  intros Hfold Hname. unfold cacheKey.
  rewrite (Hfold _ Hname), trim_fold.
  split; [done|]. by apply basicLatin_fold, basicLatin_trim.
Qed.

(** Property X14: on a runtime whose [toLowerCase] folds a string of Basic
    Latin unit by unit ([A]..[Z] to [a]..[z], every other unit kept), the
    cache key of a name of Basic Latin is a normal form: taking the key of
    a key, of the lower-cased name or of the trimmed name gives the same
    key, and a key is lower-case and trimmed. *)
Theorem cacheKey_normal_form name :
  (∀ s, basicLatin s → toLowerCase s = lowerUnit <$> s) →
  basicLatin name →
  cacheKey (cacheKey name) = cacheKey name
  ∧ cacheKey (toLowerCase name) = cacheKey name
  ∧ cacheKey (trim name) = cacheKey name
  ∧ toLowerCase (cacheKey name) = cacheKey name
  ∧ trim (cacheKey name) = cacheKey name.
Proof.
  intros Hfold Hname.
  destruct (cacheKey_fold name Hfold Hname) as [Hkey Hlatin].
  split_and!.
  - destruct (cacheKey_fold _ Hfold Hlatin) as [-> _].
    by rewrite Hkey, <- trim_fold, fold_idem, trim_fold, trim_idem.
  - rewrite (Hfold _ Hname).
    destruct (cacheKey_fold _ Hfold (basicLatin_fold _ Hname)) as [-> _].
    by rewrite <- trim_fold, fold_idem, trim_fold.
  - destruct (cacheKey_fold _ Hfold (basicLatin_trim _ Hname)) as [-> _].
    by rewrite trim_idem.
  - by rewrite (Hfold _ Hlatin), Hkey, fold_idem.
  - by rewrite Hkey, <- trim_fold, trim_idem.
Qed.

Lemma getCachedGeocode_frame now name cache k :
  documentId (cacheKey name) ≠ Some k →
  (getCachedGeocode now name cache).2 !! k = cache !! k.
Proof.
  intros Hk. unfold getCachedGeocode.
  destruct (documentId (cacheKey name)) as [id|]; [|done].
  destruct (cache !! id) as [d|]; [|done].
  destruct (Qlt_bool _ _); cbn [snd]; [done|].
  rewrite lookup_delete_ne; [done|]. by intros ->.
Qed.

Lemma geocodeVillage_no_query provider now name language
    cache :
  (geocodeVillage provider now name language cache).2 = [] →
  (geocodeVillage provider now name language cache).1.2 = cache.
Proof.
  unfold geocodeVillage.
  destruct (getCachedGeocode now name cache) as [[hit|] cache0] eqn:Hg.
  - intros _. cbn [fst snd].
    by apply getCachedGeocode_replay in Hg as [-> _].
  - destruct (searchLoop provider language name) as [[best|] h]; [|done].
    destruct (location (geometry best)); [|done].
    by destruct (negb _).
Qed.

Lemma geocodeVillage_queries provider now name language
    cache :
  ((geocodeVillage provider now name language cache).2 = [] →
   (geocodeVillage provider now name language cache).1.2 = cache)
  ∧ ((geocodeVillage provider now name language cache).2 ≠ [] →
     (geocodeVillage provider now name language cache).2 = searchQueries name
     ∧ (getCachedGeocode now name cache).1 = None).
Proof.
  split; [apply geocodeVillage_no_query|].
  unfold geocodeVillage.
  destruct (getCachedGeocode now name cache) as [[hit|] cache0] eqn:Hg; [done|].
  intros _. split; [|done].
  destruct (searchLoop provider language name) as [[best|] h]; [|done].
  destruct (location (geometry best)); [|done].
  by destruct (negb _).
Qed.

Lemma geocodeVillage_document provider now name language cache id :
  documentId (cacheKey name) = Some id →
  let out := geocodeVillage provider now name language cache in
  (∀ k, k ≠ id → out.1.2 !! k = cache !! k)
  ∧ (out.2 = []
     ↔ ∃ d, cache !! id = Some d ∧ now - cachedAt d < 86400000)
  ∧ match out.1.2 !! id with
    | Some d => result d = out.1.1
    | None => success out.1.1 = false
    end.
Proof.
  intros Hid. cbn zeta.
  assert (Hframe : ∀ k, k ≠ id →
            (getCachedGeocode now name cache).2 !! k = cache !! k).
  { intros k Hk. apply getCachedGeocode_frame. rewrite Hid. congruence. }
  destruct (cache !! id) as [d|] eqn:Hd.
  - destruct (Z.lt_ge_cases (now - cachedAt d) 86400000) as [Hy|Ho].
    + unfold geocodeVillage. rewrite (getCachedGeocode_hit _ _ _ _ _ Hid Hd Hy).
      cbn [fst snd]. rewrite Hd. split_and!; [done| |done].
      split; [by exists d|done].
    + pose proof (getCachedGeocode_expired _ _ _ _ _ Hid Hd Ho) as Hex.
      pose proof (geocodeVillage_on_miss provider _ _ language _ _ Hex) as [Hi Hc].
      rewrite Hex in Hframe. cbn [snd] in Hframe.
      unfold cacheGeocode in Hc. rewrite Hid in Hc.
      destruct (geocodeVillage provider now name language cache)
        as [[r cache'] issued]. cbn [fst snd] in *. subst issued.
      split_and!.
      * intros k Hk. destruct r; subst cache'; [|by apply Hframe].
        rewrite lookup_insert_ne by done. by apply Hframe.
      * split; [done|]. intros (d' & [= <-] & Hlt). lia.
      * destruct r; subst cache'.
        -- by rewrite lookup_insert_eq.
        -- by rewrite lookup_delete_eq.
  - pose proof (getCachedGeocode_absent now _ _ _ Hid Hd) as Hmiss.
    pose proof (geocodeVillage_on_miss provider _ _ language _ _ Hmiss) as [Hi Hc].
    unfold cacheGeocode in Hc. rewrite Hid in Hc.
    destruct (geocodeVillage provider now name language cache)
      as [[r cache'] issued]. cbn [fst snd] in *. subst issued.
    split_and!.
    + intros k Hk. destruct r; subst cache'; [|done].
      by rewrite lookup_insert_ne.
    + split; [done|]. by intros (d' & [=] & _).
    + destruct r; subst cache'.
      * by rewrite lookup_insert_eq.
      * by rewrite Hd.
Qed.

Lemma geocodeVillage_rejected provider now name language cache :
  documentId (cacheKey name) = None →
  let out := geocodeVillage provider now name language cache in
  out.1.2 = cache ∧ out.2 = searchQueries name.
Proof.
  intros Hid. cbn zeta.
  pose proof (getCachedGeocode_rejected now _ cache Hid) as Hmiss.
  pose proof (geocodeVillage_on_miss provider _ _ language _ _ Hmiss) as [Hi Hc].
  unfold cacheGeocode in Hc. rewrite Hid in Hc.
  split; [|done]. by destruct (geocodeVillage _ _ _ _ _).1.1.
Qed.

(** Property X15: [geocodeVillage] touches no cache document but the
    one its key names.  When the key names a document, the provider is
    queried exactly when that document is missing or at least 24 hours old;
    afterwards the document, if there is one, holds the result returned, and
    there is none only after a failure.  When the key names no document,
    the cache is left as it is and the provider is queried.  A call that
    queries the provider does so with the four templates. *)
Theorem geocodeVillage_touches_one_document provider now name language cache :
  let out := geocodeVillage provider now name language cache in
  match documentId (cacheKey name) with
  | Some id =>
      delete id out.1.2 = delete id cache
      ∧ (out.2 = []
         ↔ ∃ d, cache !! id = Some d ∧ now - cachedAt d < 86400000)
      ∧ match out.1.2 !! id with
        | Some d => result d = out.1.1
        | None => success out.1.1 = false
        end
  | None => out.1.2 = cache ∧ out.2 = searchQueries name
  end
  ∧ (out.2 = [] ∨ out.2 = searchQueries name).
Proof.
  cbn zeta. split.
  - destruct (documentId (cacheKey name)) as [id|] eqn:Hid.
    + destruct (geocodeVillage_document provider now name language cache id Hid)
        as (H1 & H2 & H3).
      split_and!; [by apply delete_frame|done..].
    + by apply geocodeVillage_rejected.
  - destruct (geocodeVillage_queries provider now name language cache)
      as [_ Hq].
    destruct (geocodeVillage provider now name language cache).2 eqn:E;
      [by left|right]. by apply Hq.
Qed.

Lemma sumZ_bounds {A} (f : A → Z) (b : Z) l :
  (∀ a, 0 ≤ f a ≤ b) → 0 ≤ sumZ f l ≤ b * Z.of_nat (length l).
Proof.
  intros Hf. induction l as [|a l IH]; [simpl; lia|].
  cbn [sumZ foldr length] in *. fold (sumZ f l). specialize (Hf a). lia.
Qed.

(** Property X16: the relevance score is not negative, and at most 150
    per address component plus 45. *)
Theorem relevance_score_bounds r searchTerm :
  0 ≤ calculateRelevanceScore r searchTerm
    ≤ 150 * Z.of_nat (length (address_components r)) + 45.
Proof.
  rewrite calculateRelevanceScore_weighted. unfold weightedScore.
  pose proof (sumZ_bounds (nameBonus searchTerm) 100 (address_components r)) as H1.
  pose proof (sumZ_bounds districtBonus 30 (address_components r)) as H2.
  pose proof (sumZ_bounds regionBonus 20 (address_components r)) as H3.
  assert (0 ≤ addressBonus searchTerm r ≤ 25) by (unfold addressBonus; case_match; lia).
  assert (0 ≤ tierBonus r ≤ 20) by (unfold tierBonus; repeat case_match; lia).
  destruct H1 as [? ?]; [intros a; unfold nameBonus; repeat case_match; lia|].
  destruct H2 as [? ?]; [intros a; unfold districtBonus; case_match; lia|].
  destruct H3 as [? ?]; [intros a; unfold regionBonus; case_match; lia|].
  lia.
Qed.

Lemma foldl_keep_strict name l b h r s :
  foldl (keep name) (b, h) l = (Some r, s) →
  (b = Some r ∧ s = h) ∨ h < s.
Proof.
  revert b h. induction l as [|c l IH]; intros b h; cbn [foldl].
  - intros [= -> ->]. by left.
  - unfold keep at 2. cbn [fst snd].
    destruct (Z.ltb_spec h (calculateRelevanceScore c name)) as [Hlt|Hge].
    + intros [[_ ->]|Hs]%IH; right; lia.
    + apply IH.
Qed.

(** Property X17: a success that does not come from the cache has a
    score above zero (a candidate that scores zero is never kept), carries
    the queried name and the instant of the call, has coordinates of
    latitude 18.0 to 19.5 and longitude 73.5 to 75.0, takes score and
    address from one of the candidates, and is stored in the document that
    the key of the name names; when the key names no document, nothing is
    stored. *)
Theorem fresh_success_is_scored_and_stored provider now name language cache
    cache0 g cache' issued :
  getCachedGeocode now name cache = (None, cache0) →
  geocodeVillage provider now name language cache = (Success g, cache', issued) →
  0 < Geocoding.confidence g
  ∧ villageName g = name ∧ Geocoding.geocodedAt g = now
  ∧ (18 <= Geocoding.latitude (Geocoding.coordinates g)
     ∧ Geocoding.latitude (Geocoding.coordinates g) <= 19.5
     ∧ 73.5 <= Geocoding.longitude (Geocoding.coordinates g)
     ∧ Geocoding.longitude (Geocoding.coordinates g) <= 75)%Q
  ∧ (∃ best, best ∈ candidates provider language name
             ∧ Geocoding.confidence g = calculateRelevanceScore best name
             ∧ Geocoding.formattedAddress g = formatted_address best)
  ∧ cache'
    = match documentId (cacheKey name) with
      | Some id =>
          <[id := {| cachedName := name; result := Success g;
                     cachedAt := now |}]> cache0
      | None => cache0
      end.
Proof.
  intros Hmiss. unfold geocodeVillage. rewrite Hmiss.
  pose proof (foldl_keep name (candidates provider language name) None 0) as Hk.
  pose proof (foldl_keep_strict name (candidates provider language name) None 0)
    as Hs.
  rewrite <- searchLoop_candidates in Hk, Hs. cbn zeta in Hk.
  destruct (searchLoop provider language name) as [[best|] highest]; [|done].
  specialize (Hs best highest eq_refl).
  destruct Hs as [[[=] _]|Hpos].
  destruct Hk as (_ & _ & [[=]|(r & [= <-] & Hin & Hscore)]).
  cbn [fst snd] in *.
  destruct (location (geometry best)) as [l|]; [|done].
  destruct (isLocationInPuneZP l) eqn:Hin'; cbn [negb]; [|done].
  apply isLocationInPuneZP_rectangle in Hin'.
  intros [= <- <- <-]. unfold geocodeResultOf.
  cbn [Geocoding.confidence villageName Geocoding.geocodedAt
       Geocoding.formattedAddress Geocoding.coordinates Geocoding.latitude
       Geocoding.longitude].
  split_and!; try done; try tauto.
  by exists best.
Qed.

(** Property X18: in [extractAdministrativeDetails] the last matching
    component wins, and a component counts for the first field whose type it
    carries: a locality is never a taluka, a locality or third-level area
    never a district. *)
Theorem administrative_details_last_match_wins r :
  let tagged t c := arrayIncludes (types c) (js t) in
  let isVillage c := tagged "locality" c || tagged "sublocality" c in
  let isTaluka c := negb (isVillage c) && tagged "administrative_area_level_3" c in
  let isDistrict c :=
    negb (isVillage c) && negb (tagged "administrative_area_level_3" c)
    && tagged "administrative_area_level_2" c in
  let details := extractAdministrativeDetails r in
  Geocoding.village details
  = long_name <$> last (List.filter isVillage (address_components r))
  ∧ Geocoding.taluka details
    = long_name <$> last (List.filter isTaluka (address_components r))
  ∧ Geocoding.district details
    = long_name <$> last (List.filter isDistrict (address_components r)).
Proof.
  cbn zeta. unfold extractAdministrativeDetails.
  induction (address_components r) as [|c cs IH] using rev_ind; [done|].
  rewrite foldl_app, !List.filter_app. cbn [foldl List.filter].
  destruct IH as (IH1 & IH2 & IH3). unfold detailStep.
  destruct (arrayIncludes (types c) (js "locality")
            || arrayIncludes (types c) (js "sublocality")); cbn [negb andb].
  { rewrite last_snoc, !app_nil_r. done. }
  destruct (arrayIncludes (types c) (js "administrative_area_level_3"));
    cbn [negb andb].
  { rewrite last_snoc, !app_nil_r. done. }
  destruct (arrayIncludes (types c) (js "administrative_area_level_2"));
    cbn [negb andb].
  { rewrite last_snoc, !app_nil_r. done. }
  rewrite !app_nil_r. repeat case_match; done.
Qed.

(** ** The state manager *)

Lemma fmap_alter_same {A B} (f : A → B) (g : A → A) (l : list A) (i : nat) :
  (∀ x, f (g x) = f x) → f <$> alter g i l = f <$> l.
Proof.
  intros H. revert i. induction l as [|x l IH]; intros [|i]; cbn; [done..| |].
  - by rewrite H.
  - f_equal. apply IH.
Qed.

Lemma fmap_alter_const {A B} (f : A → B) (g : A → A) (b : B) (l : list A)
    (i : nat) :
  (∀ x, f (g x) = b) → is_Some (l !! i) →
  f <$> alter g i l = <[i := b]> (f <$> l).
Proof.
  intros H. revert i. induction l as [|x l IH]; intros [|i] [y Hy]; cbn;
    try done.
  - by rewrite H.
  - f_equal. apply IH. by exists y.
Qed.

(** Property X20: the two writes of the state manager are local.
    [updateStateWithFunctionResults] changes no state identifier and no
    active flag, and counts one attempt on the current document;
    [completeStateTransition] keeps the state identifiers, adds the next
    state at the end, makes the current document inactive and the new one
    active; on a document that does not exist both change nothing. *)
Theorem state_writes_are_local now current fr s next (states : States) :
  let u := StateManager.updateStateWithFunctionResults now current fr states in
  let c := StateManager.completeStateTransition now current s next states in
  stateId <$> u.2 = stateId <$> states
  ∧ isActive <$> u.2 = isActive <$> states
  ∧ (if u.1
     then (attempts <$> u.2 !! current.1)
          = (λ r, attempts r + 1) <$> states !! current.1
     else u.2 = states)
  ∧ (if c.1
     then stateId <$> c.2 = (stateId <$> states) ++ [next]
          ∧ isActive <$> c.2
            = <[current.1 := false]> (isActive <$> states) ++ [true]
     else c.2 = states).
Proof.
  cbn zeta. unfold StateManager.updateStateWithFunctionResults,
    StateManager.completeStateTransition.
  destruct (states !! current.1) as [r|] eqn:Hr; cbn [fst snd]; [|done].
  split_and!.
  - by apply fmap_alter_same.
  - by apply fmap_alter_same.
  - by rewrite list_lookup_alter_eq, Hr.
  - rewrite fmap_app.
    by rewrite (fmap_alter_same stateId (deactivated now s)) by done.
  - rewrite fmap_app.
    by rewrite (fmap_alter_const isActive _ false) by (done || by exists r).
Qed.

(** ** The orchestrator: answers, ledgers and history *)

(** Property X21: [processRegistrationWithFunctions] queries the
    geocoding provider only in [awaiting_village], for a non-empty extracted
    village name that the cache does not answer, and then with the four
    templates of that name; in every other case it leaves the cache as it
    was. *)
Theorem provider_queried_only_for_villages m provider now s language cache :
  let out :=
    Openai.processRegistrationWithFunctions m provider now s language cache in
  match out.2 with
  | [] => out.1.2 = cache
  | _ :: _ =>
      s = awaiting_village
      ∧ ∃ v q g,
          Openai.extract_village_info m = Some (v, q, g)
          ∧ truthy v = true
          ∧ (getCachedGeocode now v cache).1 = None
          ∧ out.2 = searchQueries v
          ∧ out.1.2 = (geocodeVillage provider now v language cache).1.2
  end.
Proof.
  cbn zeta. unfold Openai.processRegistrationWithFunctions.
  destruct (Openai.analysis m) as [sa|]; [|done].
  destruct (from_option _ _ sa); [|done].
  destruct s; try done.
  destruct (Openai.extractRegistrationData m awaiting_village) as [d|] eqn:Hd;
    [|done].
  apply extract_village_inv in Hd as (v & q & g & Hv & Hd). rewrite Hd.
  cbn [truthy_opt from_option].
  destruct (truthy v) eqn:Ht; [|done].
  pose proof (geocodeVillage_queries provider now v language
                cache) as (Hnone & Hsome).
  destruct (geocodeVillage provider now v language cache)
    as [[r c'] issued] eqn:Hgv.
  cbn [fst snd] in *.
  assert (Hgoal : match issued with
                  | [] => c' = cache
                  | _ :: _ =>
                      awaiting_village = awaiting_village
                      ∧ ∃ v0 q0 g0,
                          Openai.extract_village_info m = Some (v0, q0, g0)
                          ∧ truthy v0 = true
                          ∧ (getCachedGeocode now v0 cache).1 = None
                          ∧ issued = searchQueries v0
                          ∧ c' = (geocodeVillage provider now v0 language
                                    cache).1.2
                  end).
  { destruct issued as [|x xs]; [by apply Hnone|].
    destruct Hsome as [Hq Hmiss]; [done|].
    split; [done|]. exists v, q, g. rewrite Hgv. split_and!; done. }
  destruct r; cbn [fst snd]; exact Hgoal.
Qed.

Lemma wp_updateCitizen_frame now s d c w (Q : unit → World → Prop)
    (T : World → Prop) :
  citizen w = Some c →
  (∀ w', citizen w' = Some (updated now s d c) → states w' = states w →
         sameLedger w w' → T w' ∧ Q tt w') →
  wp (updateCitizenDataFromFunctions now s d) w Q T.
Proof.
  intros Hc H. unfold updateCitizenDataFromFunctions.
  unfold updated in H.
  destruct (updateData s d) as [f|].
  - apply wp_bind, wp_get. rewrite Hc. by apply wp_write; apply H.
  - by apply wp_ret, H.
Qed.

Lemma process_no_query m provider now s language cache fr cache' :
  Openai.processRegistrationWithFunctions m provider now s language cache
  = (fr, cache', []) → cache' = cache.
Proof.
  unfold Openai.processRegistrationWithFunctions.
  destruct (Openai.analysis m) as [sa|]; [|by intros [= <- <-]].
  destruct (from_option _ _ sa); [|by intros [= <- <-]].
  destruct s; try by intros [= <- <-].
  destruct (Openai.extractRegistrationData m awaiting_village) as [d|];
    [|by intros [= <- <-]].
  destruct (truthy_opt (Openai.village_name d)); [|by intros [= <- <-]].
  pose proof (geocodeVillage_no_query provider now
                (from_option (λ x, x) [] (Openai.village_name d)) language cache)
    as Hg.
  destruct (geocodeVillage _ _ _ _ _) as [[r c'] issued]. cbn [fst snd] in Hg.
  destruct r; intros [= <- <- ->]; by apply Hg.
Qed.

Lemma handler_reply_wp e number language cd w c l a fr cache issued :
  citizen w = Some c → states w = l ++ [a] → isActive a = true →
  Openai.processRegistrationWithFunctions (model e) (provider e) (now e)
    (stateId a) language (geoCache w) = (fr, cache, issued) →
  wp (processRegistrationWithFunctionCalling e number language cd) w
     (answered (now e) w a fr cache issued) (λ _, True).
Proof.
  intros Hc Hs Ha Hfr. unfold processRegistrationWithFunctionCalling, answered.
  apply wp_bind, (wp_getCurrentState _ l a); [done..|].
  apply wp_bind, wp_ret. simpl.
  destruct (decide (stateId a = initial)) as [Hi|Hi].
  { apply wp_bind, (wp_completeTransition _ _ _ _ _ a); [done|done|].
    by apply wp_ret. }
  apply wp_bind. unfold processRegistrationWithFunctions.
  apply wp_bind, wp_get. rewrite Hfr.
  set (w1 := match issued with [] => w | _ => setGeo cache issued w end).
  assert (citizen w1 = Some c ∧ states w1 = l ++ [a]
          ∧ functionCalls w1 = functionCalls w
          ∧ geoCache w1 = cache
          ∧ providerLog w1 = providerLog w ++ issued)
    as (Hc1 & Hs1 & Hf1 & Hg1 & Hp1).
  { subst w1. destruct issued; [|done].
    apply process_no_query in Hfr as ->. by rewrite app_nil_r. }
  apply (wp_mono _ _ (λ r w', r = fr ∧ w' = w1)).
  { subst w1. destruct issued.
    - by apply wp_ret.
    - apply wp_bind, wp_write; [done|by apply wp_ret]. }
  intros ? ? [-> ->].
  destruct (truthy_opt (Openai.geocodingError fr)).
  { apply wp_bind, (wp_updateState _ _ _ _ a); [done|done|].
    apply wp_ret. simpl. by rewrite app_nil_r. }
  apply wp_bind, (wp_updateState _ _ _ _ a); [done|done|].
  apply wp_bind, wp_bind, wp_write; [done|].
  apply wp_ret. simpl negb. rewrite andb_true_l.
  destruct (accepted fr) eqn:Hacc; [|by apply wp_ret; simpl; rewrite Hf1].
  destruct (Openai.extractedData fr) as [d|] eqn:Hd.
  2:{ unfold accepted in Hacc. rewrite Hd in Hacc.
      rewrite andb_true_iff, andb_true_iff, bool_decide_eq_true in Hacc.
      destruct Hacc as [[_ []] _]. done. }
  apply wp_bind, (wp_updateCitizen_frame _ _ _ c); [done|].
  simpl. intros w' Hc' Hs' (Hf' & Hg' & Hp'). split; [done|].
  simpl in Hf', Hg', Hp'.
  destruct (decide (Openai.nextState fr = completed)) as [Hn|Hn].
  - apply wp_bind,
      (wp_completeRegistration _ _ _ (withFunctionResults (now e) fr a)
         (updated (now e) (stateId a) d c)); [done|done|done|done|].
    apply wp_ret. simpl. rewrite Hf', Hg', Hp', Hf1.
    by rewrite bool_decide_eq_true_2.
  - apply wp_bind,
      (wp_completeTransition _ _ _ _ _ (withFunctionResults (now e) fr a));
      [done|done|].
    apply wp_ret. simpl. rewrite Hf', Hg', Hp', Hf1.
    by rewrite bool_decide_eq_false_2.
Qed.

Lemma answered_from w w2 now a fr cache issued o wf :
  sameLedger w w2 →
  answered now w2 a fr cache issued o wf → answered now w a fr cache issued o wf.
Proof.
  unfold answered, sameLedger. intros (H1 & H2 & H3). by rewrite H1, H2, H3.
Qed.

Lemma message_reply e number language displayName w :
  fresh w ∨ wellFormed w →
  wp (processMessage e number language displayName) w
     (replied e language w) (λ _, True).
Proof.
  intros Hw. unfold processMessage, replied.
  apply wp_bind. unfold getOrCreateCitizen. apply wp_bind, wp_get.
  destruct Hw as [[Hc Hs]|(c0 & l & a & Hc & Hs & Ha & Hl)]; rewrite Hc.
  - apply wp_bind, wp_write; [done|].
    apply wp_bind, wp_createStateRecord; simpl; [done|].
    apply wp_ret. simpl. rewrite Hs. simpl.
    apply wp_bind.
    destruct (Openai.processRegistrationWithFunctions (model e) (provider e)
      (now e) initial language (geoCache w)) as [[fr cache] issued] eqn:Hfr.
    eapply wp_mono.
    + eapply (handler_reply_wp e number language _ _ _ [] _ fr cache issued);
        simpl; try done.
    + simpl. intros o wf Hh. apply wp_ret. split; [done|].
      eexists _, fr, cache, issued. split; [|split; [done|]].
      2:{ eapply answered_from; [|exact Hh]. done. }
      done.
  - set (c := setProfile _ (now e) c0).
    apply wp_bind, wp_write; [done|].
    apply wp_ret. rewrite Hs, getCurrentState_snoc by done.
    cbn [from_option snd fmap option_fmap option_map].
    change (isRegistered c) with (isRegistered c0).
    destruct (isRegistered c0) eqn:Hreg.
    + apply wp_ret. split_and!; done.
    + apply wp_bind.
      destruct (Openai.processRegistrationWithFunctions (model e) (provider e)
        (now e) (stateId a) language (geoCache w)) as [[fr cache] issued] eqn:Hfr.
      eapply wp_mono.
      * eapply (handler_reply_wp e number language _ _ c l a fr cache issued);
          simpl; try done.
      * simpl. intros o wf Hh. apply wp_ret. split; [done|].
        exists a, fr, cache, issued. split; [done|]. split; [done|].
        eapply answered_from; [|exact Hh]. done.
Qed.

Lemma isRegistered_updated now s d c :
  isRegistered (updated now s d c) = isRegistered c.
Proof.
  unfold updated, updateData.
  destruct s; try done.
  - by destruct (truthy_opt (Openai.full_name d)).
  - destruct (truthy_opt (Openai.village_name d)); [|done]. cbn.
    destruct (Openai.coordinates d), (Openai.geocoding d),
      (truthy_opt (Openai.taluka d)); done.
Qed.

Lemma settled_consistent w : settled anyAnswer w → fresh w ∨ consistent w.
Proof.
  induction 1 as [w Hw|w e number language dn Hset IH _]; [by left|right].
  pose proof (settled_inv _ _ Hset) as Hinv.
  destruct (message_wp e number language dn w Hinv) as [HQ _].
  destruct HQ as (c & l & a & Harr & Ha & Hl & H).
  assert (Hca : isRegistered c = true ↔ stateId a = completed).
  { destruct Harr as [(_ & _ & -> & _ & ->)|(c0 & Hc0 & Hs0 & ->)]; [done|].
    destruct IH as [[Hn _]|(c1 & l1 & a1 & Hc1 & Hs1 & _ & _ & Hiff)];
      [congruence|].
    rewrite Hc0 in Hc1. injection Hc1 as <-. rewrite Hs0 in Hs1.
    apply app_inj_tail in Hs1 as [_ <-]. exact Hiff. }
  destruct (isRegistered c) eqn:Hreg.
  { destruct H as (_ & Hc & Hs). exists c, l, a. by rewrite Hreg. }
  destruct H as (o' & fr & cache & issued & _ & _ & H).
  apply handled_cases in H
    as [(c' & a' & Hc & Hs & Hid & Ha' & _ & ->)
       |(c' & x & next & s & Hc & Hs & _ & Hx & Hnext)].
  - exists c, l, a'. rewrite Ha', Hid, Hreg. done.
  - exists c', (l ++ [x]), (nextStateData (now e) a s next).
    rewrite <- app_assoc. split_and!; try done.
    { apply Forall_app. split; [done|]. by constructor. }
    change (stateId (nextStateData (now e) a s next)) with next.
    destruct Hnext as [(_ & -> & ->)|(_ & _ & -> & d & _ & ->)].
    + by rewrite Hreg.
    + destruct (decide (Openai.nextState fr = completed)) as [Hn|Hn].
      * done.
      * rewrite isRegistered_updated, Hreg. done.
Qed.

Lemma consistent_current w c d :
  consistent w → citizen w = Some c →
  StateManager.getCurrentState (states w) = Some d →
  isRegistered c = true ↔ stateId d.2 = completed.
Proof.
  intros (c' & l & a & Hc & Hs & Ha & _ & Hiff) Hc' Hd.
  rewrite Hc in Hc'. injection Hc' as <-.
  rewrite Hs, getCurrentState_snoc in Hd by done. by injection Hd as <-.
Qed.

(** Property X22: at every message boundary, whatever the collaborators
    answered, the citizen is registered exactly when the current state is
    [completed]. *)
Theorem registered_iff_completed_state w c d :
  settled anyAnswer w → citizen w = Some c →
  StateManager.getCurrentState (states w) = Some d →
  isRegistered c = true ↔ stateId d.2 = completed.
Proof.
  intros [[Hn _]|Hw]%settled_consistent Hc Hd; [congruence|].
  by apply (consistent_current w).
Qed.

(** Property X23: [completed] is terminal.  A message that arrives in
    this state is not passed to the registration: no state document, no
    function-call document, no cache entry is written and the provider is
    not queried, whatever the collaborators would answer. *)
Theorem completed_state_is_terminal w d e number language displayName :
  settled anyAnswer w →
  StateManager.getCurrentState (states w) = Some d →
  stateId d.2 = completed →
  let out := processMessage e number language displayName w in
  value out = None
  ∧ states (final out) = states w
  ∧ functionCalls (final out) = functionCalls w
  ∧ geoCache (final out) = geoCache w
  ∧ providerLog (final out) = providerLog w
  ∧ (isRegistered <$> citizen (final out)) = Some true.
Proof.
  intros Hset Hd Hdone. cbn zeta.
  pose proof (settled_inv _ _ Hset) as Hinv.
  apply settled_consistent in Hset as [[_ Hs]|Hcons];
    [by rewrite Hs in Hd|].
  destruct (message_wp e number language displayName w Hinv) as [HQ _].
  destruct (message_reply e number language displayName w Hinv) as [HR _].
  destruct Hcons as (c & l & a & Hc & Hs & Ha & _ & Hiff).
  rewrite Hs, getCurrentState_snoc in Hd by done. injection Hd as <-.
  cbn [snd] in Hdone. apply Hiff in Hdone.
  unfold replied in HR.
  destruct (value (processMessage e number language displayName w)) as [o|].
  { destruct HR as [HR _]. rewrite Hc in HR. cbn in HR. congruence. }
  destruct HR as (_ & (H1 & H2 & H3) & H4).
  split_and!; try done.
  destruct HQ as (c' & l' & a' & Harr & _ & _ & H).
  destruct Harr as [(Hn & _)|(c0 & Hc0 & _ & ->)]; [congruence|].
  rewrite Hc0 in Hc. injection Hc as ->.
  change (isRegistered (setProfile _ _ c)) with (isRegistered c) in H.
  rewrite Hdone in H. destruct H as (_ & -> & _). cbn. by rewrite Hdone.
Qed.

Lemma arrives_current e number displayName w c l a :
  arrives e number displayName w c l a → isActive a = true →
  from_option (λ d : StateDoc, stateId d.2) initial
    (StateManager.getCurrentState (states w)) = stateId a.
Proof.
  intros [(_ & -> & _ & _ & ->)|(c0 & _ & -> & _)] Ha; [done|].
  by rewrite getCurrentState_snoc.
Qed.

(** What one message leaves, with the answer: the two descriptions of
    the same run. *)
Lemma message_run e number language displayName w :
  fresh w ∨ wellFormed w →
  let out := processMessage e number language displayName w in
  afterMessage e number language displayName w (value out) (final out)
  ∧ replied e language w (value out) (final out).
Proof.
  intros Hw. split.
  - apply (message_wp e number language displayName w Hw).
  - apply (message_reply e number language displayName w Hw).
Qed.

(** Property X24: the registration is skipped exactly for registered
    citizens, and when it runs it tells the controller to continue with the
    regular conversation exactly when this message completed the
    registration. *)
Theorem continue_iff_registration_completed w e number language displayName :
  settled anyAnswer w →
  let out := processMessage e number language displayName w in
  match value out with
  | Some o =>
      (isRegistered <$> citizen w) ≠ Some true
      ∧ (shouldContinue o = true
         ↔ (isRegistered <$> citizen (final out)) = Some true)
  | None => (isRegistered <$> citizen w) = Some true
  end.
Proof.
  intros Hset. cbn zeta.
  pose proof (settled_inv _ _ Hset) as Hinv.
  destruct (message_run e number language displayName w Hinv) as [HQ HR].
  destruct (processMessage e number language displayName w) as [[o wf] t].
  unfold value, final in *. cbn [fst snd] in *.
  destruct o as [o|]; [|by destruct HR].
  destruct HR as (Hunreg & a' & fr' & cache' & issued' & Ha' & Hfr' & Hans).
  split; [done|].
  destruct HQ as (c & l & a & Harr & Ha & Hl & H).
  pose proof (arrives_current _ _ _ _ _ _ _ Harr Ha) as Hcur.
  rewrite Hcur in Hfr', Ha'.
  destruct (isRegistered c) eqn:Hreg; [by destruct H|].
  destruct H as (o' & fr & cache & issued & [= <-] & Hfr & H).
  rewrite Hfr in Hfr'. injection Hfr' as <- <- <-.
  unfold answered in Hans. unfold handled in H. rewrite Ha' in Hans.
  destruct (decide (stateId a = initial)).
  { destruct Hans as (-> & _). destruct H as [-> _]. cbn. by rewrite Hreg. }
  destruct Hans as (_ & _ & _ & -> & _).
  destruct (truthy_opt (Openai.geocodingError fr)).
  { destruct H as [-> _]. cbn. by rewrite Hreg. }
  destruct (accepted fr).
  2:{ destruct H as [-> _]. cbn. by rewrite Hreg. }
  destruct H as (d & _ & H).
  destruct (decide (Openai.nextState fr = completed)) as [Hn|Hn];
    destruct H as [-> _]; cbn.
  - by rewrite bool_decide_eq_true_2.
  - rewrite bool_decide_eq_false_2 by done.
    by rewrite isRegistered_updated, Hreg.
Qed.

(** Property X25: the [functionCalls] sub-collection only grows, by one
    document per message handled outside the initial state, except when the
    village validation failed; the document holds the state of the message
    and the result returned to the controller. *)
Theorem function_call_log_grows_by_one w e number language displayName :
  settled anyAnswer w →
  let out := processMessage e number language displayName w in
  let s :=
    from_option (λ d : StateDoc, stateId d.2) initial
      (StateManager.getCurrentState (states w)) in
  functionCalls (final out)
  = functionCalls w
    ++ match value out ≫= functionCallResults with
       | Some fr =>
           if truthy_opt (Openai.geocodingError fr) then []
           else [callDoc (now e) s fr]
       | None => []
       end.
Proof.
  intros Hset. cbn zeta.
  pose proof (settled_inv _ _ Hset) as Hinv.
  destruct (message_reply e number language displayName w Hinv) as [HR _].
  unfold replied in HR.
  destruct (value (processMessage e number language displayName w)) as [o|];
    cbn [mbind option_bind].
  2:{ destruct HR as (_ & (-> & _) & _). by rewrite app_nil_r. }
  destruct HR as (_ & a & fr & cache & issued & Ha & _ & Hans).
  unfold answered in Hans. rewrite <- Ha.
  destruct (decide (stateId a = initial)).
  { destruct Hans as (_ & -> & -> & _). by rewrite app_nil_r. }
  by destruct Hans as (-> & _ & _ & _ & ->).
Qed.

(** Property X26: cache and provider log after a message are those of
    the one call of [processRegistrationWithFunctions] in the current state;
    in the states [initial] and [completed] they are unchanged. *)
Theorem geocoding_ledger_follows_the_call w e number language displayName :
  settled anyAnswer w →
  let out := processMessage e number language displayName w in
  let s :=
    from_option (λ d : StateDoc, stateId d.2) initial
      (StateManager.getCurrentState (states w)) in
  let call :=
    Openai.processRegistrationWithFunctions (model e) (provider e) (now e) s
      language (geoCache w) in
  if bool_decide (s = initial ∨ s = completed)
  then geoCache (final out) = geoCache w
       ∧ providerLog (final out) = providerLog w
  else geoCache (final out) = call.1.2
       ∧ providerLog (final out) = providerLog w ++ call.2.
Proof.
  intros Hset. cbn zeta.
  pose proof (settled_inv _ _ Hset) as Hinv.
  pose proof (settled_consistent _ Hset) as Hcons.
  destruct (message_reply e number language displayName w Hinv) as [HR _].
  unfold replied in HR.
  set (s := from_option _ initial _) in *.
  destruct (value (processMessage e number language displayName w)) as [o|].
  - destruct HR as (Hunreg & a & fr & cache & issued & Ha & Hfr & Hans).
    unfold answered in Hans. rewrite Ha in Hans. rewrite Hfr. cbn [fst snd].
    destruct (decide (s = initial)) as [Hi|Hi].
    { rewrite bool_decide_eq_true_2 by by left.
      by destruct Hans as (_ & _ & _ & ? & ?). }
    assert (Hnc : s ≠ completed).
    { intros Hc. destruct Hcons as [[_ Hs]|Hcons].
      - subst s. by rewrite Hs in Hi.
      - destruct Hcons as (c & l & a0 & Hc0 & Hs & Ha0 & _ & Hiff).
        subst s. rewrite Hs, getCurrentState_snoc in Hc by done.
        cbn in Hc. apply Hiff in Hc. rewrite Hc0 in Hunreg. cbn in Hunreg.
        congruence. }
    rewrite bool_decide_eq_false_2 by by intros [|].
    by destruct Hans as (_ & ? & ? & _).
  - destruct HR as (Hreg & (_ & H2 & H3) & _).
    destruct Hcons as [[Hn _]|Hcons]; [by rewrite Hn in Hreg|].
    destruct Hcons as (c & l & a0 & Hc0 & Hs & Ha0 & _ & Hiff).
    rewrite Hc0 in Hreg. injection Hreg as Hreg. apply Hiff in Hreg.
    subst s. rewrite Hs, getCurrentState_snoc by done. cbn [from_option snd].
    by rewrite bool_decide_eq_true_2 by by right.
Qed.

(** Property X27: every message handled in [awaiting_name] or
    [awaiting_village] counts one attempt on the document that was current,
    stamps it with the instant of the message and appends one result to it,
    also when the message commits the transition. *)
Theorem attempts_count_handled_messages w d e number language displayName :
  settled anyAnswer w →
  StateManager.getCurrentState (states w) = Some d →
  stateId d.2 ≠ initial → stateId d.2 ≠ completed →
  let out := processMessage e number language displayName w in
  match states (final out) !! d.1 with
  | Some r =>
      stateId r = stateId d.2
      ∧ attempts r = attempts d.2 + 1
      ∧ lastAttemptAt r = Some (now e)
      ∧ length (StateManager.functionCallResults r)
        = S (length (StateManager.functionCallResults d.2))
  | None => False
  end.
Proof.
  intros Hset Hd Hi Hnc. cbn zeta.
  pose proof (settled_inv _ _ Hset) as Hinv.
  apply settled_consistent in Hset as [[_ Hs]|Hcons]; [by rewrite Hs in Hd|].
  destruct (message_wp e number language displayName w Hinv) as [HQ _].
  destruct Hcons as (c & l & a & Hc & Hs & Ha & _ & Hiff).
  rewrite Hs, getCurrentState_snoc in Hd by done. injection Hd as <-.
  cbn [fst snd] in *.
  destruct HQ as (c' & l' & a' & Harr & _ & _ & H).
  destruct Harr as [(Hn & _)|(c0 & Hc0 & Hs0 & ->)]; [congruence|].
  rewrite Hs in Hs0. apply app_inj_tail in Hs0 as [<- <-].
  rewrite Hc0 in Hc. injection Hc as ->.
  change (isRegistered (setProfile _ _ c)) with (isRegistered c) in H.
  destruct (isRegistered c) eqn:Hreg; [by destruct Hnc; apply Hiff|].
  destruct H as (o' & fr & cache & issued & _ & _ & H).
  unfold handled in H. rewrite decide_False in H by done.
  assert (Hlen : ∀ r, length (StateManager.functionCallResults
                                (withFunctionResults (now e) fr r))
                      = S (length (StateManager.functionCallResults r))).
  { intros r. cbn. rewrite length_app. cbn. lia. }
  destruct (truthy_opt (Openai.geocodingError fr)).
  { destruct H as (_ & -> & _). rewrite lookup_snoc.
    split_and!; first [done | apply Hlen]. }
  destruct (accepted fr).
  2:{ destruct H as (_ & ->). rewrite lookup_snoc.
      split_and!; first [done | apply Hlen]. }
  destruct H as (x & _ & H).
  destruct (decide (Openai.nextState fr = completed));
    destruct H as (_ & ->);
    rewrite (list_lookup_middle l [_] _ (length l)) by done;
    (split_and!; first [done | apply Hlen]).
Qed.

(** Property X28: the history of states is append-only.  A message
    leaves the documents before the current one untouched (they are
    inactive), keeps the sequence of state identifiers as a prefix and adds
    at most two documents. *)
Theorem state_history_is_append_only w e number language displayName :
  settled anyAnswer w →
  let out := processMessage e number language displayName w in
  let older := (length (states w) - 1)%nat in
  take older (states (final out)) = take older (states w)
  ∧ stateId <$> states w `prefix_of` stateId <$> states (final out)
  ∧ (length (states (final out)) ≤ length (states w) + 2)%nat
  ∧ Forall (λ r, isActive r = false) (take older (states w)).
Proof.
  intros Hset. cbn zeta.
  pose proof (settled_inv _ _ Hset) as Hinv.
  destruct (message_wp e number language displayName w Hinv) as [HQ _].
  destruct HQ as (c & l & a & Harr & Ha & Hl & H).
  assert (Hcases : ∃ tail, states (final (processMessage e number language
                                           displayName w)) = l ++ tail
                    ∧ (1 ≤ length tail ≤ 2)%nat
                    ∧ stateId <$> take 1 tail = [stateId a]).
  { destruct (isRegistered c).
    { destruct H as (_ & _ & ->). exists [a]. cbn. split_and!; (done || lia). }
    destruct H as (o' & fr & cache & issued & _ & _ & H).
    apply handled_cases in H
      as [(c' & a' & _ & -> & Hid & _)|(c' & x & next & s & _ & -> & Hid & _)].
    - exists [a']. cbn. rewrite Hid. split_and!; (done || lia).
    - eexists [x; _]. cbn. rewrite Hid. split_and!; (done || lia). }
  destruct Hcases as (tail & -> & Hlen & Hid).
  destruct Harr as [(_ & Hs & _ & -> & _)|(c0 & _ & Hs & _)]; rewrite Hs.
  - cbn. split_and!; [done|apply prefix_nil|lia|constructor].
  - rewrite !length_app. cbn [length].
    replace (length l + 1 - 1)%nat with (length l) by lia.
    rewrite !take_app_length. split_and!; [done| |lia|done].
    rewrite !fmap_app. apply prefix_app.
    destruct tail as [|t tail]; [cbn in Hlen; lia|].
    cbn in Hid. injection Hid as Hid. cbn. rewrite Hid.
    by apply prefix_cons, prefix_nil.
Qed.

(** Property X29: once a citizen has a state document, exactly one
    state document is active at every instant, also between the writes of
    one message, whatever the collaborators answer. *)
Theorem exactly_one_active_state_once_created w :
  observed anyAnswer w →
  if decide (states w = []) then True else activeCount (states w) = 1%nat.
Proof.
  intros [w1 Hw|w0 e number language dn w1 Hw _ Hin].
  - apply settled_inv in Hw as [[_ Hs]|(c & l & a & _ & Hs & Ha & Hl)].
    + by rewrite decide_True.
    + rewrite decide_False by (rewrite Hs; by destruct l).
      rewrite Hs. apply (tailShape_exactlyOne l); [done|]. by apply tailShape_one.
  - apply settled_inv in Hw.
    destruct (message_writes e number language dn w0 Hw) as [_ HT].
    rewrite Forall_forall in HT. specialize (HT _ Hin). revert HT.
    by destruct (decide (states _ = [])).
Qed.

Lemma updated_own_field now s d c :
  (s ≠ awaiting_name → userProvidedName (updated now s d c) = userProvidedName c)
  ∧ (s ≠ awaiting_village →
     village (updated now s d c) = village c
     ∧ CitizenService.coordinates (updated now s d c) = CitizenService.coordinates c
     ∧ geocodingInfo (updated now s d c) = geocodingInfo c).
Proof.
  unfold updated, updateData. destruct s; split; intros Hs; try done.
  - by destruct (truthy_opt (Openai.full_name d)).
  - destruct (truthy_opt (Openai.village_name d)); [|done]. cbn.
    destruct (Openai.coordinates d), (Openai.geocoding d),
      (truthy_opt (Openai.taluka d)); done.
Qed.

(** Property X30: a message changes the name only when it is handled
    in [awaiting_name], and village, coordinates and geocoding information
    only when it is handled in [awaiting_village]. *)
Theorem registration_data_is_written_in_its_own_state w d e number language
    displayName :
  settled anyAnswer w →
  StateManager.getCurrentState (states w) = Some d →
  let out := processMessage e number language displayName w in
  (if decide (stateId d.2 = awaiting_name) then True
   else (userProvidedName <$> citizen (final out))
        = (userProvidedName <$> citizen w))
  ∧ (if decide (stateId d.2 = awaiting_village) then True
     else (village <$> citizen (final out)) = (village <$> citizen w)
          ∧ (CitizenService.coordinates <$> citizen (final out))
            = (CitizenService.coordinates <$> citizen w)
          ∧ (geocodingInfo <$> citizen (final out))
            = (geocodingInfo <$> citizen w)).
Proof.
  intros Hset Hd. cbn zeta.
  pose proof (settled_inv _ _ Hset) as Hinv.
  destruct (message_wp e number language displayName w Hinv) as [HQ _].
  destruct HQ as (c & l & a & Harr & Ha & Hl & H).
  destruct Harr as [(_ & Hs & _)|(c0 & Hc0 & Hs & ->)];
    [by rewrite Hs in Hd|].
  rewrite Hs, getCurrentState_snoc in Hd by done. injection Hd as <-.
  cbn [snd]. rewrite Hc0. cbn [fmap option_fmap option_map].
  set (c := setProfile _ (now e) c0) in *.
  assert (Hfields : ∀ c',
    citizen (final (processMessage e number language displayName w)) = Some c' →
    (stateId a ≠ awaiting_name → userProvidedName c' = userProvidedName c) →
    (stateId a ≠ awaiting_village →
       village c' = village c
       ∧ CitizenService.coordinates c' = CitizenService.coordinates c
       ∧ geocodingInfo c' = geocodingInfo c) →
    (if decide (stateId a = awaiting_name) then True
     else userProvidedName <$>
            citizen (final (processMessage e number language displayName w))
          = Some (userProvidedName c0))
    ∧ (if decide (stateId a = awaiting_village) then True
       else village <$>
              citizen (final (processMessage e number language displayName w))
            = Some (village c0)
            ∧ CitizenService.coordinates <$>
                citizen (final (processMessage e number language displayName w))
              = Some (CitizenService.coordinates c0)
            ∧ geocodingInfo <$>
                citizen (final (processMessage e number language displayName w))
              = Some (geocodingInfo c0))).
  { intros c' -> H1 H2. cbn [fmap option_fmap option_map]. split.
    - destruct (decide (stateId a = awaiting_name)); [done|]. by rewrite H1.
    - destruct (decide (stateId a = awaiting_village)); [done|].
      destruct H2 as (-> & -> & ->); done. }
  destruct (isRegistered c) eqn:Hreg.
  { destruct H as (_ & Hc & _). by apply (Hfields c). }
  destruct H as (o' & fr & cache & issued & _ & _ & H).
  apply handled_cases in H
    as [(c' & a' & Hc & _ & _ & _ & _ & ->)
       |(c' & x & next & s & Hc & _ & _ & _ & Hnext)].
  { by apply (Hfields c). }
  destruct Hnext as [(_ & _ & ->)|(_ & _ & _ & dd & _ & ->)].
  { by apply (Hfields c). }
  pose proof (updated_own_field (now e) (stateId a) dd c) as [U1 U2].
  apply (Hfields _ Hc).
  - intros Hn. destruct (decide (next = completed)); by apply U1.
  - intros Hn. destruct (decide (next = completed)); by apply U2.
Qed.

End Further.

(** * The theorems at concrete inputs *)

#[local] Existing Instance Sample.plain.

(** ** Conversations that contradict the claims as stated *)

(** Claim C1 as stated fails: with classifier confidence 0.9 and a geocoding
    score of 30, the clamped confidence is 0.3, and the village is merged
    and the registration completed all the same. *)
Lemma low_combined_confidence_is_merged :
  let w := deliver (conversation [hello; ramesh]) fromNimgaon in
  village <$> citizen w = Some (Some (js "Nimgaon"))
  ∧ stateId <$> states w = [initial; awaiting_name; awaiting_village; completed]
  ∧ (Openai.extractionConfidence <$>
       (last (functionCalls w) ≫= λ call, Openai.extractedData (callResults call)))
    = Some (Qmin 0.9 (inject_Z 30 / 100))
  ∧ Qle_bool (Qmin 0.9 (inject_Z 30 / 100)) 0.7 = true.
Proof. vm_compute. done. Qed.

(** Claim C2 as stated fails: when the classifier recommends ['completed']
    in ['awaiting_name'], the orchestrator commits it. *)
Lemma classifier_can_skip_a_state :
  let w := conversation [hello; rameshDone] in
  stateId <$> states w = [initial; awaiting_name; completed]
  ∧ ¬ (stateId <$> states w `prefix_of` sequence).
Proof.
  intros w.
  assert (stateId <$> states w = [initial; awaiting_name; completed]) as ->
    by (vm_compute; done).
  split; [done|]. intros [k Hk]. discriminate.
Qed.

(** Claim C3 as stated fails: a citizen is registered without a village
    when the extractor returns an empty village name, and when the
    classifier recommends ['completed'] in ['awaiting_name']. *)
Lemma registered_without_village :
  let w := conversation [hello; ramesh; blank] in
  let w' := conversation [hello; rameshDone] in
  (isRegistered <$> citizen w = Some true ∧ village <$> citizen w = Some None)
  ∧ (isRegistered <$> citizen w' = Some true
     ∧ village <$> citizen w' = Some None).
Proof. vm_compute. done. Qed.

(** Claim C5 as stated fails.  The batch is no transaction and nothing
    serializes the handlers of one citizen: when the handlers of the first
    two messages of a new citizen both read the ['initial'] state before
    either commits, both commits succeed and two state documents are
    active.  And the document that a registration deactivates last is
    stamped with the empty object, not with the extraction of the
    village. *)
Lemma overlapping_commits_leave_two_active_states :
  let w := final (getOrCreateCitizen 1000 number None emptyWorld) in
  let out :=
    overlapping 1000 1001 EmptyObject EmptyObject awaiting_name awaiting_name
      w in
  let w' := conversation [hello; ramesh; fromSaswad] in
  (stateId <$> states w = [initial] ∧ oneActive w
   ∧ value out = (true, true)
   ∧ stateId <$> states (final out) = [initial; awaiting_name; awaiting_name]
   ∧ isActive <$> states (final out) = [false; true; true]
   ∧ ¬ oneActive (final out))
  ∧ (stateId <$> states w' !! 2%nat = Some awaiting_village
     ∧ StateManager.extractedData <$> states w' !! 2%nat
       = Some (Some EmptyObject)).
Proof.
  intros w out w'.
  split; [|vm_compute; done].
  split; [vm_compute; reflexivity|]. split; [vm_compute; lia|].
  split; [vm_compute; reflexivity|]. split; [vm_compute; reflexivity|].
  split; [vm_compute; reflexivity|]. unfold oneActive.
  assert (activeCount (states (final out)) = 2%nat) as ->
    by (vm_compute; reflexivity).
  lia.
Qed.

(** Claim C6 as stated fails in its last part: the reprompt after a failed
    geocoding increments the [attempts] counter of the current state. *)
Lemma geocoding_failure_counts_an_attempt :
  let w := conversation [hello; ramesh] in
  let w' := deliver w fromMumbai in
  (stateId <$> last (states w), attempts <$> last (states w))
  = (Some awaiting_village, Some 0)
  ∧ (stateId <$> last (states w'), attempts <$> last (states w'))
    = (Some awaiting_village, Some 1).
Proof. vm_compute. done. Qed.

(** Claim C7 as stated fails: a failed lookup is not cached, so a second
    call one second later queries the provider again and may return another
    outcome. *)
Lemma failed_lookup_is_repeated :
  let first := geocodeVillage Sample.unreachable 0 (js "Saswad") (js "en") ∅ in
  let second :=
    geocodeVillage Sample.atlas 1000 (js "Saswad") (js "en") first.1.2 in
  second.2 ≠ [] ∧ second.1.1 ≠ first.1.1.
Proof. vm_compute. split; discriminate. Qed.

(** Claim C8 as stated fails: with a provider that throws on every
    template there is no candidate, and the outcome is not the service
    error. *)
Lemma exhausted_templates_not_service_error :
  candidates Sample.unreachable (js "en") (js "Saswad") = []
  ∧ (geocodeVillage Sample.unreachable 0 (js "Saswad") (js "en") ∅).1.1
    ≠ serviceError (js "en").
Proof. split; [reflexivity|]. vm_compute. discriminate. Qed.

(** ** The claims at concrete places and conversations *)

Lemma settled_deliver P w e :
  settled P w →
  (∀ d, StateManager.getCurrentState (states w) = Some d → P (stateId d.2) e) →
  settled P (deliver w e).
Proof. apply settled_message. Qed.

Lemma settled_conversation es : settled anyAnswer (conversation es).
Proof.
  unfold conversation.
  assert (H : ∀ w, settled anyAnswer w → settled anyAnswer (foldl deliver w es)).
  { induction es as [|e es IH]; intros w Hw; [done|].
    cbn [foldl]. apply IH. by apply settled_deliver. }
  apply H. by apply settled_fresh.
Qed.

Lemma merge_needs_classifier_confidence_witness :
  let w := conversation [hello; ramesh] in
  let out := processRegistrationWithFunctionCalling fromNimgaon number en
               (citizenOf w) w in
  let quiet := processRegistrationWithFunctionCalling unsure number en
                 (citizenOf w) w in
  (∃ c', citizen (final out) = Some c'
         ∧ village c' = Some (js "Nimgaon") ∧ isRegistered c' = true)
  ∧ stateId <$> states (final out)
    = [initial; awaiting_name; awaiting_village; completed]
  ∧ citizen (final quiet) = citizen w
  ∧ stateId <$> states (final quiet) = stateId <$> states w.
Proof.
  intros w out quiet.
  set (call e :=
    Openai.processRegistrationWithFunctions (model e) (provider e) (now e)
      awaiting_village en (geoCache w)).
  pose proof (merge_needs_classifier_confidence (runtime := plain)
      fromNimgaon number en
                (citizenOf w) w (citizenOf w) (earlier w) (current w)
                (call fromNimgaon).1.1 (call fromNimgaon).1.2
                (call fromNimgaon).2
                ltac:(vm_compute; congruence) ltac:(vm_compute; congruence)
                ltac:(vm_compute; congruence) ltac:(vm_compute; congruence)
                ltac:(vm_compute; congruence)) as [H1 _].
  pose proof (merge_needs_classifier_confidence (runtime := plain)
      unsure number en
                (citizenOf w) w (citizenOf w) (earlier w) (current w)
                (call unsure).1.1 (call unsure).1.2 (call unsure).2
                ltac:(vm_compute; congruence) ltac:(vm_compute; congruence)
                ltac:(vm_compute; congruence) ltac:(vm_compute; congruence)
                ltac:(vm_compute; congruence)) as [H2 _].
  fold out in H1. fold quiet in H2.
  assert (classifierAccepts (model fromNimgaon)
          && bool_decide (is_Some (Openai.extractedData (call fromNimgaon).1.1))
          = true) as E1 by (vm_compute; reflexivity).
  assert (classifierAccepts (model unsure)
          && bool_decide (is_Some (Openai.extractedData (call unsure).1.1))
          = false) as E2 by (vm_compute; reflexivity).
  rewrite E1 in H1. rewrite E2 in H2.
  destruct H1 as (d & c' & Hd & Hc & _ & Hv & Hr & Hs).
  destruct H2 as (Hq1 & Hq2 & _).
  vm_compute in Hd. injection Hd as <-.
  split; [|split; [rewrite Hs; vm_compute; reflexivity|by split]].
  exists c'. split; [done|]. split; [rewrite Hv|rewrite Hr]; vm_compute;
    reflexivity.
Defined.

Lemma committed_states_follow_sequence_witness :
  let w := conversation [hello; ramesh] in
  let out := processMessage fromSaswad number en None w in
  stateId <$> states (final out)
  = [initial; awaiting_name; awaiting_village; completed]
  ∧ stateId <$> states w `prefix_of` sequence.
Proof.
  intros w out.
  pose proof (committed_states_follow_sequence w fromSaswad number en None
                (settled_conversation _)) as [H1 H2].
  fold out in H1. split; [rewrite H1; vm_compute; reflexivity|].
  apply H2. unfold w. cbv [conversation foldl].
  repeat apply settled_deliver.
  - by apply settled_fresh.
  - intros d Hd. vm_compute in Hd. discriminate.
  - intros d Hd. vm_compute in Hd. injection Hd as <-.
    intros sa [= <-] _. apply list_elem_of_here.
Defined.

Lemma registered_iff_name_and_village_witness :
  isRegistered (citizenOf (conversation [hello; ramesh; fromSaswad])) = true
  ↔ is_Some (userProvidedName (citizenOf (conversation [hello; ramesh; fromSaswad])))
    ∧ is_Some (village (citizenOf (conversation [hello; ramesh; fromSaswad]))).
Proof.
  apply (registered_iff_name_and_village
           (conversation [hello; ramesh; fromSaswad])); [|vm_compute; reflexivity].
  cbv [conversation foldl].
  repeat apply settled_deliver.
  - by apply settled_fresh.
  - intros d Hd. vm_compute in Hd. discriminate.
  - intros d Hd. vm_compute in Hd. injection Hd as <-.
    split; [intros sa [= <-] _; apply list_elem_of_here|].
    split; [by intros n q [= <- _]|by intros v q g [=]].
  - intros d Hd. vm_compute in Hd. injection Hd as <-.
    split; [intros sa [= <-] _; apply list_elem_of_here|].
    split; [by intros n q [=]|by intros v q g [= <- _ _]].
Defined.

Lemma out_of_boundary_is_failure_witness :
  let out := geocodeVillage atlas 0 (js "Mumbai") (js "en") ∅ in
  out.1.1
  = Failure {|
      error := js "Village not in Pune ZP";
      failLocation := Some {| lat := 19.0760; lng := 72.8777 |};
      failAddress := Some (js "Mumbai, Maharashtra, India");
      message := js "This village is not within Pune Zilla Panchayat boundaries. Please provide a village name from Pune district."
    |}
  ∧ success out.1.1 = false
  ∧ out.2 = searchQueries (js "Mumbai")
  ∧ out.1.2 = ∅
  ∧ cachedUnder (js "Mumbai") out.1.2 = None
  ∧ out.1.2 ⊆ ∅.
Proof.
  apply (out_of_boundary_is_failure (runtime := plain)
      atlas 0 (js "Mumbai") (js "en") ∅ ∅
           mumbai 150 {| lat := 19.0760; lng := 72.8777 |});
    [vm_compute; reflexivity..|].
  intros (_ & _ & H & _). vm_compute in H. by apply H.
Defined.

Lemma one_active_state_at_all_times_witness :
  let w := conversation [hello; ramesh] in
  let out := processMessage fromSaswad number en None w in
  oneActive w ∧ oneActive (final out)
  ∧ Forall (λ w', states w' = [] ∨ activeCount (states w') = 1%nat)
      (trace out).
Proof.
  pose proof (one_active_state_at_all_times (conversation [hello; ramesh])
                fromSaswad number en None (settled_conversation _))
    as (H1 & H2 & H3 & _).
  exact (conj H1 (conj H2 H3)).
Defined.

Lemma geocoding_failure_reprompts_witness :
  let w := conversation [hello; ramesh] in
  let out := processRegistrationWithFunctionCalling fromMumbai number en
               (citizenOf w) w in
  response (value out)
  = Text (js "This village is not within Pune Zilla Panchayat boundaries. Please provide a village name from Pune district.")
  ∧ citizen (final out) = citizen w
  ∧ stateId <$> states (final out) = stateId <$> states w.
Proof.
  intros w out.
  set (g := geocodeVillage atlas 3000 (js "Mumbai") en (geoCache w)).
  assert (cacheWithinBoundary (geoCache w)) as Hcache.
  { intros k d Hk. vm_compute in Hk. discriminate. }
  pose proof (geocoding_failure_reprompts (runtime := plain)
      fromMumbai number en (citizenOf w) w
                (citizenOf w) (earlier w) (current w)
                (verdict awaiting_village completed 0.9)
                (js "Mumbai") 0.9%Q true (failureOf g.1.1) g.1.2 g.2
                ltac:(vm_compute; congruence) ltac:(vm_compute; congruence)
                ltac:(vm_compute; congruence) ltac:(vm_compute; congruence)
                Hcache
                ltac:(vm_compute; congruence) ltac:(vm_compute; congruence)
                ltac:(vm_compute; congruence) ltac:(vm_compute; congruence)
                ltac:(vm_compute; congruence)) as (Hv & Hc & Hs & _).
  subst out. rewrite Hv, Hc, Hs. by split_and!.
Defined.

Lemma cached_success_is_replayed_witness :
  let first := geocodeVillage atlas 0 (js "Saswad") (js "en") ∅ in
  let other := geocodeVillage atlas 0 (js "Saswad/Pune") (js "en") ∅ in
  (geocodeVillage unreachable 3600000 (js " SASWAD ") (js "mr") first.1.2
   = (first.1.1, first.1.2, []))
  ∧ (success other.1.1 = true
     ∧ other.1.2 = ∅
     ∧ (geocodeVillage unreachable 1000 (js "Saswad/Pune") (js "en")
          other.1.2).2
       = searchQueries (js "Saswad/Pune")).
Proof.
  intros first other.
  assert (∀ name, getCachedGeocode 0 name ∅ = (None, ∅)) as Hmiss.
  { intros name. unfold getCachedGeocode.
    by destruct (documentId (cacheKey name)). }
  assert (geocodeVillage atlas 0 (js "Saswad") (js "en") ∅
          = (first.1.1, first.1.2, first.2)) as Hfirst
    by (vm_compute; reflexivity).
  assert (geocodeVillage atlas 0 (js "Saswad/Pune") (js "en") ∅
          = (other.1.1, other.1.2, other.2)) as Hother
    by (vm_compute; reflexivity).
  assert (cacheKey (js " SASWAD ") = cacheKey (js "Saswad")) as Hkey
    by (vm_compute; reflexivity).
  pose proof (cached_success_is_replayed atlas unreachable
           0 3600000 (js "Saswad") (js " SASWAD ") (js "en") (js "mr") ∅ ∅
           first.1.1 first.1.2 first.2 (Hmiss _) Hfirst Hkey) as H1.
  pose proof (cached_success_is_replayed atlas unreachable
           0 1000 (js "Saswad/Pune") (js "Saswad/Pune") (js "en") (js "en")
           ∅ ∅ other.1.1 other.1.2 other.2 (Hmiss _) Hother eq_refl) as H2.
  assert (documentId (cacheKey (js "Saswad")) = Some (js "saswad")) as E1
    by (vm_compute; reflexivity).
  assert (documentId (cacheKey (js "Saswad/Pune")) = None) as E2
    by (vm_compute; reflexivity).
  rewrite E1 in H1. rewrite E2 in H2.
  destruct first.1.1 as [g1|] eqn:F1; [|vm_compute in F1; discriminate].
  destruct other.1.1 as [g2|] eqn:F2; [|vm_compute in F2; discriminate].
  destruct H1 as [_ H1]. rewrite decide_True in H1 by lia.
  destruct H2 as [H2 H2'].
  split; [exact H1|]. split; [reflexivity|]. split; [exact H2|exact H2'].
Defined.

Lemma exhausted_templates_give_not_found_witness :
  geocodeVillage Sample.unreachable 0 (js "Saswad") (js "mr") ∅
  = (notFound (js "mr"), ∅, searchQueries (js "Saswad"))
  ∧ (∀ b q qs,
       match Sample.unreachable q (if isMarathi (js "mr") then js "hi" else js "en") with
       | ProviderError =>
           foldl (queryStep Sample.unreachable (js "mr") (js "Saswad")) b (q :: qs)
           = foldl (queryStep Sample.unreachable (js "mr") (js "Saswad")) b qs
       | ProviderResponse _ _ => True
       end).
Proof.
  apply (exhausted_templates_give_not_found (runtime := plain)
      Sample.unreachable 0 (js "Saswad")
           (js "mr") ∅ ∅); vm_compute; reflexivity.
Defined.

Lemma relevance_score_and_best_candidate_witness :
  nameBonus (js "SASWAD") (component "Saswad" "saswad" ["locality"]) = 100.
Proof.
  apply (proj2 (proj2 (proj2 relevance_score_and_best_candidate))
           (js "SASWAD") (component "Saswad" "saswad" ["locality"])).
  - intros s _. reflexivity.
  - repeat constructor.
  - repeat constructor.
  - repeat constructor.
  - left. apply fold_equalsIgnoringCase; [repeat constructor..|].
    vm_compute. reflexivity.
Defined.

(** ** The further properties at concrete inputs *)

Lemma calculateResponseConfidence_keywords_witness :
  let confidence :=
    calculateResponseConfidence (js "The Gram Panchayat office opens at ten")
      (js "When does the panchayat office open") in
  let found :=
    List.filter
      (λ word, includes (toLowerCase (js "The Gram Panchayat office opens at ten")) word)
      (queryWords (js "When does the panchayat office open")) in
  (confidence = 0.2%Q ↔ found = [])
  ∧ (confidence = 0.9%Q
     ↔ found ≠ []
       ∧ (4 * length (queryWords (js "When does the panchayat office open"))
          ≤ 5 * length found)%nat).
Proof.
  apply (calculateResponseConfidence_keywords
           (js "The Gram Panchayat office opens at ten")
           (js "When does the panchayat office open")).
  vm_compute. repeat constructor.
Defined.

Lemma cacheKey_normal_form_witness :
  cacheKey (cacheKey (js " Saswad ")) = cacheKey (js " Saswad ")
  ∧ cacheKey (toLowerCase (js " Saswad ")) = cacheKey (js " Saswad ")
  ∧ cacheKey (trim (js " Saswad ")) = cacheKey (js " Saswad ")
  ∧ toLowerCase (cacheKey (js " Saswad ")) = cacheKey (js " Saswad ")
  ∧ trim (cacheKey (js " Saswad ")) = cacheKey (js " Saswad ").
Proof.
  apply (cacheKey_normal_form (js " Saswad ")).
  - intros s _. reflexivity.
  - repeat constructor.
Defined.

Lemma fresh_success_is_scored_and_stored_witness :
  let out := geocodeVillage atlas 0 (js "Saswad") en ∅ in
  0 < Geocoding.confidence
        (match out.1.1 with Success g => g | Failure _ => geocodeResultOf 0 [] saswad {| lat := 0; lng := 0 |} 0 end)
  ∧ is_Some (out.1.2 !! js "saswad").
Proof.
  destruct (geocodeVillage atlas 0 (js "Saswad") en ∅) as [[r cache'] issued] eqn:E.
  destruct r as [g|f]; [|vm_compute in E; discriminate].
  pose proof (fresh_success_is_scored_and_stored (runtime := plain)
      atlas 0 (js "Saswad") en ∅ ∅
                g cache' issued eq_refl E) as (H1 & _ & _ & _ & _ & H6).
  cbn [fst snd]. split; [exact H1|].
  assert (documentId (cacheKey (js "Saswad")) = Some (js "saswad")) as Hid
    by (vm_compute; reflexivity).
  rewrite Hid in H6. rewrite H6, lookup_insert_eq. by eexists.
Defined.

Lemma registered_iff_completed_state_witness :
  isRegistered (citizenOf (conversation [hello; ramesh; fromSaswad])) = true
  ↔ stateId (current (conversation [hello; ramesh; fromSaswad])) = completed.
Proof.
  apply (registered_iff_completed_state (runtime := plain)
           (conversation [hello; ramesh; fromSaswad]) _
           (3%nat, current (conversation [hello; ramesh; fromSaswad]))).
  - apply settled_conversation.
  - vm_compute. reflexivity.
  - vm_compute. reflexivity.
Defined.

Lemma completed_state_is_terminal_witness :
  let w := conversation [hello; ramesh; fromSaswad] in
  let out := processMessage fromMumbai number en None w in
  value out = None ∧ states (final out) = states w.
Proof.
  pose proof (completed_state_is_terminal (runtime := plain)
                (conversation [hello; ramesh; fromSaswad])
                (3%nat, current (conversation [hello; ramesh; fromSaswad]))
                fromMumbai number en None (settled_conversation _)
                ltac:(vm_compute; reflexivity) ltac:(vm_compute; reflexivity))
    as (H1 & H2 & _).
  exact (conj H1 H2).
Defined.

Lemma continue_iff_registration_completed_witness :
  let out :=
    processMessage fromSaswad number en None (conversation [hello; ramesh]) in
  shouldContinue <$> value out = Some true
  ∧ (isRegistered <$> citizen (final out)) = Some true.
Proof.
  pose proof (continue_iff_registration_completed
                (conversation [hello; ramesh]) fromSaswad number en None
                (settled_conversation _)) as H.
  cbn zeta in *.
  assert (Hv : shouldContinue <$>
                 value (processMessage fromSaswad number en None
                          (conversation [hello; ramesh])) = Some true)
    by (vm_compute; reflexivity).
  split; [exact Hv|].
  destruct (value _) as [o|]; [|discriminate].
  injection Hv as Hv. by apply H.
Defined.

Lemma function_call_log_grows_by_one_witness :
  let w := conversation [hello; ramesh] in
  length (functionCalls (deliver w fromMumbai)) = length (functionCalls w)
  ∧ length (functionCalls (deliver w fromSaswad))
    = S (length (functionCalls w)).
Proof.
  pose proof (function_call_log_grows_by_one (conversation [hello; ramesh])
                fromMumbai number en None (settled_conversation _)) as H1.
  pose proof (function_call_log_grows_by_one (conversation [hello; ramesh])
                fromSaswad number en None (settled_conversation _)) as H2.
  cbn zeta in *. unfold deliver. rewrite H1, H2.
  vm_compute. split; reflexivity.
Defined.

Lemma geocoding_ledger_follows_the_call_witness :
  let w := conversation [hello; ramesh] in
  let out := processMessage fromSaswad number en None w in
  let call :=
    Openai.processRegistrationWithFunctions (model fromSaswad)
      (provider fromSaswad) (now fromSaswad) awaiting_village en (geoCache w) in
  geoCache (final out) = call.1.2
  ∧ providerLog (final out) = providerLog w ++ searchQueries (js "Saswad").
Proof.
  exact (geocoding_ledger_follows_the_call (conversation [hello; ramesh])
           fromSaswad number en None (settled_conversation _)).
Defined.

Lemma attempts_count_handled_messages_witness :
  let w := conversation [hello; ramesh] in
  match states (final (processMessage unsure number en None w)) !! 2%nat with
  | Some r =>
      stateId r = awaiting_village
      ∧ attempts r = 0 + 1
      ∧ lastAttemptAt r = Some 2500
      ∧ length (StateManager.functionCallResults r) = 1%nat
  | None => False
  end.
Proof.
  apply (attempts_count_handled_messages (runtime := plain)
      (conversation [hello; ramesh])
           (2%nat, current (conversation [hello; ramesh]))
           unsure number en None (settled_conversation _)).
  - vm_compute. reflexivity.
  - vm_compute. congruence.
  - vm_compute. congruence.
Defined.

Lemma state_history_is_append_only_witness :
  let w := conversation [hello; ramesh] in
  take 2 (states (deliver w fromSaswad)) = take 2 (states w)
  ∧ stateId <$> states w `prefix_of` stateId <$> states (deliver w fromSaswad).
Proof.
  pose proof (state_history_is_append_only (conversation [hello; ramesh])
                fromSaswad number en None (settled_conversation _))
    as (H1 & H2 & _).
  split; [exact H1|exact H2].
Defined.

Lemma exactly_one_active_state_once_created_witness :
  activeCount (states (conversation [hello; ramesh; fromSaswad])) = 1%nat.
Proof.
  exact (exactly_one_active_state_once_created
           (conversation [hello; ramesh; fromSaswad])
           (observed_settled _ _ (settled_conversation _))).
Defined.

Lemma registration_data_is_written_in_its_own_state_witness :
  let w := conversation [hello; ramesh] in
  let out := processMessage fromSaswad number en None w in
  (userProvidedName <$> citizen (final out)) = (userProvidedName <$> citizen w).
Proof.
  exact (proj1 (registration_data_is_written_in_its_own_state (runtime := plain)
                  (conversation [hello; ramesh])
                  (2%nat, current (conversation [hello; ramesh]))
                  fromSaswad number en None (settled_conversation _)
                  ltac:(vm_compute; reflexivity))).
Defined.
